(** * OHEditor: a shallow embedding of [openhands_aci/editor/editor.py]

    The editor is a Python class whose commands read one file, compute a
    new text in memory, write it back and push a snapshot on a per-path
    history.  Python strings are modelled as lists of code points, the
    file system and the history dictionary as finite maps, and every
    method as a function in a state-and-exception monad in which the state
    survives a raise, as it does in Python. *)

From Stdlib Require Import ZArith NArith Ascii String DecimalString Lia.
From stdpp Require Import base option list gmap.

Local Open Scope Z_scope.

(** ** Python strings and the [str] methods the editor calls *)

Module Py.

(** A [str] is a sequence of Unicode code points. *)
Definition char : Type := N.
Definition str : Type := list N.

(** [py "abc"] is the literal ['abc'] (code points below 256). *)
Definition py (s : string) : str := N_of_ascii <$> list_ascii_of_string s.
Global Arguments py _ : simpl never.

Definition TAB : char := 9%N.
Definition NL : char := 10%N.
Definition CR : char := 13%N.
Definition SP : char := 32%N.

(** [s.startswith(prefix)] *)
Fixpoint startswith (s prefix : str) : bool :=
  match prefix, s with
  | [], _ => true
  | _ :: _, [] => false
  | p :: prefix', c :: s' => (c =? p)%N && startswith s' prefix'
  end.

(** [s.expandtabs()] with the default tab size 8: a tab becomes the spaces
    that reach the next multiple of 8, the column restarts after a line
    feed or a carriage return. *)
Fixpoint expandtabs_from (col : nat) (s : str) : str :=
  match s with
  | [] => []
  | c :: t =>
      if (c =? TAB)%N then
        let incr := (8 - col mod 8)%nat in
        replicate incr SP ++ expandtabs_from (col + incr) t
      else
        c :: expandtabs_from (if (c =? NL)%N || (c =? CR)%N then 0 else S col)%nat t
  end.

Definition expandtabs (s : str) : str := expandtabs_from 0 s.

(** [sep.join(l)] *)
Fixpoint join (sep : str) (l : list str) : str :=
  match l with
  | [] => []
  | x :: r => match r with [] => x | _ :: _ => x ++ sep ++ join sep r end
  end.

(** A left-to-right scan for the non-overlapping occurrences of a
    non-empty needle; [skip] counts the characters of the occurrence just
    found that are still to be passed over. *)
Fixpoint split_scan (sep : str) (skip : nat) (s : str) : list str :=
  match s with
  | [] => [[]]
  | c :: t =>
      match skip with
      | S k => split_scan sep k t
      | O =>
          if startswith s sep then [] :: split_scan sep (length sep - 1) t
          else match split_scan sep 0 t with
               | [] => [[c]]
               | h :: r => (c :: h) :: r
               end
      end
  end.

Fixpoint replace_scan (old new : str) (skip : nat) (s : str) : str :=
  match s with
  | [] => []
  | c :: t =>
      match skip with
      | S k => replace_scan old new k t
      | O =>
          if startswith s old then new ++ replace_scan old new (length old - 1) t
          else c :: replace_scan old new 0 t
      end
  end.

Fixpoint count_scan (sub : str) (skip : nat) (s : str) : nat :=
  match s with
  | [] => 0
  | c :: t =>
      match skip with
      | S k => count_scan sub k t
      | O =>
          if startswith s sub then S (count_scan sub (length sub - 1) t)
          else count_scan sub 0 t
      end
  end.

(** [s.replace(old, new)]: every non-overlapping occurrence, from the left;
    an empty [old] matches before every character and at the end. *)
Definition replace (s old new : str) : str :=
  match old with
  | [] => new ++ concat ((fun c => c :: new) <$> s)
  | _ :: _ => replace_scan old new 0 s
  end.

(** [s.count(sub)]: the number of non-overlapping occurrences;
    [len(s) + 1] for the empty string. *)
Definition count (s sub : str) : Z :=
  match sub with
  | [] => Z.of_nat (length s) + 1
  | _ :: _ => Z.of_nat (count_scan sub 0 s)
  end.

(** Python's index normalisation for slices: a negative index counts from
    the end, and the result is clamped to [0..len]. *)
Definition clamp_index (len i : Z) : Z :=
  if i <? 0 then Z.max 0 (i + len) else Z.min i len.

(** [l[start:stop]] *)
Definition slice {A} (l : list A) (start stop : Z) : list A :=
  let n := Z.of_nat (length l) in
  let a := clamp_index n start in
  let b := clamp_index n stop in
  take (Z.to_nat (b - a)) (drop (Z.to_nat a) l).

(** [l[:stop]] and [l[start:]] *)
Definition slice_to {A} (l : list A) (stop : Z) : list A := slice l 0 stop.
Definition slice_from {A} (l : list A) (start : Z) : list A :=
  slice l start (Z.of_nat (length l)).

(** [s.count(sub, start, end)] *)
Definition count_in (s sub : str) (start stop : Z) : Z :=
  count (slice s start stop) sub.

Fixpoint find_at (sub s : str) (i : nat) : option nat :=
  if startswith s sub then Some i
  else match s with
       | [] => None
       | _ :: t => find_at sub t (S i)
       end.

(** [s.find(sub, start)]: the lowest index at or after [start] where [sub]
    begins, [-1] when there is none (also when [start] is past the end). *)
Definition find (s sub : str) (start : Z) : Z :=
  let n := Z.of_nat (length s) in
  let a := if start <? 0 then Z.max 0 (start + n) else start in
  if n <? a then -1
  else match find_at sub (drop (Z.to_nat a) s) (Z.to_nat a) with
       | Some i => Z.of_nat i
       | None => -1
       end.

(** The characters [str.splitlines] treats as line boundaries. *)
Definition is_linebreak (c : char) : bool :=
  bool_decide (c ∈ [10; 11; 12; 13; 28; 29; 30; 133; 8232; 8233]%N).

(** [s.splitlines()]: the pieces between line boundaries ([\r\n] counts
    once), without a final empty piece. *)
Fixpoint linebreak_pieces (after_cr : bool) (s : str) : list str :=
  match s with
  | [] => [[]]
  | c :: t =>
      if after_cr && (c =? NL)%N then linebreak_pieces false t
      else if is_linebreak c then [] :: linebreak_pieces (c =? CR)%N t
      else match linebreak_pieces false t with
           | [] => [[c]]
           | h :: r => (c :: h) :: r
           end
  end.

Definition splitlines (s : str) : list str :=
  let pieces := linebreak_pieces false s in
  match last pieces with
  | Some [] => removelast pieces
  | _ => pieces
  end.

(** [s.split(sep)] for a non-empty separator; Python raises [ValueError]
    on the empty one, which the caller models. *)
Definition split (s sep : str) : list str := split_scan sep 0 s.

(** [min(l)] and [max(l)] of a non-empty list [x :: r]. *)
Definition min_of (x : Z) (r : list Z) : Z := foldl Z.min x r.
Definition max_of (x : Z) (r : list Z) : Z := foldl Z.max x r.

(** [str(n)] and [str(l)] for an int and a list of ints. *)
Definition str_of_int (n : Z) : str := py (NilZero.string_of_int (Z.to_int n)).
Definition str_of_list (l : list Z) : str :=
  py "[" ++ join (py ", ") (str_of_int <$> l) ++ py "]".

(** [f'{n:6}']: right-aligned in a field of width 6. *)
Definition format_6 (n : Z) : str :=
  let d := str_of_int n in replicate (6 - length d)%nat SP ++ d.

End Py.


Import Py.

(** ** Exceptions ([exceptions.py] and the built-in ones the code meets) *)

Inductive exception_class :=
  | ToolError_class
  | EditorToolParameterMissingError_class
  | EditorToolParameterInvalidError_class
  | ValueError_class
  | IndexError_class
  | OSError_class
  | re_error_class
  | RecursionError_class.

Record exn := Exn { exn_class : exception_class; message : str }.

Global Instance exception_class_eq_dec : EqDecision exception_class.
Proof. solve_decision. Defined.
Global Instance exn_eq_dec : EqDecision exn.
Proof. solve_decision. Defined.

(** [class ToolError(Exception)]: just a message. *)
Definition ToolError (msg : str) : exn := Exn ToolError_class msg.

(** [class EditorToolParameterMissingError(ToolError)] *)
Definition EditorToolParameterMissingError (command parameter : str) : exn :=
  Exn EditorToolParameterMissingError_class
    (py "Parameter `" ++ parameter ++ py "` is required for command: "
       ++ command ++ py ".").

(** [class EditorToolParameterInvalidError(ToolError)]; its [__init__]
    takes [(command, parameter, value, hint=None)], the editor passes three
    positional arguments, so that the hint is always absent. *)
Definition EditorToolParameterInvalidError
    (command parameter value : str) (hint : option str) : exn :=
  Exn EditorToolParameterInvalidError_class
    match hint with
    | Some h =>
        py "Invalid `" ++ parameter ++ py "` parameter for command `"
          ++ command ++ py "`: " ++ value ++ py ". " ++ h
    | None =>
        py "Invalid `" ++ parameter ++ py "` parameter for command `"
          ++ command ++ py "`: " ++ value ++ py "."
    end.

(** [isinstance(e, ToolError)]: the class itself or one of its subclasses. *)
Definition is_ToolError (e : exn) : bool :=
  match exn_class e with
  | ToolError_class
  | EditorToolParameterMissingError_class
  | EditorToolParameterInvalidError_class => true
  | _ => false
  end.

(** ** The world: files on disk, the editor's history, the I/O done *)

Definition Path : Type := str.

Inductive node := File (content : str) | Dir.

Inductive io_event :=
  | ReadText (p : Path)
  | WriteText (p : Path) (content : str).

(** [fs] maps a path to what is there; a path in [readonly] refuses
    writes; [_file_history] is the [defaultdict(list)] of the editor;
    [io_log] records every [read_text] and [write_text] attempted. *)
Record world := World {
  fs : gmap Path node;
  readonly : gset Path;
  _file_history : gmap Path (list str);
  io_log : list io_event
}.

(** The stack of snapshots of a path; a missing key reads as the empty
    list, as with [defaultdict(list)]. *)
Definition history_of (w : world) (p : Path) : list str :=
  default [] (_file_history w !! p).

(** The text of the file at a path, when there is one. *)
Definition content_of (w : world) (p : Path) : option str :=
  match fs w !! p with
  | Some (File c) => Some c
  | _ => None
  end.

(** ** State and exception monad: the state survives a raise *)

Definition result (A : Type) : Type := exn + A.
Definition M (A : Type) : Type := world → result A * world.

Definition ret {A} (a : A) : M A := λ w, (inr a, w).
Definition raise {A} (e : exn) : M A := λ w, (inl e, w).
Definition bind {A B} (m : M A) (k : A → M B) : M B := λ w,
  match m w with
  | (inl e, w') => (inl e, w')
  | (inr a, w') => k a w'
  end.
(** [try: m except Exception as e: h e] *)
Definition try_except {A} (m : M A) (h : exn → M A) : M A := λ w,
  match m w with
  | (inl e, w') => h e w'
  | (inr a, w') => (inr a, w')
  end.

Global Instance M_ret : MRet M := @ret.
Global Instance M_bind : MBind M := λ A B k m, bind m k.

(** A call of [re.sub]: its value, or [re.error] raised. *)
Definition lift_re (r : str + str) : M str :=
  match r with
  | inl msg => raise (Exn re_error_class msg)
  | inr s => mret s
  end.

(** ** pathlib and the history dictionary *)

Definition log_io (ev : io_event) (w : world) : world :=
  World (fs w) (readonly w) (_file_history w) (io_log w ++ [ev]).

(** [repr] of a path as the operating system's message quotes it. *)
Definition quoted (p : Path) : str := py "'" ++ p ++ py "'".

(** [path.read_text()] *)
Definition read_text (p : Path) : M str := λ w,
  let w' := log_io (ReadText p) w in
  match fs w !! p with
  | Some (File c) => (inr c, w')
  | Some Dir =>
      (inl (Exn OSError_class (py "[Errno 21] Is a directory: " ++ quoted p)), w')
  | None =>
      (inl (Exn OSError_class
              (py "[Errno 2] No such file or directory: " ++ quoted p)), w')
  end.

(** [path.write_text(text)] *)
Definition write_text (p : Path) (text : str) : M unit := λ w,
  let w' := log_io (WriteText p text) w in
  if bool_decide (p ∈ readonly w) then
    (inl (Exn OSError_class (py "[Errno 13] Permission denied: " ++ quoted p)), w')
  else match fs w !! p with
       | Some Dir =>
           (inl (Exn OSError_class (py "[Errno 21] Is a directory: " ++ quoted p)), w')
       | _ =>
           (inr (), World (<[p := File text]> (fs w)) (readonly w')
                      (_file_history w') (io_log w'))
       end.

Definition path_exists (p : Path) : M bool := λ w,
  (inr (bool_decide (is_Some (fs w !! p))), w).
Definition path_is_dir (p : Path) : M bool := λ w,
  (inr (match fs w !! p with Some Dir => true | _ => false end), w).
Definition is_absolute (p : Path) : bool := startswith p (py "/").

(** [self._file_history[path]]: reading a missing key of a
    [defaultdict(list)] stores the empty list under it. *)
Definition history_get (p : Path) : M (list str) := λ w,
  match _file_history w !! p with
  | Some l => (inr l, w)
  | None => (inr [], World (fs w) (readonly w) (<[p := []]> (_file_history w)) (io_log w))
  end.

Definition history_set (p : Path) (l : list str) : M unit := λ w,
  (inr (), World (fs w) (readonly w) (<[p := l]> (_file_history w)) (io_log w)).

(** [self._file_history[path].append(text)] *)
Definition history_append (p : Path) (text : str) : M unit :=
  l ← history_get p; history_set p (l ++ [text]).

(** [self._file_history[path].pop()] *)
Definition history_pop (p : Path) : M str :=
  l ← history_get p;
  match last l with
  | Some x => _ ← history_set p (removelast l); mret x
  | None => raise (Exn IndexError_class (py "pop from empty list"))
  end.

(** ** Python lists indexed by an [int] *)

(** The position an index denotes, [None] where Python raises
    [IndexError]. *)
Definition index_of {A} (l : list A) (i : Z) : option nat :=
  let n := Z.of_nat (length l) in
  if (0 <=? i) && (i <? n) then Some (Z.to_nat i)
  else if (- n <=? i) && (i <? 0) then Some (Z.to_nat (n + i))
  else None.

(** [l[i]] *)
Definition getitem {A} (l : list A) (i : Z) : M A :=
  match index_of l i ≫= (l !!.) with
  | Some x => mret x
  | None => raise (Exn IndexError_class (py "list index out of range"))
  end.

(** [l[i] = x] *)
Definition setitem {A} (l : list A) (i : Z) (x : A) : M (list A) :=
  match index_of l i with
  | Some k => mret (<[k := x]> l)
  | None => raise (Exn IndexError_class (py "list assignment index out of range"))
  end.

(** [enumerate(l)] *)
Definition enumerate {A} (l : list A) : list (Z * A) :=
  imap (λ i x, (Z.of_nat i, x)) l.

(** [range(a, b)] *)
Definition range (a b : Z) : list Z := seqZ a (b - a).

(** [for x in l: acc = body acc x] *)
Fixpoint for_each {A B} (l : list A) (body : B → A → M B) (acc : B) : M B :=
  match l with
  | [] => mret acc
  | x :: r => acc' ← body acc x; for_each r body acc'
  end.

(** [start, end = l] *)
Definition unpack2 (l : list Z) : M (Z * Z) :=
  match l with
  | [a; b] => mret (a, b)
  | [] | [_] =>
      raise (Exn ValueError_class
               (py "not enough values to unpack (expected 2, got "
                  ++ str_of_int (Z.of_nat (length l)) ++ py ")"))
  | _ => raise (Exn ValueError_class (py "too many values to unpack (expected 2)"))
  end.

(** [s.split(sep)] with Python's refusal of the empty separator. *)
Definition split_checked (s sep : str) : M (list str) :=
  match sep with
  | [] => raise (Exn ValueError_class (py "empty separator"))
  | _ :: _ => mret (split s sep)
  end.

(** [if l:] on a list (or [None], which the code never tells apart from
    the empty list: every use is behind this test). *)
Definition truthy {A} (l : list A) : bool :=
  match l with [] => false | _ :: _ => true end.

(** [min(l)], [max(l)]; never called on the empty list, where Python
    raises. *)
Definition min_list (l : list Z) : Z :=
  match l with [] => 0 | x :: r => min_of x r end.
Definition max_list (l : list Z) : Z :=
  match l with [] => 0 | x :: r => max_of x r end.

(** ** What the editor takes from outside the module *)

Record LintResult := { lint_line : Z; lint_column : Z; lint_message : str }.

(** [re.sub(pattern, repl, string, count, flags)], with [dotall] telling
    whether [flags] holds [re.DOTALL]: the new string on the right, the
    message of the [re.error] it raises on the left; the constant of [config.py];
    [maybe_truncate] of [results.py] at the file notice; the linter run on
    the old and the new text of a file; the shell's listing of a directory
    as [(stdout, stderr)]; the working directory. *)
Class Env := {
  re_sub : str → str → str → Z → bool → str + str;
  SNIPPET_CONTEXT_WINDOW : Z;
  maybe_truncate : str → str;
  lint_file_diff : str → str → Path → list LintResult;
  list_directory : Path → str * str;
  cwd : Path
}.

Record CLIResult := {
  output : str;
  error : option str;
  path : option str;
  prev_exist : bool;
  old_content : option str;
  new_content : option str
}.

Inductive Command :=
  | view_cmd | create_cmd | str_replace_cmd | insert_cmd | undo_edit_cmd
  | other_cmd (name : str).

Global Instance Command_eq_dec : EqDecision Command.
Proof. solve_decision. Defined.

Definition command_name (c : Command) : str :=
  match c with
  | view_cmd => py "view"
  | create_cmd => py "create"
  | str_replace_cmd => py "str_replace"
  | insert_cmd => py "insert"
  | undo_edit_cmd => py "undo_edit"
  | other_cmd name => name
  end.

(** The keyword arguments of [str_replace]. *)
Record kwargs := {
  line_numbers : list Z;
  line_range : list Z;
  line_all : bool;
  delete_lines : list Z;
  delete_range : list Z;
  regex : bool
}.

Definition no_kwargs : kwargs :=
  {| line_numbers := []; line_range := []; line_all := false;
     delete_lines := []; delete_range := []; regex := false |}.

(** ** class OHEditor *)

Section OHEditor.
Context {env : Env}.

Definition read_file (path : Path) : M str :=
  try_except (read_text path) (λ e,
    raise (ToolError (py "Ran into " ++ message e
                        ++ py " while trying to read " ++ path))).

Definition write_file (path : Path) (file_text : str) : M unit :=
  try_except (write_text path file_text) (λ e,
    raise (ToolError (py "Ran into " ++ message e
                        ++ py " while trying to write to " ++ path))).

Definition _make_output (snippet_content snippet_description : str)
    (start_line : Z) : str :=
  let snippet_content := maybe_truncate snippet_content in
  let snippet_content := expandtabs snippet_content in
  let snippet_content :=
    join [NL] ((λ il, format_6 (il.1 + start_line) ++ [TAB] ++ il.2)
                 <$> enumerate (split snippet_content [NL])) in
  py "Here's the result of running `cat -n` on " ++ snippet_description
    ++ py ":" ++ [NL] ++ snippet_content ++ [NL].

Definition _run_linting (old_content new_content : str) (path : Path) : str :=
  match lint_file_diff old_content new_content path with
  | [] => py "No linting issues found in the changes."
  | results =>
      join [NL]
        (py "Linting issues found in the changes:"
           :: ((λ r, py "- Line " ++ str_of_int (lint_line r) ++ py ", Column "
                       ++ str_of_int (lint_column r) ++ py ": " ++ lint_message r)
                 <$> results))
        ++ [NL]
  end.

(** [f'Invalid {pattern}: {line}. Line numbers must be between 1 and
    {num_lines}.'] *)
Definition msg_line_bounds (pattern : str) (line num_lines : Z) : str :=
  py "Invalid " ++ pattern ++ py ": " ++ str_of_int line
    ++ py ". Line numbers must be between 1 and " ++ str_of_int num_lines ++ py ".".

(** [f'Invalid line range: {line_range}. Start line must be less than or
    equal to end line.'], and the same for [delete range]. *)
Definition msg_start_end (pattern : str) (range : list Z) : str :=
  py "Invalid " ++ pattern ++ py ": " ++ str_of_list range
    ++ py ". Start line must be less than or equal to end line.".

(** The nested function of [str_replace]. *)
Definition validate_min_or_max (pattern : str) (min_line max_line num_lines : Z)
    : M unit :=
  if min_line <=? 0 then
    raise (ToolError (msg_line_bounds pattern min_line num_lines))
  else if num_lines <? max_line then
    raise (ToolError (msg_line_bounds pattern max_line num_lines))
  else mret ().

(** [# Validate line numbers]: the four checks that open [str_replace]. *)
Definition validate_line_parameters (kw : kwargs) (num_lines : Z) : M unit :=
  _ ← (if truthy (line_numbers kw) then
         validate_min_or_max (py "line number") (min_list (line_numbers kw))
           (max_list (line_numbers kw)) num_lines
       else mret ());
  _ ← (if truthy (line_range kw) then
         _ ← validate_min_or_max (py "line range") (min_list (line_range kw))
               (max_list (line_range kw)) num_lines;
         se ← unpack2 (line_range kw);
         if se.2 <? se.1 then
           raise (ToolError (msg_start_end (py "line range") (line_range kw)))
         else mret ()
       else mret ());
  _ ← (if truthy (delete_lines kw) then
         validate_min_or_max (py "delete lines") (min_list (delete_lines kw))
           (max_list (delete_lines kw)) num_lines
       else mret ());
  if truthy (delete_range kw) then
    _ ← validate_min_or_max (py "delete range") (min_list (delete_range kw))
          (max_list (delete_range kw)) num_lines;
    se ← unpack2 (delete_range kw);
    if se.2 <? se.1 then
      raise (ToolError (msg_start_end (py "delete range") (delete_range kw)))
    else mret ()
  else mret ().

(** The body shared by the two loops over lines: the substitution on line
    [i], when [i < len(file_content_lines)]. *)
Definition replace_on_line (regex : bool) (old_str new_str : str)
    (file_content_lines : list str) (i : Z) : M (list str) :=
  if i <? Z.of_nat (length file_content_lines) then
    line ← getitem file_content_lines i;
    new_line ← (if regex then lift_re (re_sub old_str new_str line 0 true)
                else mret (replace line old_str new_str));
    setitem file_content_lines i new_line
  else mret file_content_lines.

(** The [while True] loop that collects the line of every place where
    [old_str] is found, the search restarting one character after the last
    find. *)
Fixpoint occurrence_lines_loop (fuel : nat) (file_content old_str : str)
    (start_idx : Z) (line_numbers : list Z) : option (list Z) :=
  match fuel with
  | O => None
  | S fuel' =>
      let idx := find file_content old_str start_idx in
      if idx =? -1 then Some line_numbers
      else
        let line_num := count_in file_content [NL] 0 idx + 1 in
        occurrence_lines_loop fuel' file_content old_str (idx + 1)
          (line_numbers ++ [line_num])
  end.

Definition occurrence_lines (file_content old_str : str) : option (list Z) :=
  occurrence_lines_loop (length file_content + 2) file_content old_str 0 [].

Definition msg_not_found (old_str : str) (path : Path) : str :=
  py "No replacement was performed, old_str `" ++ old_str
    ++ py "` did not appear verbatim in " ++ path ++ py ".".

Definition msg_multiple (old_str : str) (line_numbers : list Z) : str :=
  py "No replacement was performed. Multiple occurrences of old_str `" ++ old_str
    ++ py "` in lines " ++ str_of_list line_numbers
    ++ py ". Please ensure it is unique.".

(** The new text of the file when no line is to be deleted: lines 241-300. *)
Definition replaced_content (path : Path) (file_content old_str new_str : str)
    (file_content_lines : list str) (kw : kwargs) : M str :=
  if negb (line_all kw) then
    if truthy (line_numbers kw) then
      let replace_lines := (λ i, i - 1) <$> line_numbers kw in
      file_content_lines ←
        for_each replace_lines (replace_on_line (regex kw) old_str new_str)
          file_content_lines;
      mret (join [NL] file_content_lines)
    else if truthy (line_range kw) then
      se ← unpack2 (line_range kw);
      file_content_lines ←
        for_each (range (se.1 - 1) se.2) (replace_on_line (regex kw) old_str new_str)
          file_content_lines;
      mret (join [NL] file_content_lines)
    else if regex kw then
      lift_re (re_sub old_str new_str file_content 1 false)
    else
      let occurrences := count file_content old_str in
      if occurrences =? 0 then raise (ToolError (msg_not_found old_str path))
      else if 1 <? occurrences then
        match occurrence_lines file_content old_str with
        | Some line_numbers => raise (ToolError (msg_multiple old_str line_numbers))
        | None => raise (Exn RecursionError_class (py "loop bound exceeded"))
        end
      else mret (replace file_content old_str new_str)
  else if regex kw then
    lift_re (re_sub old_str new_str file_content 0 true)
  else
    let file_content_lines := splitlines file_content in
    let new_file_content_lines :=
      (λ line, replace line old_str new_str) <$> file_content_lines in
    mret (join [NL] new_file_content_lines).

Definition str_replace (path : Path) (old_str : str) (new_str : option str)
    (enable_linting : bool) (kw : kwargs) : M CLIResult :=
  raw ← read_file path;
  let file_content := expandtabs raw in
  let old_str := expandtabs old_str in
  let new_str := match new_str with Some s => expandtabs s | None => [] end in
  let file_content_lines := split file_content [NL] in
  let num_lines := Z.of_nat (length file_content_lines) in
  _ ← validate_line_parameters kw num_lines;
  if truthy (delete_lines kw) then
    let delete_lines := (λ i, i - 1) <$> delete_lines kw in
    let new_file_content_lines :=
      (filter (λ il, il.1 ∉ delete_lines) (enumerate file_content_lines)).*2 in
    let new_file_content := join [NL] new_file_content_lines in
    _ ← write_file path new_file_content;
    _ ← history_append path file_content;
    mret {| output := py "The file " ++ path
                        ++ py " has been edited. Specified lines have been deleted.";
            error := None; prev_exist := true; path := Some path;
            old_content := Some file_content;
            new_content := Some new_file_content |}
  else if truthy (delete_range kw) then
    se ← unpack2 (delete_range kw);
    let new_file_content_lines :=
      (filter (λ il, ¬ (se.1 ≤ il.1 + 1 ≤ se.2)) (enumerate file_content_lines)).*2 in
    let new_file_content := join [NL] new_file_content_lines in
    _ ← write_file path new_file_content;
    _ ← history_append path file_content;
    mret {| output := py "The file " ++ path
                        ++ py " has been edited. The specified line range was deleted.";
            error := None; prev_exist := true; path := Some path;
            old_content := Some file_content;
            new_content := Some new_file_content |}
  else
    new_file_content ←
      replaced_content path file_content old_str new_str file_content_lines kw;
    _ ← write_file path new_file_content;
    _ ← history_append path file_content;
    pieces ← split_checked file_content old_str;
    let replacement_line := count (default [] (head pieces)) [NL] in
    let start_line := Z.max 0 (replacement_line - SNIPPET_CONTEXT_WINDOW) in
    let end_line := replacement_line + SNIPPET_CONTEXT_WINDOW + count new_str [NL] in
    let snippet :=
      join [NL] (slice (split new_file_content [NL]) start_line (end_line + 1)) in
    let success_message :=
      py "The file " ++ path ++ py " has been edited. "
        ++ _make_output snippet (py "a snippet of " ++ path) (start_line + 1) in
    let success_message :=
      if enable_linting then
        success_message ++ [NL] ++ _run_linting file_content new_file_content path ++ [NL]
      else success_message in
    let success_message :=
      success_message
        ++ py "Review the changes and make sure they are as expected. Edit the file again if necessary." in
    mret {| output := success_message; error := None; prev_exist := true;
            path := Some path; old_content := Some file_content;
            new_content := Some new_file_content |}.

Definition view (path : Path) (view_range : list Z) : M CLIResult :=
  is_dir ← path_is_dir path;
  if is_dir : bool then
    if truthy view_range then
      raise (EditorToolParameterInvalidError (py "view_range") (str_of_list view_range)
               (py "The `view_range` parameter is not allowed when `path` points to a directory.")
               None)
    else
      let listing := list_directory path in
      mret {| output := listing.1; error := Some listing.2; path := Some path;
              prev_exist := true; old_content := None; new_content := None |}
  else
    file_content ← read_file path;
    let start_line := 1 in
    if negb (truthy view_range) then
      mret {| output := _make_output file_content path start_line; error := None;
              path := Some path; prev_exist := true;
              old_content := None; new_content := None |}
    else
      match view_range with
      | [start_line; end_line] =>
          let file_content_lines := split file_content [NL] in
          let num_lines := Z.of_nat (length file_content_lines) in
          if (start_line <? 1) || (num_lines <? start_line) then
            raise (EditorToolParameterInvalidError (py "view_range")
                     (str_of_list view_range)
                     (py "Its first element `" ++ str_of_int start_line
                        ++ py "` should be within the range of lines of the file: "
                        ++ str_of_list [1; num_lines] ++ py ".")
                     None)
          else if num_lines <? end_line then
            raise (EditorToolParameterInvalidError (py "view_range")
                     (str_of_list view_range)
                     (py "Its second element `" ++ str_of_int end_line
                        ++ py "` should be smaller than the number of lines in the file: `"
                        ++ str_of_int num_lines ++ py "`.")
                     None)
          else if negb (end_line =? -1) && (end_line <? start_line) then
            raise (EditorToolParameterInvalidError (py "view_range")
                     (str_of_list view_range)
                     (py "Its second element `" ++ str_of_int end_line
                        ++ py "` should be greater than or equal to the first element `"
                        ++ str_of_int start_line ++ py "`.")
                     None)
          else
            let file_content :=
              if end_line =? -1 then
                join [NL] (slice_from file_content_lines (start_line - 1))
              else join [NL] (slice file_content_lines (start_line - 1) end_line) in
            mret {| path := Some path;
                    output := _make_output file_content path start_line;
                    prev_exist := true; error := None;
                    old_content := None; new_content := None |}
      | _ =>
          raise (EditorToolParameterInvalidError (py "view_range")
                   (str_of_list view_range) (py "It should be a list of two integers.")
                   None)
      end.

Definition insert (path : Path) (insert_line : Z) (new_str : str)
    (enable_linting : bool) : M CLIResult :=
  file_text ←
    try_except (read_file path) (λ e,
      raise (ToolError (py "Ran into " ++ message e
                          ++ py " while trying to read " ++ path)));
  let file_text := expandtabs file_text in
  let new_str := expandtabs new_str in
  let file_text_lines := split file_text [NL] in
  let num_lines := Z.of_nat (length file_text_lines) in
  if (insert_line <? 0) || (num_lines <? insert_line) then
    raise (EditorToolParameterInvalidError (py "insert_line") (str_of_int insert_line)
             (py "It should be within the range of lines of the file: "
                ++ str_of_list [0; num_lines])
             None)
  else
    let new_str_lines := split new_str [NL] in
    let new_file_text_lines :=
      slice_to file_text_lines insert_line
        ++ new_str_lines
        ++ slice_from file_text_lines insert_line in
    let snippet_lines :=
      slice file_text_lines (Z.max 0 (insert_line - SNIPPET_CONTEXT_WINDOW)) insert_line
        ++ new_str_lines
        ++ slice file_text_lines insert_line
             (Z.min num_lines (insert_line + SNIPPET_CONTEXT_WINDOW)) in
    let new_file_text := join [NL] new_file_text_lines in
    let snippet := join [NL] snippet_lines in
    _ ← write_file path new_file_text;
    _ ← history_append path file_text;
    let success_message :=
      py "The file " ++ path ++ py " has been edited. "
        ++ _make_output snippet (py "a snippet of the edited file")
             (Z.max 1 (insert_line - SNIPPET_CONTEXT_WINDOW + 1)) in
    let success_message :=
      if enable_linting then
        success_message ++ [NL] ++ _run_linting file_text new_file_text path ++ [NL]
      else success_message in
    let success_message :=
      success_message
        ++ py "Review the changes and make sure they are as expected (correct indentation, no duplicate lines, etc). Edit the file again if necessary." in
    mret {| output := success_message; prev_exist := true; path := Some path;
            error := None; old_content := Some file_text;
            new_content := Some new_file_text |}.

(** [Path.cwd() / path] for a relative [path]. *)
Definition suggested (path : Path) : Path :=
  if bool_decide (cwd = py "/") then cwd ++ path else cwd ++ py "/" ++ path.

Definition validate_path (command : Command) (path : Path) : M unit :=
  _ ← (if negb (is_absolute path) then
         raise (EditorToolParameterInvalidError (py "path") path
                  (py "The path should be an absolute path, starting with `/`. Maybe you meant "
                     ++ suggested path ++ py "?")
                  None)
       else mret ());
  exist ← path_exists path;
  _ ← (if bool_decide (command = create_cmd) && exist then
         raise (EditorToolParameterInvalidError (py "path") path
                  (py "File already exists at: " ++ path
                     ++ py ". Cannot overwrite files using command `create`.")
                  None)
       else mret ());
  _ ← (if negb (bool_decide (command = create_cmd)) && negb exist then
         raise (EditorToolParameterInvalidError (py "path") path
                  (py "The path " ++ path
                     ++ py " does not exist. Please provide a valid path.")
                  None)
       else mret ());
  is_dir ← path_is_dir path;
  if negb (bool_decide (command = view_cmd)) && is_dir then
    raise (EditorToolParameterInvalidError (py "path") path
             (py "The path " ++ path
                ++ py " is a directory and only the `view` command can be used on directories.")
             None)
  else mret ().

Definition msg_no_history (path : Path) : str :=
  py "No edit history found for " ++ path ++ py ".".

Definition undo_edit (path : Path) : M CLIResult :=
  history ← history_get path;
  if negb (truthy history) then raise (ToolError (msg_no_history path))
  else
    raw ← read_file path;
    let current_text := expandtabs raw in
    old_text ← history_pop path;
    _ ← write_file path old_text;
    mret {| output := py "Last edit to " ++ path ++ py " undone successfully. "
                        ++ _make_output old_text path 1;
            path := Some path; prev_exist := true; error := None;
            old_content := Some current_text; new_content := Some old_text |}.

(** The arguments of a call of the editor. *)
Record request := {
  command : Command;
  req_path : Path;
  file_text : option str;
  view_range : list Z;
  old_str : option str;
  new_str : option str;
  insert_line : option Z;
  enable_linting : bool;
  more : kwargs
}.

Definition __call__ (r : request) : M CLIResult :=
  let _path := req_path r in
  _ ← validate_path (command r) _path;
  match command r with
  | view_cmd => view _path (view_range r)
  | create_cmd =>
      match file_text r with
      | None =>
          raise (EditorToolParameterMissingError (command_name (command r))
                   (py "file_text"))
      | Some file_text =>
          _ ← write_file _path file_text;
          _ ← history_append _path file_text;
          mret {| path := Some _path; new_content := Some file_text;
                  prev_exist := false; error := None; old_content := None;
                  output := py "File created successfully at: " ++ _path |}
      end
  | str_replace_cmd =>
      match old_str r with
      | None =>
          raise (EditorToolParameterMissingError (command_name (command r))
                   (py "old_str"))
      | Some old_str =>
          if bool_decide (new_str r = Some old_str) then
            raise (EditorToolParameterInvalidError (py "new_str") old_str
                     (py "No replacement was performed. `new_str` and `old_str` must be different.")
                     None)
          else str_replace _path old_str (new_str r) (enable_linting r) (more r)
      end
  | insert_cmd =>
      match insert_line r with
      | None =>
          raise (EditorToolParameterMissingError (command_name (command r))
                   (py "insert_line"))
      | Some insert_line =>
          match new_str r with
          | None =>
              raise (EditorToolParameterMissingError (command_name (command r))
                       (py "new_str"))
          | Some new_str => insert _path insert_line new_str (enable_linting r)
          end
      end
  | undo_edit_cmd => undo_edit _path
  | other_cmd name =>
      raise (ToolError (py "Unrecognized command " ++ name
                          ++ py ". The allowed commands for the oh_editor tool are: "
                          ++ py "view, create, str_replace, insert, undo_edit"))
  end.

End OHEditor.

(** ** A concrete environment

    [re.sub] on the patterns made of ordinary characters and [.], with a
    replacement free of backslashes: the leftmost non-overlapping matches
    are replaced, at most [count] of them when [count] is positive, and
    [.] matches a line feed only under [re.DOTALL]. *)

Module MiniRe.

Definition special (c : char) : bool :=
  bool_decide (c ∈ py "\^$*+?{}[]|()").

Definition in_fragment (pattern repl : str) : bool :=
  forallb (λ c, negb (special c)) pattern
    && forallb (λ c, negb (c =? 92)%N) repl.

(** Does the pattern match at the start of [s]? *)
Fixpoint match_here (dotall : bool) (pattern s : str) : bool :=
  match pattern, s with
  | [], _ => true
  | _ :: _, [] => false
  | p :: pattern', c :: s' =>
      (if (p =? 46)%N then dotall || negb (c =? NL)%N else (c =? p)%N)
        && match_here dotall pattern' s'
  end.

(** [left] is the number of replacements still allowed, [None] for no
    limit. *)
Definition allowed (left : option nat) : bool :=
  match left with Some O => false | _ => true end.
Definition spend (left : option nat) : option nat := pred <$> left.

Fixpoint sub_scan (dotall : bool) (pattern repl : str) (skip : nat)
    (left : option nat) (s : str) : str :=
  match s with
  | [] => []
  | c :: t =>
      match skip with
      | S k => sub_scan dotall pattern repl k left t
      | O =>
          if allowed left && match_here dotall pattern s then
            repl ++ sub_scan dotall pattern repl (length pattern - 1) (spend left) t
          else c :: sub_scan dotall pattern repl 0 left t
      end
  end.

(** The empty pattern matches before every character and at the end. *)
Fixpoint sub_empty (repl : str) (left : option nat) (s : str) : str :=
  if allowed left then
    match s with
    | [] => repl
    | c :: t => repl ++ c :: sub_empty repl (spend left) t
    end
  else s.

Definition sub (pattern repl string : str) (count : Z) (dotall : bool) : str + str :=
  if in_fragment pattern repl then
    let left := if count <=? 0 then None else Some (Z.to_nat count) in
    inr match pattern with
        | [] => sub_empty repl left string
        | _ :: _ => sub_scan dotall pattern repl 0 left string
        end
  else inl (py "pattern outside the modelled fragment").

End MiniRe.

(** The fragment of [re], the context window of the upstream [config.py],
    no truncation, a linter without findings, an empty listing. *)
Definition plain_env : Env :=
  {| re_sub := MiniRe.sub;
     SNIPPET_CONTEXT_WINDOW := 4;
     maybe_truncate := λ s, s;
     lint_file_diff := λ _ _ _, [];
     list_directory := λ _, ([], []);
     cwd := py "/" |}.

(** A text from its lines, and a disk holding one file. *)
Definition text (lines : list str) : str := join [NL] lines.

Definition one_file (p : Path) (content : str) : world :=
  {| fs := {[ p := File content ]}; readonly := ∅;
     _file_history := ∅; io_log := [] |}.

Definition empty_disk : world :=
  {| fs := ∅; readonly := ∅; _file_history := ∅; io_log := [] |}.

Definition str_replace_request (p : Path) (old_str : str) (new_str : option str)
    (kw : kwargs) : request :=
  {| command := str_replace_cmd; req_path := p; file_text := None;
     view_range := []; old_str := Some old_str; new_str := new_str;
     insert_line := None; enable_linting := false; more := kw |}.

Definition create_request (p : Path) (file_text : str) : request :=
  {| command := create_cmd; req_path := p; file_text := Some file_text;
     view_range := []; old_str := None; new_str := None;
     insert_line := None; enable_linting := false; more := no_kwargs |}.

Definition undo_request (p : Path) : request :=
  {| command := undo_edit_cmd; req_path := p; file_text := None;
     view_range := []; old_str := None; new_str := None;
     insert_line := None; enable_linting := false; more := no_kwargs |}.

(** ** Notions used to state the properties *)

(** Two worlds with the same files, permissions and history: only the log
    of attempted I/O may differ. *)
Definition same_store (w w' : world) : Prop :=
  fs w' = fs w ∧ readonly w' = readonly w ∧ _file_history w' = _file_history w.

(** A computation that never touches the world. *)
Definition pure {A} (m : M A) : Prop := ∀ w, (m w).2 = w.

(** Every index of a list lies in [1..n]; a range is in order; a range is
    absent or made of two integers. *)
Definition in_bounds (n : Z) (l : list Z) : Prop := ∀ i, i ∈ l → 1 ≤ i ≤ n.
Definition ordered (l : list Z) : Prop := ∀ s e, l = [s; e] → s ≤ e.
Definition range_shaped (l : list Z) : Prop := l = [] ∨ ∃ s e, l = [s; e].

(** The line parameters of a call are all valid for a file of [n] lines. *)
Definition valid_lines (n : Z) (kw : kwargs) : Prop :=
  in_bounds n (line_numbers kw)
  ∧ (in_bounds n (line_range kw) ∧ ordered (line_range kw))
  ∧ in_bounds n (delete_lines kw)
  ∧ (in_bounds n (delete_range kw) ∧ ordered (delete_range kw)).

(** The message [m] names an index of [l] outside [1..n] together with the
    valid range; it names a range whose start is after its end. *)
Definition bound_violation (n : Z) (pattern : str) (l : list Z) (m : str) : Prop :=
  ∃ v, v ∈ l ∧ ¬ (1 ≤ v ≤ n) ∧ m = msg_line_bounds pattern v n.
Definition order_violation (pattern : str) (l : list Z) (m : str) : Prop :=
  ∃ s e, l = [s; e] ∧ e < s ∧ m = msg_start_end pattern l.

Definition names_violation (n : Z) (kw : kwargs) (m : str) : Prop :=
  bound_violation n (py "line number") (line_numbers kw) m
  ∨ (bound_violation n (py "line range") (line_range kw) m
     ∨ order_violation (py "line range") (line_range kw) m)
  ∨ bound_violation n (py "delete lines") (delete_lines kw) m
  ∨ (bound_violation n (py "delete range") (delete_range kw) m
     ∨ order_violation (py "delete range") (delete_range kw) m).

(** The world after a successful [write_text]. *)
Definition written (p : Path) (text : str) (w : world) : world :=
  World (<[p := File text]> (fs w)) (readonly w) (_file_history w)
    (io_log w ++ [WriteText p text]).

(** The world after [str_replace] or [insert] has read the file, written
    [new_text] and pushed [snapshot]. *)
Definition committed (p : Path) (snapshot new_text : str) (w : world) : world :=
  World (<[p := File new_text]> (fs w)) (readonly w)
    (<[p := history_of w p ++ [snapshot]]> (_file_history w))
    (io_log w ++ [ReadText p; WriteText p new_text]).

(** The text [str_replace] is about to write, whichever branch computes
    it. *)
Definition resolved_text {env : Env} (path : Path) (file_content old_str new_str : str)
    (kw : kwargs) : M str :=
  let file_content_lines := split file_content [NL] in
  if truthy (delete_lines kw) then
    let delete_lines := (λ i, i - 1) <$> delete_lines kw in
    mret (join [NL]
            (filter (λ il, il.1 ∉ delete_lines) (enumerate file_content_lines)).*2)
  else if truthy (delete_range kw) then
    se ← unpack2 (delete_range kw);
    mret (join [NL]
            (filter (λ il, ¬ (se.1 ≤ il.1 + 1 ≤ se.2))
               (enumerate file_content_lines)).*2)
  else replaced_content path file_content old_str new_str file_content_lines kw.

(** The substitution on one line, literal or by [re.sub] under
    [re.DOTALL], and its [n]-fold repetition. *)
Definition line_sub {env : Env} (regex : bool) (old_str new_str line : str) : str + str :=
  if regex then re_sub old_str new_str line 0 true
  else inr (replace line old_str new_str).

Fixpoint iter_sub (n : nat) (f : str → str + str) (x : str) : str + str :=
  match n with
  | O => inr x
  | S k => match f x with inl e => inl e | inr y => iter_sub k f y end
  end.

(** The 0-indexed lines a call with [line_numbers] or [line_range] loops
    over. *)
Definition selected_lines (kw : kwargs) : list Z :=
  if truthy (line_numbers kw) then (λ i, i - 1) <$> line_numbers kw
  else match line_range kw with
       | [s; e] => range (s - 1) e
       | _ => []
       end.

(** How often a line number is named. *)
Definition mentions (l : list Z) (i : Z) : nat := length (filter (λ k, k = i) l).

(** A command wrote [new_text] at [p] and pushed exactly one entry, on the
    stack of [p]. *)
Definition pushed (p : Path) (entry new_text : str) (w w' : world) : Prop :=
  fs w' = <[p := File new_text]> (fs w)
  ∧ readonly w' = readonly w
  ∧ history_of w' p = history_of w p ++ [entry]
  ∧ ∀ q, q ≠ p → history_of w' q = history_of w q.

(** What [split] raises on the empty [old_str]; in [str_replace] this
    happens after the file was written. *)
Definition empty_separator : exn := Exn ValueError_class (py "empty separator").

(** A run returned; a run raised [e]. *)
Definition returns {A} (out : result A * world) : Prop := ∃ a, out.1 = inr a.
Definition raises {A} (out : result A * world) (e : exn) : Prop := out.1 = inl e.

(** The commands that change a file. *)
Definition mutating (c : Command) : bool :=
  match c with
  | create_cmd | str_replace_cmd | insert_cmd => true
  | _ => false
  end.

(** The world after [self._file_history[path]] was read. *)
Definition touched (p : Path) (w : world) : world :=
  World (fs w) (readonly w) (<[p := history_of w p]> (_file_history w)) (io_log w).

(** The file of the tests, two lines long. *)
Definition test_txt : Path := py "/tmp/test.txt".
Definition test_world : world :=
  one_file test_txt
    (text [py "This is a test file."; py "This file is for testing purposes."]).

(** A file of four lines, and a path for the small examples. *)
Definition four_lines : str :=
  text [py "This is a test file."; py "This is a test line.";
        py "This is another test line."; py "This is a test file."].
Definition four_lines_world : world := one_file test_txt four_lines.
Definition a_txt : Path := py "/a.txt".

(** Keyword arguments with one selector only. *)
Definition line_numbers_only (l : list Z) : kwargs :=
  {| line_numbers := l; line_range := []; line_all := false;
     delete_lines := []; delete_range := []; regex := false |}.
Definition delete_lines_only (l : list Z) : kwargs :=
  {| line_numbers := []; line_range := []; line_all := false;
     delete_lines := l; delete_range := []; regex := false |}.
Definition line_all_only (regex : bool) : kwargs :=
  {| line_numbers := []; line_range := []; line_all := true;
     delete_lines := []; delete_range := []; regex := regex |}.
Definition regex_only : kwargs :=
  {| line_numbers := []; line_range := []; line_all := false;
     delete_lines := []; delete_range := []; regex := true |}.

(** The runs the examples below look at. *)
Definition run_multiline_line_all (content : str) : result CLIResult * world :=
  str_replace (env := plain_env) a_txt (py "x" ++ [NL] ++ py "y") (Some (py "z")) false
    (line_all_only false) (one_file a_txt content).
Definition run_dot_pattern (kw : kwargs) : result CLIResult * world :=
  str_replace (env := plain_env) a_txt (py "a.b") (Some (py "X")) false kw
    (one_file a_txt (py "a" ++ [NL] ++ py "b")).
Definition run_line_numbers_1_5 : result CLIResult * world :=
  str_replace (env := plain_env) test_txt (py "test") (Some (py "sample")) false
    (line_numbers_only [1; 5]) test_world.
Definition run_matchless_delete : result CLIResult * world :=
  str_replace (env := plain_env) a_txt (py "zzz") (Some (py "y")) false
    (delete_lines_only [1]) (one_file a_txt (py "a" ++ [NL] ++ py "b")).
Definition run_create : result CLIResult * world :=
  __call__ (env := plain_env) (create_request (py "/f.txt") (py "hello")) empty_disk.
Definition run_create_undo : result CLIResult * world :=
  __call__ (env := plain_env) (undo_request (py "/f.txt")) run_create.2.
Definition tab_world : world := one_file a_txt ([TAB] ++ py "x").
Definition run_tab_replace : result CLIResult * world :=
  __call__ (env := plain_env)
    (str_replace_request a_txt (py "x") (Some (py "y")) no_kwargs) tab_world.
Definition run_tab_undo : result CLIResult * world :=
  __call__ (env := plain_env) (undo_request a_txt) run_tab_replace.2.

(** One of the selectors other than the first occurrence is given. *)
Definition selector_active (kw : kwargs) : bool :=
  truthy (line_numbers kw) || truthy (line_range kw) || line_all kw
    || truthy (delete_lines kw) || truthy (delete_range kw).

(** [n] calls of [undo_edit] in a row, each of which has to succeed. *)
Fixpoint undo_times {env : Env} (n : nat) (p : Path) : M unit :=
  match n with
  | O => mret ()
  | S k => _ ← undo_edit p; undo_times k p
  end.

(** ** Further requests and runs *)


Definition insert_request (p : Path) (insert_line : Z) (new_str : str) : request :=
  {| command := insert_cmd; req_path := p; file_text := None;
     view_range := []; old_str := None; new_str := Some new_str;
     insert_line := Some insert_line; enable_linting := false;
     more := no_kwargs |}.

Definition line_range_only (l : list Z) : kwargs :=
  {| line_numbers := []; line_range := l; line_all := false;
     delete_lines := []; delete_range := []; regex := false |}.


(** A session: the calls of a list, one after the other, each of which
    has to return. *)
Fixpoint call_all {env : Env} (rs : list request) : M unit :=
  match rs with
  | [] => mret ()
  | r :: rs' => _ ← __call__ r; call_all rs'
  end.



Definition two_edits : list request :=
  [str_replace_request test_txt (py "another") (Some (py "one more")) no_kwargs;
   insert_request test_txt 1 (py "Inserted")].

(** ** linter/impl/treesitter.py: the walk over the syntax tree *)

(** A node of the tree the parser returns, with the attributes the linter
    reads: [type], [is_missing], [start_point] as (row, column), both
    counted from 0, and [children]. *)
#[warnings="-register-all"]
Inductive Node :=
  mk_Node (type : str) (is_missing : bool) (start_point : Z * Z)
    (children : list Node).

Definition node_type (n : Node) : str := match n with mk_Node t _ _ _ => t end.
Definition node_is_missing (n : Node) : bool :=
  match n with mk_Node _ m _ _ => m end.
Definition node_start_point (n : Node) : Z * Z :=
  match n with mk_Node _ _ sp _ => sp end.
Definition node_children (n : Node) : list Node :=
  match n with mk_Node _ _ _ c => c end.

(** [def traverse_tree(node)] *)
Fixpoint traverse_tree (node : Node) : list (Z * Z * str) :=
  match node with
  | mk_Node type is_missing start_point children =>
      let errors :=
        if bool_decide (type = py "ERROR") || is_missing then
          let line_no := start_point.1 + 1 in
          let col_no := start_point.2 + 1 in
          let error_type :=
            if is_missing then py "Missing node" else py "Syntax error" in
          [(line_no, col_no, error_type)]
        else [] in
      foldl (λ errors child, errors ++ traverse_tree child) errors children
  end.

(** [s.lower()] on the letters [A]..[Z]; the linter applies it to the two
    messages of [traverse_tree] only. *)
Definition lower (s : str) : str :=
  (λ c, if (65 <=? c)%N && (c <=? 90)%N then (c + 32)%N else c) <$> s.

(** [sub in s] *)
Definition contains (s sub : str) : bool :=
  match find_at sub s 0 with Some _ => true | None => false end.

(** The end of [TreesitterBasicLinter.lint], from the parsed tree on: the
    findings as pairs of the file and the line, column and message. *)
Definition lint_tree (file_path : str) (root_node : Node) : list (str * LintResult) :=
  let errors := traverse_tree root_node in
  if negb (truthy errors) then []
  else
    (λ e, (file_path,
           {| lint_line := e.1.1; lint_column := e.1.2;
              lint_message :=
                if contains (lower e.2) (py "error") then py "Syntax error"
                else e.2 |}))
      <$> errors.

(** The nodes of a tree in document order, and the nodes the linter
    reports. *)
Fixpoint preorder (node : Node) : list Node :=
  match node with
  | mk_Node _ _ _ children =>
      node :: foldr (λ child rest, preorder child ++ rest) [] children
  end.

Definition reported (n : Node) : bool :=
  bool_decide (node_type n = py "ERROR") || node_is_missing n.

(** What [traverse_tree] records for a node it reports. *)
Definition report (n : Node) : Z * Z * str :=
  ((node_start_point n).1 + 1, (node_start_point n).2 + 1,
   if node_is_missing n then py "Missing node" else py "Syntax error").

(** * Properties *)

(** ** The monad and the primitive operations *)


Lemma same_store_trans w1 w2 w3 :
  same_store w1 w2 → same_store w2 w3 → same_store w1 w3.
Proof. unfold same_store. intros (?&?&?) (?&?&?). repeat split; congruence. Qed.

Lemma same_store_log ev w : same_store w (log_io ev w).
Proof. done. Qed.

Lemma same_store_history w w' q : same_store w w' → history_of w' q = history_of w q.
Proof. intros (_&_&Hh). unfold history_of. by rewrite Hh. Qed.

Lemma pure_ret {A} (a : A) : pure (mret a : M A).
Proof. done. Qed.
Lemma pure_raise {A} e : pure (raise e : M A).
Proof. done. Qed.
Lemma pure_lift_re r : pure (lift_re r).
Proof. by destruct r. Qed.
Lemma pure_bind {A B} (m : M A) (k : A → M B) :
  pure m → (∀ a, pure (k a)) → pure (m ≫= k).
Proof.
  intros Hm Hk w. unfold mbind, M_bind, bind. specialize (Hm w).
  destruct (m w) as [[e|a] w1]; simpl in *; subst; [done | apply Hk].
Qed.
Lemma pure_if {A} (b : bool) (m1 m2 : M A) : pure m1 → pure m2 → pure (if b then m1 else m2).
Proof. by destruct b. Qed.

Lemma pure_getitem {A} (l : list A) i : pure (getitem l i).
Proof. unfold getitem. destruct (_ ≫= _); [apply pure_ret | apply pure_raise]. Qed.
Lemma pure_setitem {A} (l : list A) i x : pure (setitem l i x).
Proof. unfold setitem. destruct (index_of _ _); [apply pure_ret | apply pure_raise]. Qed.
Lemma pure_unpack2 l : pure (unpack2 l).
Proof. by destruct l as [|a [|b [|c r]]]. Qed.
Lemma pure_for_each {A B} (l : list A) (body : B → A → M B) acc :
  (∀ acc x, pure (body acc x)) → pure (for_each l body acc).
Proof.
  intros Hb. revert acc. induction l as [|x r IH]; intros acc; simpl.
  - apply pure_ret.
  - apply pure_bind; [apply Hb | intros; apply IH].
Qed.

Create HintDb pure.
#[local] Hint Resolve pure_ret pure_raise pure_lift_re pure_getitem pure_setitem
  pure_unpack2 : pure.

(** Running the first step of a sequence. *)
Lemma bind_inr {A B} (m : M A) (k : A → M B) w a w1 :
  m w = (inr a, w1) → (m ≫= k) w = k a w1.
Proof. intros E. unfold mbind, M_bind, bind. by rewrite E. Qed.

Lemma bind_inl {A B} (m : M A) (k : A → M B) w e w1 :
  m w = (inl e, w1) → (m ≫= k) w = (inl e, w1).
Proof. intros E. unfold mbind, M_bind, bind. by rewrite E. Qed.

Section Primitives.
Context {env : Env}.


Lemma read_file_ok w p raw :
  content_of w p = Some raw → read_file p w = (inr raw, log_io (ReadText p) w).
Proof.
  unfold content_of, read_file, try_except, read_text.
  destruct (fs w !! p) as [[c|]|]; [|done..]. by intros [= ->].
Qed.

Lemma read_file_inv w p r w1 :
  read_file p w = (r, w1) →
  w1 = log_io (ReadText p) w ∧
  match r with
  | inr raw => content_of w p = Some raw
  | inl e => content_of w p = None ∧ is_ToolError e = true
  end.
Proof.
  unfold content_of, read_file, try_except, read_text, raise.
  destruct (fs w !! p) as [[c|]|]; intros [= <- <-]; done.
Qed.

Lemma write_file_ok w p text :
  p ∉ readonly w → fs w !! p ≠ Some Dir →
  write_file p text w = (inr (), written p text w).
Proof.
  intros Hro Hdir. unfold write_file, try_except, write_text.
  rewrite bool_decide_eq_false_2 by done.
  destruct (fs w !! p) as [[c|]|]; done.
Qed.

Lemma write_file_inv w p text r w1 :
  write_file p text w = (r, w1) →
  match r with
  | inr _ => w1 = written p text w ∧ p ∉ readonly w
  | inl e => w1 = log_io (WriteText p text) w
             ∧ ∃ m, e = ToolError (py "Ran into " ++ m)
  end.
Proof.
  unfold write_file, try_except, write_text, raise.
  case_bool_decide; [intros [= <- <-]; eauto|].
  destruct (fs w !! p) as [[c|]|]; intros [= <- <-]; eauto.
Qed.

Lemma history_append_run w p text :
  history_append p text w
  = (inr (), World (fs w) (readonly w)
               (<[p := history_of w p ++ [text]]> (_file_history w)) (io_log w)).
Proof.
  unfold history_append, history_get, history_set, history_of, mbind, M_bind, bind.
  destruct (_file_history w !! p); simpl; [done|].
  by rewrite insert_insert_eq.
Qed.

Lemma history_of_insert fs0 ro h lg p l q :
  history_of (World fs0 ro (<[p := l]> h) lg) q
  = if decide (p = q) then l else history_of (World fs0 ro h lg) q.
Proof. unfold history_of; simpl. rewrite lookup_insert. by case_decide. Qed.

End Primitives.

(** ** Slices, lines and joins *)

Lemma slice_to_take {A} (l : list A) (i : Z) :
  0 ≤ i ≤ Z.of_nat (length l) → slice_to l i = take (Z.to_nat i) l.
Proof.
  intros Hi. unfold slice_to, slice, clamp_index.
  replace (0 <? 0) with false by done.
  rewrite (proj2 (Z.ltb_ge i 0)) by lia.
  rewrite !Z.min_l by lia. simpl. f_equal. lia.
Qed.

Lemma slice_from_drop {A} (l : list A) (i : Z) :
  0 ≤ i ≤ Z.of_nat (length l) → slice_from l i = drop (Z.to_nat i) l.
Proof.
  intros Hi. unfold slice_from, slice, clamp_index.
  rewrite (proj2 (Z.ltb_ge i 0)) by lia.
  rewrite (proj2 (Z.ltb_ge (Z.of_nat (length l)) 0)) by lia.
  rewrite !Z.min_l by lia.
  apply take_ge. rewrite length_drop. lia.
Qed.

Lemma split_scan_nonempty sep skip s : split_scan sep skip s ≠ [].
Proof.
  revert skip. induction s as [|c t IH]; intros skip; cbn [split_scan]; [done|].
  destruct skip; [|apply IH].
  destruct (startswith (c :: t) sep); [done|]. by destruct (split_scan sep 0 t).
Qed.

(** Splitting at line feeds, then joining with line feeds, gives the text
    back. *)
Lemma split_nl_cons c t :
  split (c :: t) [NL]
  = if (c =? NL)%N then [] :: split t [NL]
    else match split t [NL] with [] => [[c]] | h :: r => (c :: h) :: r end.
Proof.
  unfold split; simpl. destruct (c =? NL)%N; simpl; [|done].
  by destruct t.
Qed.

Lemma join_split_nl s : join [NL] (split s [NL]) = s.
Proof.
  induction s as [|c t IH]; [done|].
  rewrite split_nl_cons.
  pose proof (split_scan_nonempty [NL] 0 t) as Hne. fold (split t [NL]) in Hne.
  destruct (c =? NL)%N eqn:Ec.
  - apply N.eqb_eq in Ec as ->. simpl.
    destruct (split t [NL]) as [|h r] eqn:E; [done|]. by rewrite IH.
  - destruct (split t [NL]) as [|h r] eqn:E; [done|].
    simpl in *. destruct r; simpl in *; by rewrite <- IH.
Qed.

(** Every element of a joined list is a contiguous part of the result. *)
Lemma join_elem sep (l : list str) x :
  x ∈ l → ∃ pre post, join sep l = pre ++ x ++ post.
Proof.
  induction l as [|a r IH]; [by intros ?%elem_of_nil|].
  intros [->|Hin]%elem_of_cons.
  - destruct r as [|b r]; [exists [], []; by rewrite app_nil_r|].
    by exists [], (sep ++ join sep (b :: r)).
  - destruct (IH Hin) as (pre & post & E).
    destruct r as [|b r]; [by apply elem_of_nil in Hin|].
    exists (a ++ sep ++ pre), post.
    change (join sep (a :: b :: r)) with (a ++ sep ++ join sep (b :: r)).
    rewrite E. by rewrite <- !app_assoc.
Qed.

(** ** insert *)

Section Insert.
Context {env : Env}.

(** The run of [insert] on a readable file, as one equation per case. *)
Lemma insert_run w p raw new_str line lint :
  content_of w p = Some raw →
  let lines := split (expandtabs raw) [NL] in
  let num_lines := Z.of_nat (length lines) in
  let w1 := log_io (ReadText p) w in
  if (line <? 0) || (num_lines <? line) then
    ∃ e, insert p line new_str lint w = (inl e, w1)
         ∧ exn_class e = EditorToolParameterInvalidError_class
  else
    p ∉ readonly w →
    ∃ r, insert p line new_str lint w
         = (inr r,
            World (<[p := File (join [NL]
                                  (take (Z.to_nat line) lines
                                     ++ split (expandtabs new_str) [NL]
                                     ++ drop (Z.to_nat line) lines))]> (fs w))
              (readonly w)
              (<[p := history_of w p ++ [expandtabs raw]]> (_file_history w))
              (io_log w ++ [ReadText p; WriteText p
                              (join [NL]
                                 (take (Z.to_nat line) lines
                                    ++ split (expandtabs new_str) [NL]
                                    ++ drop (Z.to_nat line) lines))])).
Proof.
  intros Hc lines num_lines w1.
  assert (Hrd : try_except (read_file p) (λ e,
      raise (ToolError (py "Ran into " ++ message e
                          ++ py " while trying to read " ++ p))) w = (inr raw, w1)).
  { unfold try_except. by rewrite (read_file_ok _ _ _ Hc). }
  unfold insert. rewrite (bind_inr _ _ _ _ _ Hrd).
  fold lines. fold num_lines.
  destruct ((line <? 0) || (num_lines <? line)) eqn:Eb.
  - eexists. split; [reflexivity | done].
  - intros Hro.
    apply orb_false_iff in Eb as [E1%Z.ltb_ge E2%Z.ltb_ge].
    rewrite slice_to_take, slice_from_drop by (fold num_lines; lia).
    assert (Hnd : fs w1 !! p ≠ Some Dir).
    { unfold content_of in Hc. simpl. by destruct (fs w !! p) as [[]|]. }
    erewrite bind_inr; [|by apply write_file_ok].
    erewrite bind_inr; [|by apply history_append_run].
    eexists. apply (f_equal2 pair); [reflexivity|].
    unfold written, history_of, w1, log_io; cbn [fs readonly _file_history io_log].
    by rewrite <- app_assoc.
Qed.

(** C7. For a file of [num_lines] lines (tabs expanded, split at line
    feeds) [insert] accepts exactly the points [0..num_lines]: inside the
    range, on a writable file, it succeeds and the new text, split at line
    feeds, stands as whole lines between the first [line] lines and the
    rest, which prepends at [0] and appends at [num_lines]; outside the
    range, [num_lines + 1] included, it raises
    [EditorToolParameterInvalidError] and leaves files and history as they
    were. *)
Theorem insert_boundaries w p raw new_str line lint :
  content_of w p = Some raw →
  let lines := split (expandtabs raw) [NL] in
  let new_lines := split (expandtabs new_str) [NL] in
  let num_lines := Z.of_nat (length lines) in
  (0 ≤ line ≤ num_lines → p ∉ readonly w →
     ∃ r w', insert p line new_str lint w = (inr r, w')
       ∧ content_of w' p
         = Some (join [NL] (take (Z.to_nat line) lines ++ new_lines
                              ++ drop (Z.to_nat line) lines))
       ∧ (line = 0 → content_of w' p = Some (join [NL] (new_lines ++ lines)))
       ∧ (line = num_lines → content_of w' p = Some (join [NL] (lines ++ new_lines))))
  ∧ (¬ (0 ≤ line ≤ num_lines) →
     ∃ e w', insert p line new_str lint w = (inl e, w')
       ∧ exn_class e = EditorToolParameterInvalidError_class
       ∧ fs w' = fs w ∧ ∀ q, history_of w' q = history_of w q)
  ∧ ∃ e w', insert p (num_lines + 1) new_str lint w = (inl e, w')
       ∧ exn_class e = EditorToolParameterInvalidError_class.
Proof.
  intros Hc lines new_lines num_lines.
  split; [|split].
  - intros Hin Hro.
    pose proof (insert_run w p raw new_str line lint Hc) as Hrun. simpl in Hrun.
    fold lines num_lines in Hrun.
    rewrite (proj2 (orb_false_iff _ _)) in Hrun
      by (split; apply Z.ltb_ge; lia).
    destruct (Hrun Hro) as [r Hr].
    eexists r, _. split; [exact Hr|].
    assert (Hcont : ∀ x h lg, content_of (World (<[p := File x]> (fs w)) (readonly w) h lg) p
                     = Some x).
    { intros. unfold content_of; simpl. by rewrite lookup_insert_eq. }
    rewrite Hcont. fold new_lines. split; [done|]. split; intros ->.
    + done.
    + unfold num_lines. rewrite Nat2Z.id, take_ge, drop_ge, app_nil_r by lia. done.
  - intros Hout.
    pose proof (insert_run w p raw new_str line lint Hc) as Hrun. simpl in Hrun.
    fold lines num_lines in Hrun.
    assert ((line <? 0) || (num_lines <? line) = true) as Eb.
    { apply orb_true_iff. destruct (Z.ltb_spec line 0); [by left|].
      right. apply Z.ltb_lt. lia. }
    rewrite Eb in Hrun. destruct Hrun as (e & Hr & Hcl).
    exists e, (log_io (ReadText p) w). done.
  - pose proof (insert_run w p raw new_str (num_lines + 1) lint Hc) as Hrun.
    simpl in Hrun. fold lines num_lines in Hrun.
    assert ((num_lines + 1 <? 0) || (num_lines <? num_lines + 1) = true) as Eb.
    { apply orb_true_iff. right. apply Z.ltb_lt. lia. }
    rewrite Eb in Hrun. destruct Hrun as (e & Hr & Hcl). eauto.
Qed.

End Insert.


Lemma insert_boundaries_witness :
  content_of test_world test_txt
    = Some (text [py "This is a test file."; py "This file is for testing purposes."])
  ∧ (∃ r w', insert (env := plain_env) test_txt 0 (py "new") false test_world = (inr r, w')
       ∧ content_of w' test_txt
         = Some (text [py "new"; py "This is a test file.";
                       py "This file is for testing purposes."]))
  ∧ (∃ r w', insert (env := plain_env) test_txt 2 (py "new") false test_world = (inr r, w')
       ∧ content_of w' test_txt
         = Some (text [py "This is a test file.";
                       py "This file is for testing purposes."; py "new"]))
  ∧ ∃ e w', insert (env := plain_env) test_txt 3 (py "new") false test_world = (inl e, w')
       ∧ exn_class e = EditorToolParameterInvalidError_class.
Proof.
  split; [reflexivity|].
  split; [|split].
  - destruct (insert_boundaries (env := plain_env) test_world test_txt _ (py "new") 0 false
                eq_refl) as [Hok _].
    destruct Hok as (r & w' & Hr & _ & H0 & _); [vm_compute; by split | set_solver|].
    exists r, w'. split; [exact Hr|]. by rewrite H0.
  - destruct (insert_boundaries (env := plain_env) test_world test_txt _ (py "new") 2 false
                eq_refl) as [Hok _].
    destruct Hok as (r & w' & Hr & _ & _ & Hn); [vm_compute; by split | set_solver|].
    exists r, w'. split; [exact Hr|]. by rewrite Hn.
  - destruct (insert_boundaries (env := plain_env) test_world test_txt _ (py "new") 3 false
                eq_refl) as (_ & _ & Hlast).
    exact Hlast.
Defined.

(** ** The history and undo_edit *)

Section Undo.
Context {env : Env}.

Lemma history_get_run w p : history_get p w = (inr (history_of w p), touched p w).
Proof.
  unfold history_get, touched, history_of.
  destruct (_file_history w !! p) eqn:E; simpl; [|done].
  rewrite insert_id by done. by destruct w.
Qed.

Lemma history_of_touched w p q : history_of (touched p w) q = history_of w q.
Proof.
  unfold touched. rewrite history_of_insert. case_decide; [by subst|by destruct w].
Qed.

Lemma validate_path_file w cmd p c :
  is_absolute p = true → content_of w p = Some c → cmd ≠ create_cmd →
  validate_path cmd p w = (inr (), w).
Proof.
  intros Ha Hc Hcmd. unfold content_of in Hc.
  destruct (fs w !! p) as [[c'|]|] eqn:E; try done.
  unfold validate_path. rewrite Ha.
  unfold mbind, M_bind, bind, path_exists, path_is_dir; cbn. rewrite E.
  rewrite (bool_decide_eq_false_2 _ Hcmd). cbn. rewrite E.
  by rewrite andb_false_r.
Qed.

Lemma undo_edit_empty w p :
  history_of w p = [] →
  undo_edit p w = (inl (ToolError (msg_no_history p)), touched p w).
Proof.
  intros E. unfold undo_edit. erewrite bind_inr by apply history_get_run.
  by rewrite E.
Qed.

Lemma undo_edit_pop w p l x raw :
  history_of w p = l ++ [x] → content_of w p = Some raw → p ∉ readonly w →
  ∃ r, undo_edit p w
       = (inr r, World (<[p := File x]> (fs w)) (readonly w)
                   (<[p := l]> (_file_history w))
                   (io_log w ++ [ReadText p; WriteText p x]))
       ∧ new_content r = Some x ∧ old_content r = Some (expandtabs raw).
Proof.
  intros Eh Hc Hro. unfold undo_edit.
  erewrite bind_inr by apply history_get_run. rewrite Eh.
  replace (negb (truthy (l ++ [x]))) with false by by destruct l.
  erewrite bind_inr; [|by apply read_file_ok; rewrite <- Hc].
  unfold history_pop at 1.
  erewrite (bind_inr (history_pop p)).
  2:{ unfold history_pop. erewrite bind_inr by apply history_get_run.
      replace (history_of (log_io (ReadText p) (touched p w)) p) with (l ++ [x]).
      2:{ rewrite <- Eh. symmetry. apply history_of_touched. }
      rewrite last_snoc, removelast_last. reflexivity. }
  erewrite bind_inr.
  2:{ apply write_file_ok; [done|]. simpl. unfold content_of in Hc.
      by destruct (fs w !! p) as [[]|]. }
  eexists. split.
  - apply (f_equal2 pair); [reflexivity|].
    unfold written, touched, log_io; cbn [fs readonly _file_history io_log].
    by rewrite !insert_insert_eq, <- app_assoc.
  - done.
Qed.

(** Undoing as often as there are snapshots empties the stack. *)
Lemma undo_times_all w p raw :
  content_of w p = Some raw → p ∉ readonly w →
  ∃ w', undo_times (length (history_of w p)) p w = (inr (), w')
    ∧ history_of w' p = [] ∧ readonly w' = readonly w
    ∧ is_Some (content_of w' p).
Proof.
  remember (length (history_of w p)) as n eqn:En.
  revert w raw En. induction n as [|n IH]; intros w raw En Hc Hro.
  - exists w. split; [done|]. split; [|by rewrite Hc; eauto].
    by destruct (history_of w p).
  - destruct (history_of w p) as [|a l0] eqn:Eh using rev_ind; [done|].
    clear IHl0. rewrite length_app in En; simpl in En.
    destruct (undo_edit_pop w p l0 a raw Eh Hc Hro) as (r & Hr & _).
    simpl. erewrite bind_inr by exact Hr.
    edestruct (IH (World (<[p := File a]> (fs w)) (readonly w)
                     (<[p := l0]> (_file_history w))
                     (io_log w ++ [ReadText p; WriteText p a])) a)
      as (w' & Hrun & Hh & Hro' & Hc').
    + rewrite history_of_insert. rewrite decide_True by done. lia.
    + unfold content_of; simpl. by rewrite lookup_insert_eq.
    + done.
    + exists w'. done.
Qed.

(** After the snapshots of a path were all consumed by undos, the next
    undo fails for want of history. *)
Lemma undo_edit_after_consuming w p raw :
  content_of w p = Some raw → p ∉ readonly w →
  ∃ w' w'', undo_times (length (history_of w p)) p w = (inr (), w')
    ∧ undo_edit p w' = (inl (ToolError (msg_no_history p)), w'')
    ∧ fs w'' = fs w' ∧ io_log w'' = io_log w'.
Proof.
  intros Hc Hro.
  destruct (undo_times_all w p raw Hc Hro) as (w' & Hrun & Hh & _).
  exists w', (touched p w'). by rewrite (undo_edit_empty w' p Hh).
Qed.

(** C9. With an empty stack for the path, [undo_edit] raises the
    [ToolError] whose message is [No edit history found for <path>.]; no
    file is read or written (the log of I/O is unchanged) and the disk and
    every stack are as before.  The stack is empty for a path that never
    was edited (no key in the dictionary), and it is empty again once as
    many undos as there were snapshots have been done: the next undo
    fails in the same way.  The call through [__call__] on an existing
    file gives the same error. *)
Theorem undo_edit_no_history w p :
  (history_of w p = [] →
     ∃ w', undo_edit p w = (inl (ToolError (msg_no_history p)), w')
       ∧ fs w' = fs w ∧ io_log w' = io_log w
       ∧ ∀ q, history_of w' q = history_of w q)
  ∧ (_file_history w !! p = None →
     ∃ w', undo_edit p w = (inl (ToolError (msg_no_history p)), w')
       ∧ fs w' = fs w ∧ io_log w' = io_log w)
  ∧ (∀ raw, content_of w p = Some raw → p ∉ readonly w →
     ∃ w' w'', undo_times (length (history_of w p)) p w = (inr (), w')
       ∧ undo_edit p w' = (inl (ToolError (msg_no_history p)), w'')
       ∧ fs w'' = fs w' ∧ io_log w'' = io_log w')
  ∧ (∀ c, history_of w p = [] → is_absolute p = true → content_of w p = Some c →
     ∃ w', __call__ (undo_request p) w = (inl (ToolError (msg_no_history p)), w')
       ∧ fs w' = fs w ∧ io_log w' = io_log w).
Proof.
  split; [|split; [|split]].
  - intros Eh. rewrite (undo_edit_empty w p Eh).
    eexists. split; [reflexivity|]. repeat split. apply history_of_touched.
  - intros Hk. assert (Eh : history_of w p = []) by (unfold history_of; by rewrite Hk).
    rewrite (undo_edit_empty w p Eh). eauto.
  - intros raw. apply undo_edit_after_consuming.
  - intros c Eh Ha Hc. unfold __call__. cbn [undo_request command req_path].
    erewrite bind_inr by (by eapply validate_path_file).
    rewrite (undo_edit_empty w p Eh). eauto.
Qed.

End Undo.

Lemma undo_edit_no_history_witness :
  history_of test_world test_txt = []
  ∧ ∃ w', __call__ (env := plain_env) (undo_request test_txt) test_world
          = (inl (ToolError (py "No edit history found for /tmp/test.txt.")), w')
       ∧ fs w' = fs test_world ∧ io_log w' = io_log test_world.
Proof.
  split; [reflexivity|].
  destruct (undo_edit_no_history (env := plain_env) test_world test_txt)
    as (_ & _ & _ & Hcall).
  exact (Hcall _ eq_refl eq_refl eq_refl).
Defined.

(** ** Validation of the line parameters *)

Lemma min_of_spec x r : min_of x r ∈ x :: r ∧ ∀ y, y ∈ x :: r → min_of x r ≤ y.
Proof.
  revert x. induction r as [|a r IHr]; intros x; unfold min_of in *; simpl.
  - split; [apply elem_of_cons; auto|]. intros y ->%list_elem_of_singleton. lia.
  - destruct (IHr (Z.min x a)) as [Hin Hle]. split.
    + apply elem_of_cons in Hin as [->|Hin].
      * destruct (Z.min_spec x a) as [[_ ->]|[_ ->]]; rewrite !elem_of_cons; auto.
      * rewrite !elem_of_cons; auto.
    + assert (Hhead := Hle (Z.min x a) ltac:(apply elem_of_cons; auto)).
      intros y [->|[->|Hy]%elem_of_cons]%elem_of_cons; [lia | lia |].
      apply Hle. apply elem_of_cons; auto.
Qed.

Lemma max_of_spec x r : max_of x r ∈ x :: r ∧ ∀ y, y ∈ x :: r → y ≤ max_of x r.
Proof.
  revert x. induction r as [|a r IHr]; intros x; unfold max_of in *; simpl.
  - split; [apply elem_of_cons; auto|]. intros y ->%list_elem_of_singleton. lia.
  - destruct (IHr (Z.max x a)) as [Hin Hle]. split.
    + apply elem_of_cons in Hin as [->|Hin].
      * destruct (Z.max_spec x a) as [[_ ->]|[_ ->]]; rewrite !elem_of_cons; auto.
      * rewrite !elem_of_cons; auto.
    + assert (Hhead := Hle (Z.max x a) ltac:(apply elem_of_cons; auto)).
      intros y [->|[->|Hy]%elem_of_cons]%elem_of_cons; [lia | lia |].
      apply Hle. apply elem_of_cons; auto.
Qed.

Section Validation.
Context {env : Env}.

(** One bounds check: it passes exactly when every index is in [1..n], and
    otherwise names the least or the greatest index. *)
Lemma bounds_check_run pattern l n w :
  ∃ r, (if truthy l then validate_min_or_max pattern (min_list l) (max_list l) n
        else mret ()) w = (r, w)
    ∧ match r with
      | inr _ => in_bounds n l
      | inl e => ∃ m, e = ToolError m ∧ bound_violation n pattern l m
      end.
Proof.
  destruct l as [|x r]; cbn [truthy].
  - exists (inr ()). split; [done|]. by intros i ?%elem_of_nil.
  - unfold validate_min_or_max, min_list, max_list.
    destruct (min_of_spec x r) as [Hmin Hminle], (max_of_spec x r) as [Hmax Hmaxle].
    destruct (Z.leb_spec (min_of x r) 0).
    + eexists. split; [reflexivity|]. eexists. split; [done|].
      exists (min_of x r). split; [done|]. split; [lia|done].
    + destruct (Z.ltb_spec n (max_of x r)).
      * eexists. split; [reflexivity|]. eexists. split; [done|].
        exists (max_of x r). split; [done|]. split; [lia|done].
      * exists (inr ()). split; [done|]. intros i Hi.
        specialize (Hminle i Hi). specialize (Hmaxle i Hi). lia.
Qed.

(** The check of a range: bounds, then the unpacking, then the order. *)
Lemma range_check_run pattern l n w :
  ∃ r, (if truthy l then
          _ ← validate_min_or_max pattern (min_list l) (max_list l) n;
          se ← unpack2 l;
          if se.2 <? se.1 then raise (ToolError (msg_start_end pattern l))
          else mret ()
        else mret ()) w = (r, w)
    ∧ match r with
      | inr _ => in_bounds n l ∧ ordered l ∧ range_shaped l
      | inl e =>
          (∃ m, e = ToolError m
                ∧ (bound_violation n pattern l m ∨ order_violation pattern l m))
          ∨ (exn_class e = ValueError_class ∧ ¬ range_shaped l)
      end.
Proof.
  destruct (bounds_check_run pattern l n w) as (r & Hr & Hcase).
  destruct l as [|x l']; cbn [truthy] in *.
  - exists (inr ()). split; [done|]. injection Hr as <-.
    split; [done|]. split; [by intros ?? [=] | by left].
  - destruct r as [e|[]].
    + exists (inl e). split; [by rewrite (bind_inl _ _ _ _ _ Hr)|].
      destruct Hcase as (m & -> & Hb). left. eauto.
    + rewrite (bind_inr _ _ _ _ _ Hr).
      destruct l' as [|y [|z l'']].
      * eexists. split; [reflexivity|]. right. split; [done|].
        intros [[=]|(s & e & [=])].
      * unfold unpack2, mbind, M_bind, bind, mret, M_ret, ret; cbn [fst snd].
        destruct (Z.ltb_spec y x).
        -- eexists. split; [reflexivity|]. left. eexists. split; [done|].
           right. by exists x, y.
        -- exists (inr ()). split; [done|]. split; [done|].
           split; [intros s e [= <- <-]; lia | right; eauto].
      * eexists. split; [reflexivity|]. right. split; [done|].
        intros [[=]|(s & e & [=])].
Qed.

Lemma validate_line_parameters_run kw n w :
  ∃ r, validate_line_parameters kw n w = (r, w)
    ∧ match r with
      | inr _ =>
          valid_lines n kw
          ∧ range_shaped (line_range kw) ∧ range_shaped (delete_range kw)
      | inl e =>
          (∃ m, e = ToolError m ∧ names_violation n kw m)
          ∨ (exn_class e = ValueError_class
             ∧ ¬ (range_shaped (line_range kw) ∧ range_shaped (delete_range kw)))
      end.
Proof.
  unfold validate_line_parameters, valid_lines, names_violation.
  destruct (bounds_check_run (py "line number") (line_numbers kw) n w)
    as (r1 & E1 & C1).
  destruct r1 as [e|[]].
  { rewrite (bind_inl _ _ _ _ _ E1). eexists; split; [done|].
    destruct C1 as (m & -> & ?). left. eauto. }
  rewrite (bind_inr _ _ _ _ _ E1).
  destruct (range_check_run (py "line range") (line_range kw) n w)
    as (r2 & E2 & C2).
  destruct r2 as [e|[]].
  { rewrite (bind_inl _ _ _ _ _ E2). eexists; split; [done|].
    destruct C2 as [(m & -> & ?)|[? ?]]; [left; eauto | right; tauto]. }
  rewrite (bind_inr _ _ _ _ _ E2).
  destruct (bounds_check_run (py "delete lines") (delete_lines kw) n w)
    as (r3 & E3 & C3).
  destruct r3 as [e|[]].
  { rewrite (bind_inl _ _ _ _ _ E3). eexists; split; [done|].
    destruct C3 as (m & -> & ?). left. eauto 10. }
  rewrite (bind_inr _ _ _ _ _ E3).
  destruct (range_check_run (py "delete range") (delete_range kw) n w)
    as (r4 & E4 & C4).
  rewrite E4. exists r4. split; [done|].
  destruct r4 as [e|[]].
  - destruct C4 as [(m & -> & ?)|[? ?]]; [left; eauto 10 | right; tauto].
  - tauto.
Qed.

End Validation.

(** ** The run of str_replace *)

Section StrReplaceRun.
Context {env : Env}.

Lemma pure_run {A} (m : M A) w : pure m → m w = ((m w).1, w).
Proof. intros Hp. specialize (Hp w). destruct (m w); simpl in *; by subst. Qed.

Lemma pure_replace_on_line rg old new ls i : pure (replace_on_line rg old new ls i).
Proof.
  unfold replace_on_line. apply pure_if; [|auto with pure].
  apply pure_bind; [auto with pure|]. intros line.
  apply pure_bind; [apply pure_if; auto with pure|]. intros; auto with pure.
Qed.

Lemma pure_replaced_content p content old new ls kw :
  pure (replaced_content p content old new ls kw).
Proof.
  unfold replaced_content. cbv zeta.
  repeat first
    [ apply pure_if
    | apply pure_bind; [|intros]
    | apply pure_for_each; intros; apply pure_replace_on_line
    | by auto with pure
    | by destruct (occurrence_lines content old) ].
Qed.

Lemma pure_resolved_text p content old new kw :
  pure (resolved_text p content old new kw).
Proof.
  unfold resolved_text. cbv zeta.
  repeat first
    [ apply pure_replaced_content
    | apply pure_if
    | apply pure_bind; [|intros]
    | by auto with pure ].
Qed.

(** Every way a call of [str_replace] on a readable file can go: the
    validation fails; the new text cannot be computed; the write fails;
    the text is written and the snapshot pushed, after which the call
    returns, unless the empty [old_str] makes [split] raise. *)
Lemma str_replace_cases w p raw old new lint kw :
  content_of w p = Some raw →
  let content := expandtabs raw in
  let old' := expandtabs old in
  let new' := match new with Some s => expandtabs s | None => [] end in
  let n := Z.of_nat (length (split content [NL])) in
  let w1 := log_io (ReadText p) w in
  let deleting := truthy (delete_lines kw) || truthy (delete_range kw) in
  (∃ e, validate_line_parameters kw n w1 = (inl e, w1)
        ∧ str_replace p old new lint kw w = (inl e, w1))
  ∨ (validate_line_parameters kw n w1 = (inr (), w1)
     ∧ ((∃ e, resolved_text p content old' new' kw w1 = (inl e, w1)
              ∧ str_replace p old new lint kw w = (inl e, w1))
        ∨ ∃ t, resolved_text p content old' new' kw w1 = (inr t, w1)
            ∧ ((∃ e, p ∈ readonly w ∧ (∃ m, e = ToolError (py "Ran into " ++ m))
                     ∧ str_replace p old new lint kw w
                       = (inl e, log_io (WriteText p t) w1))
               ∨ ((p ∉ readonly w)
                  ∧ ((deleting = false ∧ old' = []
                      ∧ str_replace p old new lint kw w
                        = (inl (Exn ValueError_class (py "empty separator")),
                           committed p content t w))
                     ∨ ((deleting = true ∨ old' ≠ [])
                        ∧ ∃ res, str_replace p old new lint kw w
                                 = (inr res, committed p content t w)
                            ∧ new_content res = Some t
                            ∧ old_content res = Some content)))))).
Proof.
  intros Hc content old' new' n w1 deleting.
  assert (Hcommit : ∀ t, p ∉ readonly w →
    ∀ {A} (k : M A),
      (_ ← write_file p t; _ ← history_append p content; k) w1
      = k (committed p content t w)).
  { intros t Hro A k.
    erewrite bind_inr.
    2:{ apply write_file_ok; [done|]. simpl. unfold content_of in Hc.
        by destruct (fs w !! p) as [[]|]. }
    erewrite bind_inr by apply history_append_run.
    f_equal. unfold committed, written, w1, log_io, history_of;
      cbn [fs readonly _file_history io_log].
    by rewrite <- app_assoc. }
  assert (Hfail : ∀ t, p ∈ readonly w →
    ∃ e, (∃ m, e = ToolError (py "Ran into " ++ m))
         ∧ write_file p t w1 = (inl e, log_io (WriteText p t) w1)).
  { intros t Hro.
    destruct (write_file p t w1) as [[e|[]] w2] eqn:Ew;
      pose proof (write_file_inv _ _ _ _ _ Ew) as Hinv; cbn beta iota in Hinv.
    - destruct Hinv as [-> He]. by exists e.
    - by destruct Hinv as [_ []]. }
  unfold str_replace.
  rewrite (bind_inr _ _ _ _ _ (read_file_ok _ _ _ Hc)).
  fold content old' new' n w1.
  destruct (validate_line_parameters_run kw n w1) as (rv & Ev & _).
  destruct rv as [e|[]].
  { left. exists e. split; [done|]. by apply bind_inl. }
  right. split; [done|].
  rewrite (bind_inr _ _ _ _ _ Ev).
  pose proof (pure_run _ w1 (pure_resolved_text p content old' new' kw)) as Er.
  unfold deleting, resolved_text in *.
  destruct (truthy (delete_lines kw)) eqn:Edl.
  { right. eexists. split; [reflexivity|].
    destruct (decide (p ∈ readonly w)) as [Hro|Hro].
    - left. destruct (Hfail (join [NL]
        (filter (λ il, il.1 ∉ (λ i, i - 1) <$> delete_lines kw)
           (enumerate (split content [NL]))).*2) Hro) as (e & He & Hrun).
      exists e. split; [done|]. split; [done|]. by apply bind_inl.
    - right. split; [done|]. right. split; [by left|].
      rewrite Hcommit by done. eexists. split; [reflexivity|]. done. }
  destruct (truthy (delete_range kw)) eqn:Edr.
  { destruct (unpack2 (delete_range kw) w1) as [[e|se] w2] eqn:Eu.
    - pose proof (pure_unpack2 (delete_range kw) w1) as Hp. rewrite Eu in Hp.
      simpl in Hp. subst w2. left. exists e.
      split; [by rewrite (bind_inl _ _ _ _ _ Eu)|].
      by rewrite (bind_inl _ _ _ _ _ Eu).
    - pose proof (pure_unpack2 (delete_range kw) w1) as Hp. rewrite Eu in Hp.
      simpl in Hp. subst w2. right.
      rewrite !(bind_inr _ _ _ _ _ Eu).
      eexists. split; [reflexivity|].
      destruct (decide (p ∈ readonly w)) as [Hro|Hro].
      + left. destruct (Hfail (join [NL]
          (filter (λ il, ¬ (se.1 ≤ il.1 + 1 ≤ se.2))
             (enumerate (split content [NL]))).*2) Hro) as (e & He & Hrun).
        exists e. split; [done|]. split; [done|]. by apply bind_inl.
      + right. split; [done|]. right. split; [by left|].
        rewrite Hcommit by done. eexists. split; [reflexivity|]. done. }
  destruct (replaced_content p content old' new' (split content [NL]) kw w1)
    as [[e|t] w2] eqn:Erc; simpl in Er; injection Er as ->.
  { left. exists e. split; [done|]. by apply bind_inl. }
  right. exists t. split; [done|].
  rewrite (bind_inr _ _ _ _ _ Erc).
  destruct (decide (p ∈ readonly w)) as [Hro|Hro].
  - left. destruct (Hfail t Hro) as (e & He & Hrun).
    exists e. split; [done|]. split; [done|]. by apply bind_inl.
  - right. split; [done|]. rewrite Hcommit by done.
    destruct old' as [|c old''] eqn:Eold.
    + left. done.
    + right. split; [by right|]. eexists. split; [reflexivity|]. done.
Qed.

End StrReplaceRun.

(** ** Validation comes first *)

Section ValidationFirst.
Context {env : Env}.

(** C2. On a readable file of [n] lines (tabs expanded), a call of
    [str_replace] that returns had every index of [line_numbers],
    [line_range], [delete_lines] and [delete_range] in [1..n] and every
    range in order.  When an index is out of [1..n] or a range has its
    start after its end, the call raises a [ToolError] whose message names
    the offending index and the range [1..n], or the offending range and
    the order it must have; this happens before any write is attempted:
    the file was read and nothing else, disk and history are unchanged. *)
Theorem validation_before_mutation w p raw old new lint kw :
  content_of w p = Some raw →
  let n := Z.of_nat (length (split (expandtabs raw) [NL])) in
  (∀ res w', str_replace p old new lint kw w = (inr res, w') → valid_lines n kw)
  ∧ (range_shaped (line_range kw) → range_shaped (delete_range kw) →
     ¬ valid_lines n kw →
     ∃ m w', str_replace p old new lint kw w = (inl (ToolError m), w')
       ∧ names_violation n kw m
       ∧ fs w' = fs w ∧ (∀ q, history_of w' q = history_of w q)
       ∧ io_log w' = io_log w ++ [ReadText p]).
Proof.
  intros Hc n.
  pose proof (str_replace_cases w p raw old new lint kw Hc) as Hcases.
  cbv zeta in Hcases. fold n in Hcases.
  destruct (validate_line_parameters_run kw n (log_io (ReadText p) w))
    as (rv & Ev & Hv).
  split.
  - intros res w' Hrun.
    destruct Hcases as [(e & _ & Herr)|[Hok _]]; [congruence|].
    rewrite Hok in Ev. injection Ev as <-. tauto.
  - intros Hs1 Hs2 Hbad.
    destruct Hcases as [(e & He & Herr)|[Hok _]].
    + rewrite He in Ev. injection Ev as <-.
      destruct Hv as [(m & -> & Hm)|[_ Hns]]; [|tauto].
      exists m, (log_io (ReadText p) w). done.
    + rewrite Hok in Ev. injection Ev as <-. tauto.
Qed.

End ValidationFirst.

Lemma validation_before_mutation_witness :
  content_of test_world test_txt
    = Some (text [py "This is a test file."; py "This file is for testing purposes."])
  ∧ ∃ m w',
      str_replace (env := plain_env) test_txt (py "test") (Some (py "sample")) false
        (line_numbers_only [3]) test_world
      = (inl (ToolError m), w')
      ∧ fs w' = fs test_world ∧ io_log w' = [ReadText test_txt].
Proof.
  split; [reflexivity|].
  destruct (validation_before_mutation (env := plain_env) test_world test_txt _
              (py "test") (Some (py "sample")) false (line_numbers_only [3])
              eq_refl) as [_ Hbad].
  destruct Hbad as (m & w' & Hrun & _ & Hfs & _ & Hlog).
  - by left.
  - by left.
  - intros [Hb _]. specialize (Hb 3 ltac:(apply elem_of_cons; auto)).
    vm_compute in Hb. destruct Hb as [_ Hb]. by apply Hb.
  - exists m, w'. done.
Defined.

(** ** Each command, case by case *)

Section Commands.
Context {env : Env}.

Lemma pushed_committed w p entry t : pushed p entry t w (committed p entry t w).
Proof.
  unfold pushed, committed; cbn [fs readonly]. repeat split.
  - rewrite history_of_insert. by rewrite decide_True.
  - intros q Hq. rewrite history_of_insert. rewrite decide_False by done.
    by destruct w.
Qed.

Lemma validate_path_run cmd p w :
  ∃ r, validate_path cmd p w = (r, w)
    ∧ (r = inr () →
       is_absolute p = true
       ∧ (if decide (cmd = create_cmd) then fs w !! p = None else is_Some (fs w !! p))
       ∧ (cmd ≠ view_cmd → fs w !! p ≠ Some Dir)).
Proof.
  unfold validate_path.
  destruct (is_absolute p) eqn:Ea; cbn [negb];
    [|eexists; split; [reflexivity|done]].
  unfold mbind, M_bind, bind, mret, M_ret, ret, raise, path_exists, path_is_dir.
  destruct (fs w !! p) as [nd|] eqn:Ef.
  - rewrite (bool_decide_eq_true_2 (is_Some (Some nd))) by eauto.
    destruct (decide (cmd = create_cmd)) as [->|Hc].
    + rewrite bool_decide_eq_true_2 by done. cbn [andb].
      eexists; split; [reflexivity|done].
    + rewrite (bool_decide_eq_false_2 _ Hc). cbn [andb negb]. rewrite Ef.
      destruct (decide (cmd = view_cmd)) as [->|Hv].
      * rewrite bool_decide_eq_true_2 by done. cbn [andb negb].
        exists (inr ()). split; [done|]. intros _. split; [done|]. split; [eauto|done].
      * rewrite (bool_decide_eq_false_2 _ Hv). cbn [andb negb].
        destruct nd as [c|].
        -- exists (inr ()). split; [done|]. intros _. split; [done|].
           split; [eauto|done].
        -- eexists; split; [reflexivity|done].
  - rewrite (bool_decide_eq_false_2 (is_Some None)) by (by intros [? ?]).
    destruct (decide (cmd = create_cmd)) as [->|Hc].
    + rewrite bool_decide_eq_true_2 by done. cbn [andb negb]. rewrite Ef.
      rewrite andb_false_r.
      exists (inr ()); (split; [done|]); intros _; done.
    + rewrite (bool_decide_eq_false_2 _ Hc). cbn [andb negb].
      eexists; split; [reflexivity|done].
Qed.

Lemma insert_cases w p raw new_str line lint :
  content_of w p = Some raw →
  (∃ e w', insert p line new_str lint w = (inl e, w') ∧ same_store w w')
  ∨ ((p ∉ readonly w)
     ∧ ∃ res t, insert p line new_str lint w
                = (inr res, committed p (expandtabs raw) t w)).
Proof.
  intros Hc.
  pose proof (insert_run w p raw new_str line lint Hc) as Hrun. cbv zeta in Hrun.
  destruct ((line <? 0) || _) eqn:Eb.
  - destruct Hrun as (e & Hr & _). left. exists e, (log_io (ReadText p) w).
    split; [done|]. apply same_store_log.
  - destruct (decide (p ∈ readonly w)) as [Hro|Hro].
    + left. unfold insert.
      assert (Hrd : try_except (read_file p) (λ e,
          raise (ToolError (py "Ran into " ++ message e
                              ++ py " while trying to read " ++ p))) w
          = (inr raw, log_io (ReadText p) w)).
      { unfold try_except. by rewrite (read_file_ok _ _ _ Hc). }
      rewrite (bind_inr _ _ _ _ _ Hrd). rewrite Eb.
      match goal with
      | |- context [write_file p ?t] =>
          destruct (write_file p t (log_io (ReadText p) w)) as [[e|[]] w2] eqn:Ew;
          pose proof (write_file_inv _ _ _ _ _ Ew) as Hinv; cbn beta iota in Hinv
      end.
      * destruct Hinv as [-> _]. eexists e, _. split; [by apply bind_inl|].
        by repeat split.
      * by destruct Hinv as [_ []].
    + right. split; [done|]. destruct (Hrun Hro) as (res & Hr).
      exists res. eexists. rewrite Hr. reflexivity.
Qed.

Lemma undo_edit_cases w p raw :
  content_of w p = Some raw →
  (∃ e w', undo_edit p w = (inl e, w')
     ∧ fs w' = fs w
     ∧ ∀ q, (length (history_of w' q) ≤ length (history_of w q))%nat)
  ∨ ∃ res w', undo_edit p w = (inr res, w').
Proof.
  intros Hc.
  destruct (history_of w p) as [|x l _] eqn:Eh using rev_ind.
  - left. eexists _, _. split; [by apply undo_edit_empty|].
    split; [done|]. intros q. by rewrite history_of_touched.
  - destruct (decide (p ∈ readonly w)) as [Hro|Hro].
    + left. unfold undo_edit.
      erewrite bind_inr by apply history_get_run. rewrite Eh.
      replace (negb (truthy (l ++ [x]))) with false by by destruct l.
      erewrite bind_inr; [|by apply read_file_ok; rewrite <- Hc].
      erewrite (bind_inr (history_pop p)).
      2:{ unfold history_pop. erewrite bind_inr by apply history_get_run.
          replace (history_of (log_io (ReadText p) (touched p w)) p) with (l ++ [x]).
          2:{ rewrite <- Eh. symmetry. apply history_of_touched. }
          rewrite last_snoc, removelast_last. reflexivity. }
      cbn beta.
      match goal with
      | |- context [(write_file p x ≫= _) ?w0] =>
          destruct (write_file p x w0) as [[e|[]] w2] eqn:Ew;
          pose proof (write_file_inv _ _ _ _ _ Ew) as Hinv; cbn beta iota in Hinv
      end.
      * destruct Hinv as [-> _]. eexists e, _. split; [by apply bind_inl|].
        split; [done|]. intros q.
        unfold log_io at 1; cbn [fs readonly _file_history io_log].
        rewrite history_of_insert.
        destruct (decide (p = q)) as [<-|Hq].
        -- rewrite Eh, length_app. lia.
        -- unfold history_of, touched, log_io; cbn [fs readonly _file_history io_log].
           rewrite !lookup_insert_ne by done. lia.
      * by destruct Hinv as [_ []].
    + right. destruct (undo_edit_pop w p l x raw Eh Hc Hro) as (res & Hr & _).
      eauto.
Qed.

Lemma view_same_store w p vr : same_store w (view p vr w).2.
Proof.
  unfold view. unfold mbind at 1, M_bind at 1, bind at 1, path_is_dir.
  destruct (match fs w !! p with Some Dir => true | _ => false end).
  - by destruct (truthy vr).
  - unfold mbind, M_bind, bind.
    destruct (read_file p w) as [[e|raw] w1] eqn:Er;
      apply read_file_inv in Er as [-> _]; [done|].
    destruct vr as [|a [|b [|c vr']]]; cbn [truthy negb]; try done.
    by repeat match goal with |- context [if ?b then _ else _] => destruct b end.
Qed.

End Commands.

(** ** A call of the editor, whatever the command *)

Section Call.
Context {env : Env}.

(** The outcome of any call: a mutating command that returns has written
    the file and pushed one entry, whose value depends on the command; a
    call that raises anything but [empty_separator] has changed no file
    and extended no stack. *)
Lemma call_outcome r w :
  let p := req_path r in
  match __call__ r w with
  | (inr res, w1) =>
      if mutating (command r) then
        is_absolute p = true ∧ (p ∉ readonly w)
        ∧ ∃ entry t, pushed p entry t w w1
            ∧ match command r with
              | create_cmd => file_text r = Some entry ∧ t = entry ∧ fs w !! p = None
              | _ => ∃ raw, content_of w p = Some raw ∧ entry = expandtabs raw
              end
      else True
  | (inl e, w1) =>
      e ≠ empty_separator →
      fs w1 = fs w
      ∧ (∀ q, (length (history_of w1 q) ≤ length (history_of w q))%nat)
      ∧ (command r ≠ undo_edit_cmd → ∀ q, history_of w1 q = history_of w q)
  end.
Proof.
  intros p.
  assert (Hsame : ∀ e w1, same_store w w1 →
    e ≠ empty_separator →
    fs w1 = fs w
    ∧ (∀ q, (length (history_of w1 q) ≤ length (history_of w q))%nat)
    ∧ (command r ≠ undo_edit_cmd → ∀ q, history_of w1 q = history_of w q)).
  { intros e w1 Hs _. split; [apply Hs|].
    split; intros; by rewrite (same_store_history _ _ _ Hs). }
  unfold __call__. fold p.
  destruct (validate_path_run (command r) p w) as (rv & Ev & Hv).
  destruct rv as [e|[]].
  { rewrite (bind_inl _ _ _ _ _ Ev). by apply Hsame. }
  rewrite (bind_inr _ _ _ _ _ Ev).
  destruct (Hv eq_refl) as (Habs & Hex & Hdir). clear Hv Ev.
  assert (Hfile : command r ≠ create_cmd → command r ≠ view_cmd →
                  ∃ raw, content_of w p = Some raw).
  { intros Hc Hvw. rewrite decide_False in Hex by done.
    specialize (Hdir Hvw). unfold content_of.
    destruct Hex as [[c|] Hx]; rewrite Hx in *; [eauto|done]. }
  destruct (command r) eqn:Ec; cbn [mutating].
  - (* view *)
    pose proof (view_same_store w p (view_range r)) as Hs.
    destruct (view p (view_range r) w) as [[e|res] w1]; [|done].
    by apply Hsame.
  - (* create *)
    destruct (file_text r) as [text|]; [|unfold raise; by apply Hsame].
    destruct (write_file p text w) as [[e|[]] w1] eqn:Ew;
      pose proof (write_file_inv _ _ _ _ _ Ew) as Hinv; cbn beta iota in Hinv.
    + destruct Hinv as [-> _]. rewrite (bind_inl _ _ _ _ _ Ew).
      apply Hsame, same_store_log.
    + destruct Hinv as [-> Hro]. rewrite (bind_inr _ _ _ _ _ Ew).
      erewrite bind_inr by apply history_append_run.
      split; [done|]. split; [done|]. exists text, text.
      rewrite decide_True in Hex by done. split; [|done].
      unfold pushed, written; cbn [fs readonly _file_history io_log].
      split; [done|]. split; [done|]. split.
      * rewrite history_of_insert, decide_True by done. done.
      * intros q Hq. rewrite history_of_insert, decide_False by done. done.
  - (* str_replace *)
    destruct (old_str r) as [old|]; [|unfold raise; by apply Hsame].
    case_bool_decide; [unfold raise; by apply Hsame|].
    destruct Hfile as [raw Hc]; [done..|].
    destruct (str_replace_cases w p raw old (new_str r) (enable_linting r) (more r) Hc)
      as [(e & _ & ->)|[_ [(e & _ & ->)|(t & _ & [(e & _ & _ & ->)|(Hro & Hrest)])]]].
    + apply Hsame, same_store_log.
    + apply Hsame, same_store_log.
    + apply Hsame. eapply same_store_trans; apply same_store_log.
    + destruct Hrest as [(_ & _ & ->)|(_ & res & -> & _)].
      * by intros [].
      * split; [done|]. split; [done|]. exists (expandtabs raw), t.
        split; [apply pushed_committed | eauto].
  - (* insert *)
    destruct (insert_line r) as [line|]; [|unfold raise; by apply Hsame].
    destruct (new_str r) as [new|]; [|unfold raise; by apply Hsame].
    destruct Hfile as [raw Hc]; [done..|].
    destruct (insert_cases w p raw new line (enable_linting r) Hc)
      as [(e & w1 & -> & Hs)|(Hro & res & t & ->)].
    + by apply Hsame.
    + split; [done|]. split; [done|]. exists (expandtabs raw), t.
      split; [apply pushed_committed | eauto].
  - (* undo_edit *)
    destruct Hfile as [raw Hc]; [done..|].
    destruct (undo_edit_cases w p raw Hc) as [(e & w1 & -> & Hfs & Hlen)|(res & w1 & ->)];
      [|done].
    intros _. done.
  - (* any other command *)
    unfold raise. by apply Hsame.
Qed.

End Call.

(** ** The history ledger *)

Lemma expandtabs_no_tab s col : TAB ∉ s → expandtabs_from col s = s.
Proof.
  revert col. induction s as [|c t IH]; intros col Hno; [done|].
  apply not_elem_of_cons in Hno as [Hc Ht]. cbn [expandtabs_from].
  destruct (N.eqb_spec c TAB); [congruence|]. by rewrite IH.
Qed.

Section Ledger.
Context {env : Env}.

(** A failed [undo_edit] on a file: either the write was refused, which
    [write_file] reports as [Ran into ...], or there was nothing to undo
    and the files and the stacks are as they were. *)
Lemma undo_edit_failure w p raw e w1 :
  content_of w p = Some raw → undo_edit p w = (inl e, w1) →
  (∃ m, e = ToolError (py "Ran into " ++ m))
  ∨ (fs w1 = fs w ∧ ∀ q, history_of w1 q = history_of w q).
Proof.
  intros Hc Hrun.
  destruct (history_of w p) as [|x l _] eqn:Eh using rev_ind.
  - rewrite undo_edit_empty in Hrun by done. injection Hrun as <- <-.
    right. split; [done|]. intros q. apply history_of_touched.
  - destruct (decide (p ∈ readonly w)) as [Hro|Hro].
    + left. revert Hrun. unfold undo_edit.
      erewrite bind_inr by apply history_get_run. rewrite Eh.
      replace (negb (truthy (l ++ [x]))) with false by by destruct l.
      erewrite bind_inr; [|by apply read_file_ok; rewrite <- Hc].
      erewrite (bind_inr (history_pop p)).
      2:{ unfold history_pop. erewrite bind_inr by apply history_get_run.
          replace (history_of (log_io (ReadText p) (touched p w)) p) with (l ++ [x]).
          2:{ rewrite <- Eh. symmetry. apply history_of_touched. }
          rewrite last_snoc, removelast_last. reflexivity. }
      cbn beta.
      match goal with
      | |- context [(write_file p x ≫= _) ?w0] =>
          destruct (write_file p x w0) as [[e0|[]] w2] eqn:Ew;
          pose proof (write_file_inv _ _ _ _ _ Ew) as Hinv; cbn beta iota in Hinv
      end.
      * rewrite (bind_inl _ _ _ _ _ Ew). intros [= <- <-]. by destruct Hinv as [_ ?].
      * by destruct Hinv as [_ []].
    + destruct (undo_edit_pop w p l x raw Eh Hc Hro) as (res & Hr & _). congruence.
Qed.

(** A call that fails otherwise than in a read or a write, and otherwise
    than by [empty_separator], leaves every file and every stack as it
    was. *)
Lemma call_failure_outcome r w e w1 :
  __call__ r w = (inl e, w1) →
  e ≠ empty_separator → (∀ m, e ≠ ToolError (py "Ran into " ++ m)) →
  fs w1 = fs w ∧ ∀ q, history_of w1 q = history_of w q.
Proof.
  intros Hcall Hsep Hio.
  pose proof (call_outcome r w) as Hout. cbv zeta in Hout. rewrite Hcall in Hout.
  destruct (Hout Hsep) as (Hfs & _ & Hh). split; [done|].
  destruct (decide (command r = undo_edit_cmd)) as [Hu|Hu]; [|by apply Hh].
  revert Hcall. unfold __call__. cbv zeta. rewrite Hu.
  destruct (validate_path_run undo_edit_cmd (req_path r) w) as (rv & Ev & Hv).
  destruct rv as [e0|[]].
  { rewrite (bind_inl _ _ _ _ _ Ev). by intros [= <- <-]. }
  rewrite (bind_inr _ _ _ _ _ Ev). intros Hrun.
  destruct (Hv eq_refl) as (_ & Hex & Hdir).
  rewrite decide_False in Hex by done. specialize (Hdir ltac:(done)).
  assert (∃ raw, content_of w (req_path r) = Some raw) as [raw Hc].
  { unfold content_of. destruct Hex as [[c|] Hx]; rewrite Hx in *; [eauto|done]. }
  destruct (undo_edit_failure w (req_path r) raw e w1 Hc Hrun) as [[m ->]|[_ Hsame]];
    [by destruct (Hio m) | done].
Qed.

(** C5, as the code has it.  A [create], [str_replace] or [insert] that
    returns has pushed exactly one entry, on the stack of its path: for
    [str_replace] and [insert] on a file without carriage return, the text
    the file had before with its tabs expanded (the text itself when it
    holds no tab either); for [create], where the path held nothing
    before, the text just written.  A command with linting off that
    raises an error other than [empty_separator] and other than the
    [Ran into ...] by which [read_file] and [write_file] report a failed
    read or write has changed no file and no stack. *)
Theorem history_entry_per_command r w :
  let p := req_path r in
  match __call__ r w with
  | (inr res, w') =>
      mutating (command r) = true →
      ∃ entry t, pushed p entry t w w'
        ∧ match command r with
          | create_cmd => file_text r = Some entry ∧ content_of w p = None
          | _ => ∃ raw, content_of w p = Some raw
                        ∧ (CR ∉ raw →
                           entry = expandtabs raw ∧ (TAB ∉ raw → entry = raw))
          end
  | (inl e, w') =>
      e ≠ empty_separator → (∀ m, e ≠ ToolError (py "Ran into " ++ m)) →
      enable_linting r = false →
      fs w' = fs w ∧ ∀ q, history_of w' q = history_of w q
  end.
Proof.
  intros p. pose proof (call_outcome r w) as Hout. cbv zeta in Hout. fold p in Hout.
  destruct (__call__ r w) as [[e|res] w'] eqn:Hcall.
  { intros Hsep Hio _. by eapply call_failure_outcome. }
  intros Hm. rewrite Hm in Hout.
  destruct Hout as (_ & _ & entry & t & Hp & Hcmd).
  exists entry, t. split; [done|].
  destruct (command r); try done.
  - destruct Hcmd as (-> & _ & Hnone). split; [done|].
    unfold content_of. by rewrite Hnone.
  - destruct Hcmd as (raw & Hc & ->). exists raw. split; [done|]. intros _.
    split; [done|]. apply expandtabs_no_tab.
  - destruct Hcmd as (raw & Hc & ->). exists raw. split; [done|]. intros _.
    split; [done|]. apply expandtabs_no_tab.
Qed.

(** C6, as the code has it.  After a [create], [str_replace] or [insert]
    that returned, [undo_edit] on the same path returns, pops the entry
    that call pushed and writes it back: after [str_replace] and [insert]
    on a file without carriage return the file holds the text it had
    before with its tabs expanded, the very text when it held no tab
    either; after [create] the file stays, holding the text that was
    created. *)
Theorem undo_restores_snapshot r w res w1 :
  __call__ r w = (inr res, w1) → mutating (command r) = true →
  let p := req_path r in
  ∃ res2 w2, __call__ (undo_request p) w1 = (inr res2, w2)
    ∧ history_of w2 p = history_of w p
    ∧ match command r with
      | create_cmd => content_of w p = None ∧ content_of w2 p = file_text r
      | _ => ∃ raw, content_of w p = Some raw
                    ∧ (CR ∉ raw →
                       content_of w2 p = Some (expandtabs raw)
                       ∧ (TAB ∉ raw → content_of w2 p = content_of w p))
      end.
Proof.
  intros Hcall Hm p.
  pose proof (call_outcome r w) as Hout. cbv zeta in Hout. fold p in Hout.
  rewrite Hcall, Hm in Hout.
  destruct Hout as (Habs & Hro & entry & t & (Hfs & Hro1 & Hh & _) & Hcmd).
  assert (Hc1 : content_of w1 p = Some t).
  { unfold content_of. by rewrite Hfs, lookup_insert_eq. }
  destruct (undo_edit_pop w1 p (history_of w p) entry t Hh Hc1) as (res2 & Hu & _);
    [by rewrite Hro1|].
  eexists res2, _. split.
  { unfold __call__; cbn [undo_request command req_path].
    erewrite bind_inr by (by eapply validate_path_file). exact Hu. }
  split.
  { rewrite history_of_insert. by rewrite decide_True. }
  assert (Hc2 : ∀ f0 ro h lg,
    content_of (World (<[p := File entry]> f0) ro h lg) p = Some entry).
  { intros. unfold content_of; cbn [fs]. by rewrite lookup_insert_eq. }
  rewrite Hc2.
  destruct (command r); try done.
  - destruct Hcmd as (-> & _ & Hnone). split; [|done].
    unfold content_of. by rewrite Hnone.
  - destruct Hcmd as (raw & Hc & ->). exists raw. split; [done|]. intros _.
    split; [done|]. intros Hno. rewrite Hc. f_equal. by apply expandtabs_no_tab.
  - destruct Hcmd as (raw & Hc & ->). exists raw. split; [done|]. intros _.
    split; [done|]. intros Hno. rewrite Hc. f_equal. by apply expandtabs_no_tab.
Qed.

End Ledger.

(** C5 as stated fails on [create]: the path held nothing before the
    call, and the entry pushed is the text just written. *)
Lemma create_pushes_the_new_text :
  returns run_create
  ∧ content_of empty_disk (py "/f.txt") = None
  ∧ history_of run_create.2 (py "/f.txt") = [py "hello"]
  ∧ ¬ ∃ c, content_of empty_disk (py "/f.txt") = Some c
           ∧ history_of run_create.2 (py "/f.txt")
             = history_of empty_disk (py "/f.txt") ++ [c].
Proof.
  vm_compute. split; [by eexists|]. split; [done|]. split; [done|].
  by intros (c & ? & _).
Qed.

(** C6 as stated fails on [create]: before the call the path held nothing,
    after the call and its undo it holds the created text.  It also fails,
    byte for byte, on a file with a tab: the undo writes the text with the
    tab expanded. *)
Lemma undo_after_create_keeps_the_file :
  returns run_create
  ∧ returns run_create_undo
  ∧ content_of empty_disk (py "/f.txt") = None
  ∧ content_of run_create_undo.2 (py "/f.txt") = Some (py "hello")
  ∧ content_of run_create_undo.2 (py "/f.txt") ≠ content_of empty_disk (py "/f.txt")
  ∧ returns run_tab_replace
  ∧ returns run_tab_undo
  ∧ content_of tab_world a_txt = Some ([TAB] ++ py "x")
  ∧ content_of run_tab_undo.2 a_txt = Some (py "        x")
  ∧ content_of run_tab_undo.2 a_txt ≠ content_of tab_world a_txt.
Proof.
  vm_compute. split; [by eexists|]. split; [by eexists|].
  do 3 (split; [done|]). split; [by eexists|]. split; [by eexists|]. done.
Qed.

Lemma history_entry_per_command_witness :
  (∃ res w',
     __call__ (env := plain_env)
       (str_replace_request test_txt (py "test file") (Some (py "sample file")) no_kwargs)
       test_world = (inr res, w')
     ∧ history_of w' test_txt
       = [text [py "This is a test file."; py "This file is for testing purposes."]])
  ∧ ∃ e w',
      __call__ (env := plain_env)
        (str_replace_request test_txt (py "zzz") (Some (py "y")) no_kwargs)
        test_world = (inl e, w')
      ∧ fs w' = fs test_world
      ∧ ∀ q, history_of w' q = history_of test_world q.
Proof.
  split.
  - pose proof (history_entry_per_command (env := plain_env)
      (str_replace_request test_txt (py "test file") (Some (py "sample file")) no_kwargs)
      test_world) as Hthm.
    cbv zeta in Hthm.
    destruct (__call__ _ test_world) as [[e|res] w'] eqn:Ecall.
    + exfalso. vm_compute in Ecall. discriminate Ecall.
    + exists res, w'. split; [done|].
      destruct (Hthm eq_refl) as (entry & t & (_ & _ & Hh & _) & raw & Hc & Hentry).
      injection Hc as <-.
      destruct Hentry as [-> _]; [apply (bool_decide_unpack _); by vm_compute|].
      etrans; [exact Hh|]. reflexivity.
  - pose proof (history_entry_per_command (env := plain_env)
      (str_replace_request test_txt (py "zzz") (Some (py "y")) no_kwargs)
      test_world) as Hthm.
    cbv zeta in Hthm.
    destruct (__call__ _ test_world) as [[e|res] w'] eqn:Ecall.
    + exists e, w'. split; [done|].
      vm_compute in Ecall. injection Ecall as <- <-.
      apply Hthm.
      * intros [=].
      * intros m Hm. apply (f_equal message) in Hm. vm_compute in Hm.
        discriminate Hm.
      * reflexivity.
    + exfalso. vm_compute in Ecall. discriminate Ecall.
Defined.

Lemma undo_restores_snapshot_witness :
  ∃ res w1,
    __call__ (env := plain_env)
      (str_replace_request test_txt (py "test file") (Some (py "sample file")) no_kwargs)
      test_world = (inr res, w1)
    ∧ ∃ res2 w2,
        __call__ (env := plain_env) (undo_request test_txt) w1 = (inr res2, w2)
        ∧ content_of w2 test_txt = content_of test_world test_txt.
Proof.
  destruct (__call__ (env := plain_env)
    (str_replace_request test_txt (py "test file") (Some (py "sample file")) no_kwargs)
    test_world) as [[e|res] w1] eqn:Ecall.
  - exfalso. vm_compute in Ecall. discriminate Ecall.
  - exists res, w1. split; [done|].
    destruct (undo_restores_snapshot (env := plain_env) _ _ _ _ Ecall eq_refl)
      as (res2 & w2 & Hu & _ & raw & Hc & Hback).
    exists res2, w2. split; [exact Hu|]. injection Hc as <-.
    destruct Hback as [_ Hno]; [apply (bool_decide_unpack _); by vm_compute|].
    apply Hno. apply (bool_decide_unpack _). by vm_compute.
Defined.

(** ** The first occurrence, literal: where the code and its error message
    part ways *)

Section FirstOccurrence.
Context {env : Env}.

(** Without selector and without [regex], the new text is decided by the
    number of non-overlapping occurrences that [count] reports. *)
Lemma first_occurrence_literal p content old new lines kw w :
  line_all kw = false → line_numbers kw = [] → line_range kw = [] →
  regex kw = false →
  replaced_content p content old new lines kw w
  = if count content old =? 0 then (inl (ToolError (msg_not_found old p)), w)
    else if 1 <? count content old then
      match occurrence_lines content old with
      | Some line_numbers => (inl (ToolError (msg_multiple old line_numbers)), w)
      | None => (inl (Exn RecursionError_class (py "loop bound exceeded")), w)
      end
    else (inr (replace content old new), w).
Proof.
  intros Ha Hn Hr Hx. unfold replaced_content. rewrite Ha, Hn, Hr, Hx.
  cbn [negb truthy].
  destruct (count content old =? 0); [done|].
  destruct (1 <? count content old); [|done].
  by destruct (occurrence_lines content old).
Qed.

Lemma find_at_range sub s i j : find_at sub s i = Some j → (i ≤ j ≤ i + length s)%nat.
Proof.
  revert i. induction s as [|c t IH]; intros i; cbn [find_at].
  - destruct (startswith [] sub); [|done]. intros [= <-]. simpl. lia.
  - destruct (startswith (c :: t) sub).
    + intros [= <-]. simpl. lia.
    + intros Hf. apply IH in Hf. simpl. lia.
Qed.

Lemma find_range s sub start :
  0 ≤ start → find s sub start = -1 ∨ start ≤ find s sub start ≤ Z.of_nat (length s).
Proof.
  intros Hs. unfold find. rewrite (proj2 (Z.ltb_ge start 0)) by lia.
  destruct (Z.ltb_spec (Z.of_nat (length s)) start); [by left|].
  destruct (find_at sub (drop (Z.to_nat start) s) (Z.to_nat start)) as [j|] eqn:Ef;
    [|by left].
  right. apply find_at_range in Ef. rewrite length_drop in Ef. lia.
Qed.

(** The loop always ends within its bound: [RecursionError] is never
    raised. *)
Lemma occurrence_lines_loop_total fuel content old start acc :
  0 ≤ start ≤ Z.of_nat (length content) + 1 →
  (1 ≤ fuel)%nat → Z.of_nat (length content) + 2 - start ≤ Z.of_nat fuel →
  is_Some (occurrence_lines_loop fuel content old start acc).
Proof.
  revert start acc. induction fuel as [|fuel IH]; intros start acc Hs H1 Hf; [lia|].
  cbn [occurrence_lines_loop].
  destruct (find_range content old start) as [->|Hr]; [lia|done|].
  destruct (Z.eqb_spec (find content old start) (-1)); [done|].
  apply IH; lia.
Qed.

Lemma occurrence_lines_total content old : is_Some (occurrence_lines content old).
Proof. apply occurrence_lines_loop_total; lia. Qed.

(** Not found: the error names the text searched and the path. *)
Lemma first_occurrence_not_found p content old new lines kw w :
  line_all kw = false → line_numbers kw = [] → line_range kw = [] →
  regex kw = false → count content old = 0 →
  replaced_content p content old new lines kw w
  = (inl (ToolError (msg_not_found old p)), w).
Proof.
  intros. rewrite first_occurrence_literal by done.
  by replace (count content old) with 0.
Qed.

(** Counted once: the text with that occurrence replaced. *)
Lemma first_occurrence_once p content old new lines kw w :
  line_all kw = false → line_numbers kw = [] → line_range kw = [] →
  regex kw = false → count content old = 1 →
  replaced_content p content old new lines kw w
  = (inr (replace content old new), w).
Proof.
  intros. rewrite first_occurrence_literal by done.
  by replace (count content old) with 1.
Qed.

(** With a regular expression and no selector, [re.sub] is called on the
    whole text with [count = 1] and without [re.DOTALL]. *)
Lemma first_occurrence_regex p content old new lines kw w :
  line_all kw = false → line_numbers kw = [] → line_range kw = [] →
  regex kw = true →
  replaced_content p content old new lines kw w
  = lift_re (re_sub old new content 1 false) w.
Proof.
  intros Ha Hn Hr Hx. unfold replaced_content. by rewrite Ha, Hn, Hr, Hx.
Qed.

End FirstOccurrence.

(** C1 fails on the code.  In [aaaa] the text [aa] is counted twice by
    [count], which decides that the match is ambiguous, but the loop that
    lists the lines restarts one character after each find and reports
    three places.  The same happens with two empty lines in a row, an
    [old_str] of two line feeds in a text with four: two occurrences
    counted, three lines listed. *)
Theorem ambiguous_match_lists_overlapping_starts :
  count (py "aaaa") (py "aa") = 2
  ∧ raises (str_replace (env := plain_env) a_txt (py "aa") (Some (py "b")) false
              no_kwargs (one_file a_txt (py "aaaa")))
      (ToolError (msg_multiple (py "aa") [1; 1; 1]))
  ∧ count (py "x" ++ [NL; NL; NL; NL] ++ py "y") [NL; NL] = 2
  ∧ raises (str_replace (env := plain_env) a_txt [NL; NL] (Some [NL]) false
              no_kwargs (one_file a_txt (py "x" ++ [NL; NL; NL; NL] ++ py "y")))
      (ToolError (msg_multiple [NL; NL] [1; 2; 3])).
Proof. by vm_compute. Qed.

(** C8 fails on the code.  With [regex] and no selector the first match
    only is replaced, but [.] does not match a line feed: [a.b] finds
    nothing in the two lines [a], [b], and the file is written back as it
    was; under [re.DOTALL], which the code passes on every other path, the
    same call of [re.sub] replaces the match, as the [line_all] path
    does. *)
Theorem first_occurrence_regex_dot_stops_at_newline :
  returns (run_dot_pattern regex_only)
  ∧ content_of (run_dot_pattern regex_only).2 a_txt = Some (py "a" ++ [NL] ++ py "b")
  ∧ MiniRe.sub (py "a.b") (py "X") (py "a" ++ [NL] ++ py "b") 1 true = inr (py "X")
  ∧ returns (run_dot_pattern (line_all_only true))
  ∧ content_of (run_dot_pattern (line_all_only true)).2 a_txt = Some (py "X").
Proof. vm_compute. split; [by eexists|]. repeat split; try done. by eexists. Qed.

(** ** The loops over lines *)

Lemma mentions_cons i l k :
  mentions (i :: l) k = ((if decide (i = k) then 1 else 0) + mentions l k)%nat.
Proof. unfold mentions. rewrite filter_cons. by case_decide. Qed.

Lemma mentions_zero l k : k ∉ l → mentions l k = 0%nat.
Proof.
  induction l as [|i l IH]; [done|]. intros [Hne Hni]%not_elem_of_cons.
  rewrite mentions_cons, IH by done. by rewrite decide_False.
Qed.

Lemma mentions_shift l k : mentions ((λ i, i - 1) <$> l) k = mentions l (k + 1).
Proof.
  induction l as [|i l IH]; [done|].
  rewrite fmap_cons, !mentions_cons, IH.
  destruct (decide (i - 1 = k)), (decide (i = k + 1)); lia.
Qed.

Lemma iter_sub_fixed n f x : f x = inr x → iter_sub n f x = inr x.
Proof. intros Hf. induction n as [|n IH]; cbn [iter_sub]; [done|]. by rewrite Hf. Qed.

Section LineLoops.
Context {env : Env}.

Lemma iter_sub_literal n old new x :
  iter_sub n (line_sub false old new) x
  = inr (Nat.iter n (λ l, replace l old new) x).
Proof.
  revert x. induction n as [|n IH]; intros x; [done|].
  rewrite Nat.iter_succ_r. cbn [iter_sub line_sub]. apply IH.
Qed.

(** One turn of the loop on a line inside the file. *)
Lemma replace_on_line_run rg old new ls i x w :
  0 ≤ i → ls !! Z.to_nat i = Some x →
  replace_on_line rg old new ls i w
  = match line_sub rg old new x with
    | inl m => (inl (Exn re_error_class m), w)
    | inr y => (inr (<[Z.to_nat i := y]> ls), w)
    end.
Proof.
  intros Hi Hx. pose proof (lookup_lt_Some _ _ _ Hx) as Hlt.
  unfold replace_on_line. rewrite (proj2 (Z.ltb_lt i _)) by lia.
  assert (Hidx : index_of ls i = Some (Z.to_nat i)).
  { unfold index_of. rewrite (proj2 (Z.leb_le 0 i)), (proj2 (Z.ltb_lt i _)) by lia.
    done. }
  unfold getitem, setitem. rewrite Hidx. cbn [mbind option_bind]. rewrite Hx.
  unfold line_sub, mbind, M_bind, bind, mret, M_ret, ret.
  destruct rg; [|done].
  by destruct (re_sub old new x 0 true).
Qed.

(** The loop over the lines [idxs], all inside the file: either a
    [re.sub] raised, or every line has been substituted as often as it is
    named, and the other lines are as before. *)
Lemma for_each_replace_on_line rg old new idxs ls w :
  (∀ i, i ∈ idxs → 0 ≤ i < Z.of_nat (length ls)) →
  match for_each idxs (replace_on_line rg old new) ls w with
  | (inr ls', w') =>
      w' = w ∧ length ls' = length ls
      ∧ ∀ j x, ls !! j = Some x →
          ∃ y, ls' !! j = Some y
            ∧ iter_sub (mentions idxs (Z.of_nat j)) (line_sub rg old new) x = inr y
  | (inl e, w') => w' = w ∧ rg = true ∧ exn_class e = re_error_class
  end.
Proof.
  revert ls. induction idxs as [|i idxs IH]; intros ls Hin.
  - cbn. split; [done|]. split; [done|]. intros j x Hx. by exists x.
  - assert (Hi : 0 ≤ i < Z.of_nat (length ls)) by (apply Hin, elem_of_cons; auto).
    destruct (lookup_lt_is_Some_2 ls (Z.to_nat i)) as [xi Hxi]; [lia|].
    cbn [for_each]. unfold mbind, M_bind, bind.
    rewrite (replace_on_line_run rg old new ls i xi w) by (lia || done).
    destruct (line_sub rg old new xi) as [m|yi] eqn:Esub.
    { split; [done|]. split; [|done]. unfold line_sub in Esub. by destruct rg. }
    specialize (IH (<[Z.to_nat i := yi]> ls)).
    destruct (for_each idxs (replace_on_line rg old new) (<[Z.to_nat i := yi]> ls) w)
      as [[e|ls'] w'].
    { apply IH. intros k Hk. rewrite length_insert. apply Hin, elem_of_cons; auto. }
    destruct IH as (-> & Hlen & Hls).
    { intros k Hk. rewrite length_insert. apply Hin, elem_of_cons; auto. }
    split; [done|]. rewrite length_insert in Hlen. split; [done|].
    intros j x Hx. rewrite mentions_cons.
    destruct (decide (i = Z.of_nat j)) as [->|Hne].
    + rewrite Nat2Z.id in *. rewrite Hxi in Hx. injection Hx as <-.
      destruct (Hls j yi) as (y & Hy & Hit).
      { apply list_lookup_insert_eq. by apply lookup_lt_Some in Hxi. }
      exists y. split; [done|]. cbn [Nat.add iter_sub]. by rewrite Esub.
    + destruct (Hls j x) as (y & Hy & Hit).
      { rewrite list_lookup_insert_ne by lia. done. }
      exists y. done.
Qed.

End LineLoops.

(** ** A text that does not hold the needle *)

Lemma startswith_app s post sub :
  startswith s sub = true → startswith (s ++ post) sub = true.
Proof.
  revert s. induction sub as [|c sub IH]; intros s;
    [intros _; by destruct (s ++ post)|].
  destruct s as [|d s]; [done|]. cbn [startswith app].
  intros [Hc Hs]%andb_true_iff. rewrite Hc. cbn [andb]. by apply IH.
Qed.

Lemma count_scan_zero sub s :
  sub ≠ [] → count_scan sub 0 s = 0%nat → ∀ k, startswith (drop k s) sub = false.
Proof.
  intros Hsub. induction s as [|c t IH]; intros Hz k.
  - rewrite drop_nil. by destruct sub.
  - cbn [count_scan] in Hz. destruct (startswith (c :: t) sub) eqn:Es; [done|].
    destruct k as [|k]; [done|]. cbn [drop]. by apply IH.
Qed.

Lemma replace_scan_none old new s :
  (∀ k, startswith (drop k s) old = false) → replace_scan old new 0 s = s.
Proof.
  induction s as [|c t IH]; intros Hno; [done|].
  pose proof (Hno 0%nat) as H0. cbn [drop] in H0.
  cbn [replace_scan]. rewrite H0. f_equal. apply IH.
  intros k. apply (Hno (S k)).
Qed.

Lemma no_match_part pre x post sub :
  sub ≠ [] →
  (∀ k, startswith (drop k (pre ++ x ++ post)) sub = false) →
  ∀ k, startswith (drop k x) sub = false.
Proof.
  intros Hsub Hno k.
  destruct (decide (k ≤ length x)%nat) as [Hk|Hk].
  - specialize (Hno (length pre + k)%nat).
    rewrite drop_app_add', drop_app_le in Hno by lia.
    destruct (startswith (drop k x) sub) eqn:Es; [|done].
    by rewrite (startswith_app _ _ _ Es) in Hno.
  - rewrite drop_ge by lia. by destruct sub.
Qed.

(** When [old] does not occur in the text, replacing it in any line of the
    text changes nothing. *)
Lemma replace_in_line_noop content old new x :
  count content old = 0 → x ∈ split content [NL] → replace x old new = x.
Proof.
  intros Hc Hx. unfold count in Hc. destruct old as [|c old]; [lia|].
  unfold replace. apply replace_scan_none.
  destruct (join_elem [NL] _ _ Hx) as (pre & post & Hj).
  rewrite join_split_nl in Hj.
  eapply (no_match_part pre x post); [done|]. rewrite <- Hj.
  apply count_scan_zero; [done|lia].
Qed.

(** ** Every occurrence, literal: lines cut by splitlines *)

Lemma startswith_elem s sub c : startswith s sub = true → c ∈ sub → c ∈ s.
Proof.
  revert s. induction sub as [|d sub IH]; intros s Hs Hc; [by apply elem_of_nil in Hc|].
  destruct s as [|e s]; [done|]. cbn [startswith] in Hs.
  apply andb_true_iff in Hs as [He%N.eqb_eq Hs]. subst e.
  apply elem_of_cons in Hc as [->|Hc]; apply elem_of_cons; [by left|].
  right. by apply IH.
Qed.

(** A needle with a line feed in it is found nowhere in a text that has
    none. *)
Lemma replace_without_newline x old new : NL ∈ old → NL ∉ x → replace x old new = x.
Proof.
  intros Hold Hx. unfold replace. destruct old as [|c old]; [by apply elem_of_nil in Hold|].
  apply replace_scan_none. intros k.
  destruct (startswith (drop k x) (c :: old)) eqn:Es; [|done].
  exfalso. apply Hx. apply (subseteq_drop k x). by eapply startswith_elem.
Qed.

Lemma linebreak_pieces_clean after_cr s :
  Forall (λ x, NL ∉ x) (linebreak_pieces after_cr s).
Proof.
  revert after_cr. induction s as [|c t IH]; intros after_cr; cbn [linebreak_pieces].
  - repeat constructor. by intros ?%elem_of_nil.
  - destruct (after_cr && (c =? NL)%N); [apply IH|].
    destruct (is_linebreak c) eqn:Ec.
    + constructor; [by intros ?%elem_of_nil | apply IH].
    + specialize (IH false).
      destruct (linebreak_pieces false t) as [|h r]; inversion IH; subst.
      * repeat constructor. intros Hc%list_elem_of_singleton. subst c.
        by vm_compute in Ec.
      * constructor; [|done]. intros [Hc|?]%elem_of_cons; [|done]. subst c.
        by vm_compute in Ec.
Qed.

Lemma splitlines_clean s : Forall (λ x, NL ∉ x) (splitlines s).
Proof.
  unfold splitlines. pose proof (linebreak_pieces_clean false s) as Hp.
  destruct (last (linebreak_pieces false s)) as [[|c x]|]; try done.
  apply Forall_forall. intros x Hx. rewrite Forall_forall in Hp. apply Hp.
  apply list_elem_of_In. apply list_elem_of_In in Hx.
  clear Hp. induction (linebreak_pieces false s) as [|a [|b r] IH]; [done..|].
  destruct Hx as [->|Hx]; [by left | right; by apply IH].
Qed.

Section EveryOccurrence.
Context {env : Env}.

(** Under [line_all] a literal [old_str] with a line feed in it matches in
    no line, as the design has it: what is written is the text cut by
    [splitlines] and joined again. *)
Lemma line_all_literal_multiline p content old new lines kw w :
  line_all kw = true → regex kw = false → NL ∈ old →
  replaced_content p content old new lines kw w
  = (inr (join [NL] (splitlines content)), w).
Proof.
  intros Ha Hr Hold. unfold replaced_content. rewrite Ha, Hr. cbn [negb].
  assert (Hmap : (λ line, replace line old new) <$> splitlines content
                 = splitlines content).
  { pose proof (splitlines_clean content) as Hc.
    induction Hc as [|x l Hx Hl IH]; [done|].
    rewrite fmap_cons, IH. f_equal. by apply replace_without_newline. }
  by rewrite Hmap.
Qed.

End EveryOccurrence.

(** C4 fails on the code.  Under [line_all] a literal [old_str] with a
    line feed in it matches nothing, but the text is cut by [splitlines],
    not by [split('\n')] as everywhere else: the line feed that ends the
    file is lost, and a carriage return becomes a line feed. *)
Theorem line_all_literal_loses_the_final_newline :
  returns (run_multiline_line_all (py "a" ++ [NL]))
  ∧ content_of (run_multiline_line_all (py "a" ++ [NL])).2 a_txt = Some (py "a")
  ∧ content_of (run_multiline_line_all (py "a" ++ [NL])).2 a_txt ≠ Some (py "a" ++ [NL])
  ∧ returns (run_multiline_line_all (py "a" ++ [CR; NL] ++ py "b"))
  ∧ content_of (run_multiline_line_all (py "a" ++ [CR; NL] ++ py "b")).2 a_txt
    = Some (py "a" ++ [NL] ++ py "b").
Proof. vm_compute. split; [by eexists|]. repeat split; try done. by eexists. Qed.

(** ** The selectors by line *)

Section LineSelectors.
Context {env : Env}.

Lemma names_violation_invalid n kw m : names_violation n kw m → ¬ valid_lines n kw.
Proof.
  assert (Hb : ∀ pattern l, bound_violation n pattern l m → ¬ in_bounds n l).
  { intros pattern l (v & Hin & Hout & _) Hall. by apply Hout, Hall. }
  assert (Ho : ∀ pattern l, order_violation pattern l m → ¬ ordered l).
  { intros pattern l (s0 & e0 & -> & Hlt & _) Hord.
    specialize (Hord s0 e0 eq_refl). lia. }
  unfold names_violation, valid_lines.
  intros [?%Hb|[[?%Hb|?%Ho]|[?%Hb|[?%Hb|?%Ho]]]]; tauto.
Qed.

Lemma validate_line_parameters_ok kw n w :
  valid_lines n kw → range_shaped (line_range kw) → range_shaped (delete_range kw) →
  validate_line_parameters kw n w = (inr (), w).
Proof.
  intros Hv Hs1 Hs2.
  destruct (validate_line_parameters_run kw n w) as (r & Er & Hr).
  destruct r as [e|[]]; [|done].
  destruct Hr as [(m & _ & Hm)|[_ Hns]]; [|tauto].
  by apply names_violation_invalid in Hm.
Qed.

(** An index of [line_numbers] out of bounds is what the validation meets
    first. *)
Lemma validate_line_numbers_first kw n w :
  ¬ in_bounds n (line_numbers kw) →
  ∃ m, validate_line_parameters kw n w = (inl (ToolError m), w)
       ∧ bound_violation n (py "line number") (line_numbers kw) m.
Proof.
  intros Hout. unfold validate_line_parameters.
  destruct (bounds_check_run (py "line number") (line_numbers kw) n w)
    as (r & Er & Hr).
  destruct r as [e|[]]; [|done].
  destruct Hr as (m & -> & Hm). exists m. split; [|done]. by apply bind_inl.
Qed.

Lemma selected_lines_in_bounds kw n :
  valid_lines n kw → ∀ i, i ∈ selected_lines kw → 0 ≤ i < n.
Proof.
  intros (Hn & (Hr & Ho) & _) i. unfold selected_lines.
  destruct (truthy (line_numbers kw)).
  - intros (k & -> & Hk)%list_elem_of_fmap. specialize (Hn k Hk). lia.
  - destruct (line_range kw) as [|s0 [|e0 [|c r]]]; try by intros ?%elem_of_nil.
    unfold range. intros Hi%elem_of_seqZ.
    assert (1 ≤ s0 ≤ n) by (apply Hr, elem_of_cons; auto).
    assert (1 ≤ e0 ≤ n) by (apply Hr; rewrite !elem_of_cons; auto).
    lia.
Qed.

(** With [line_numbers] or [line_range], [line_all] off and nothing to
    delete, the new text is the join of the lines after the loop. *)
Lemma resolved_text_by_line p content old new kw w :
  truthy (delete_lines kw) = false → truthy (delete_range kw) = false →
  line_all kw = false →
  truthy (line_numbers kw) = true ∨ (∃ s0 e0, line_range kw = [s0; e0]) →
  resolved_text p content old new kw w
  = (ls ← for_each (selected_lines kw) (replace_on_line (regex kw) old new)
            (split content [NL]);
     mret (join [NL] ls)) w.
Proof.
  intros Hd1 Hd2 Ha Hsel. unfold resolved_text, replaced_content, selected_lines.
  rewrite Hd1, Hd2, Ha. cbn [negb].
  destruct (truthy (line_numbers kw)) eqn:En; [done|].
  destruct Hsel as [|(s0 & e0 & ->)]; [done|]. done.
Qed.

Lemma by_line_outcome p content old new kw w :
  truthy (delete_lines kw) = false → truthy (delete_range kw) = false →
  line_all kw = false →
  truthy (line_numbers kw) = true ∨ (∃ s0 e0, line_range kw = [s0; e0]) →
  valid_lines (Z.of_nat (length (split content [NL]))) kw →
  match resolved_text p content old new kw w with
  | (inr t, w') =>
      w' = w
      ∧ ∃ ls, t = join [NL] ls ∧ length ls = length (split content [NL])
          ∧ ∀ j x, split content [NL] !! j = Some x →
              ∃ y, ls !! j = Some y
                ∧ iter_sub (mentions (selected_lines kw) (Z.of_nat j))
                    (line_sub (regex kw) old new) x = inr y
  | (inl e, w') => w' = w ∧ regex kw = true ∧ exn_class e = re_error_class
  end.
Proof.
  intros Hd1 Hd2 Ha Hsel Hv.
  rewrite resolved_text_by_line by done.
  pose proof (for_each_replace_on_line (regex kw) old new (selected_lines kw)
                (split content [NL]) w (selected_lines_in_bounds kw _ Hv)) as Hloop.
  unfold mbind, M_bind, bind.
  destruct (for_each _ _ _ w) as [[e|ls] w']; [done|].
  destruct Hloop as (-> & Hlen & Hls). split; [done|]. by exists ls.
Qed.

(** What [line_numbers] does.  With [line_numbers] given, [line_all] off and
    nothing to delete: a line number outside [1..n] is not skipped, the
    validation rejects the call with an error that names it, and nothing
    changes.  With every line number in [1..n] (and a valid [line_range],
    if one is given), on a writable file, either [re.sub] raises and
    nothing changes, or the file is written with as many lines as before:
    a line that is not named is as it was, a named line has had the
    substitution applied once for every time it is named, and the call
    returns unless [old_str] is empty. *)
Theorem line_numbers_substitution w p raw old new lint kw :
  content_of w p = Some raw →
  truthy (line_numbers kw) = true → delete_lines kw = [] → delete_range kw = [] →
  line_all kw = false →
  let content := expandtabs raw in
  let old' := expandtabs old in
  let new' := match new with Some s => expandtabs s | None => [] end in
  let lines := split content [NL] in
  let n := Z.of_nat (length lines) in
  (¬ in_bounds n (line_numbers kw) →
     ∃ v w', v ∈ line_numbers kw ∧ ¬ (1 ≤ v ≤ n)
       ∧ str_replace p old new lint kw w
         = (inl (ToolError (msg_line_bounds (py "line number") v n)), w')
       ∧ fs w' = fs w ∧ ∀ q, history_of w' q = history_of w q)
  ∧ (in_bounds n (line_numbers kw) →
     in_bounds n (line_range kw) → ordered (line_range kw) →
     range_shaped (line_range kw) → p ∉ readonly w →
     (regex kw = true
      ∧ ∃ e w', str_replace p old new lint kw w = (inl e, w')
          ∧ exn_class e = re_error_class ∧ fs w' = fs w)
     ∨ ∃ lines',
         (str_replace p old new lint kw w).2 = committed p content (join [NL] lines') w
         ∧ length lines' = length lines
         ∧ (∀ j x, lines !! j = Some x →
              ∃ y, lines' !! j = Some y
                ∧ iter_sub (mentions (line_numbers kw) (Z.of_nat j + 1))
                    (line_sub (regex kw) old' new') x = inr y)
         ∧ (∀ j, Z.of_nat j + 1 ∉ line_numbers kw → lines' !! j = lines !! j)
         ∧ (regex kw = false →
            ∀ j, lines' !! j
                 = Nat.iter (mentions (line_numbers kw) (Z.of_nat j + 1))
                     (λ l, replace l old' new') <$> lines !! j)
         ∧ (old' ≠ [] → returns (str_replace p old new lint kw w))).
Proof.
  intros Hc Hln Hdl Hdr Hall content old' new' lines n.
  pose proof (str_replace_cases w p raw old new lint kw Hc) as Hcases.
  cbv zeta in Hcases. fold content old' new' lines n in Hcases.
  split.
  - intros Hout.
    destruct (validate_line_numbers_first kw n (log_io (ReadText p) w) Hout)
      as (m & Em & v & Hv & Hvn & ->).
    exists v, (log_io (ReadText p) w).
    destruct Hcases as [(e & Ee & ->)|[Eok _]]; [|congruence].
    rewrite Em in Ee. injection Ee as <-. done.
  - intros Hb Hrb Hro Hrs Hw.
    assert (Hv : valid_lines n kw).
    { unfold valid_lines. rewrite Hdl, Hdr.
      split; [done|]. split; [done|].
      split; [by intros ? ?%elem_of_nil|].
      split; [by intros ? ?%elem_of_nil | by intros ?? [=]]. }
    assert (Hd1 : truthy (delete_lines kw) = false) by by rewrite Hdl.
    assert (Hd2 : truthy (delete_range kw) = false) by by rewrite Hdr.
    pose proof (by_line_outcome p content old' new' kw (log_io (ReadText p) w)
                  Hd1 Hd2 Hall (or_introl Hln) Hv) as Hloop.
    destruct Hcases as [(e & Ee & _)|[_ Hcases]].
    { rewrite validate_line_parameters_ok in Ee; [done..|]. rewrite Hdr. by left. }
    destruct Hcases as [(e & Er & ->)|(t & Er & Hcases)].
    { rewrite Er in Hloop. destruct Hloop as (_ & Hrg & Hcl). left.
      split; [done|]. by exists e, (log_io (ReadText p) w). }
    rewrite Er in Hloop. destruct Hloop as (_ & ls & -> & Hlen & Hls).
    right. exists ls.
    assert (Hsel : ∀ j, mentions (selected_lines kw) (Z.of_nat j)
                        = mentions (line_numbers kw) (Z.of_nat j + 1)).
    { intros j. unfold selected_lines. rewrite Hln. apply mentions_shift. }
    assert (Hworld : (str_replace p old new lint kw w).2
                     = committed p content (join [NL] ls) w
                     ∧ (old' ≠ [] → returns (str_replace p old new lint kw w))).
    { destruct Hcases as [(e & Hro' & _)|(_ & [(_ & Ho & ->)|(_ & res & -> & _)])];
        [done| |].
      - split; [done|]. intros Hne. done.
      - split; [done|]. intros _. by exists res. }
    destruct Hworld as [Hw1 Hw2].
    split; [done|]. split; [done|].
    assert (Hnamed : ∀ j x, lines !! j = Some x →
      ∃ y, ls !! j = Some y
        ∧ iter_sub (mentions (line_numbers kw) (Z.of_nat j + 1))
            (line_sub (regex kw) old' new') x = inr y).
    { intros j x Hx. destruct (Hls j x Hx) as (y & Hy & Hit).
      exists y. by rewrite <- Hsel. }
    split; [done|]. split; [|split; [|done]].
    + intros j Hj. destruct (lines !! j) as [x|] eqn:Ex.
      * destruct (Hnamed j x Ex) as (y & Hy & Hit).
        rewrite mentions_zero in Hit by done. injection Hit as <-. done.
      * apply lookup_ge_None. apply lookup_ge_None in Ex. unfold lines in Ex. lia.
    + intros Hrg j. destruct (lines !! j) as [x|] eqn:Ex.
      * destruct (Hnamed j x Ex) as (y & Hy & Hit).
        rewrite Hrg, iter_sub_literal in Hit. injection Hit as <-. done.
      * apply lookup_ge_None. apply lookup_ge_None in Ex. unfold lines in Ex. lia.
Qed.

End LineSelectors.

(** ** With a selector, no search for the first occurrence *)

Lemma head_py c s (x : str) : head (py (String c s) ++ x) = Some (N_of_ascii c).
Proof. done. Qed.

Section Selectors.
Context {env : Env}.

(** The two errors of the search for a single occurrence begin with [No
    replacement was performed]; none of the other messages does. *)
Lemma invalid_is_not_no_replacement m old' p :
  (∃ x, m = py "Invalid " ++ x) ∨ (∃ x, m = py "Ran into " ++ x) →
  ToolError m ≠ ToolError (msg_not_found old' p)
  ∧ ∀ l, ToolError m ≠ ToolError (msg_multiple old' l).
Proof.
  intros Hm. split; [|intros l]; intros Heq;
    apply (f_equal (λ e, head (message e))) in Heq; cbn [message ToolError] in Heq;
    unfold msg_not_found, msg_multiple in Heq; rewrite head_py in Heq;
    destruct Hm as [[x ->]|[x ->]]; rewrite head_py in Heq;
    vm_compute in Heq; discriminate Heq.
Qed.

Lemma class_is_not_no_replacement e old' p :
  exn_class e ≠ ToolError_class →
  e ≠ ToolError (msg_not_found old' p) ∧ ∀ l, e ≠ ToolError (msg_multiple old' l).
Proof. intros Hc. split; [|intros l]; intros ->; by apply Hc. Qed.

Lemma names_violation_invalid_message n kw m :
  names_violation n kw m → ∃ x, m = py "Invalid " ++ x.
Proof.
  assert (Hb : ∀ pattern l, bound_violation n pattern l m → ∃ x, m = py "Invalid " ++ x).
  { intros pattern l (v & _ & _ & ->). unfold msg_line_bounds. eauto. }
  assert (Ho : ∀ pattern l, order_violation pattern l m → ∃ x, m = py "Invalid " ++ x).
  { intros pattern l (s0 & e0 & _ & _ & ->). unfold msg_start_end. eauto. }
  unfold names_violation. intros [?|[[?|?]|[?|[?|?]]]]; eauto.
Qed.

Lemma shaped_truthy l : range_shaped l → truthy l = true → ∃ s0 e0, l = [s0; e0].
Proof. intros [->|?]; [done|eauto]. Qed.

(** With a selector and valid line parameters, computing the new text
    raises nothing but [re.error]. *)
Lemma resolved_text_with_selector p content old new kw w :
  selector_active kw = true →
  valid_lines (Z.of_nat (length (split content [NL]))) kw →
  range_shaped (line_range kw) → range_shaped (delete_range kw) →
  match resolved_text p content old new kw w with
  | (inl e, w') => w' = w ∧ regex kw = true ∧ exn_class e = re_error_class
  | (inr t, w') =>
      w' = w
      ∧ (truthy (delete_lines kw) = false → truthy (delete_range kw) = false →
         line_all kw = false → regex kw = false → count content old = 0 →
         t = content)
  end.
Proof.
  intros Hsel Hv Hs1 Hs2.
  destruct (truthy (delete_lines kw)) eqn:Hd1.
  { unfold resolved_text. rewrite Hd1. by split. }
  destruct (truthy (delete_range kw)) eqn:Hd2.
  { unfold resolved_text. rewrite Hd1, Hd2.
    destruct (shaped_truthy _ Hs2 Hd2) as (s0 & e0 & ->). by split. }
  destruct (line_all kw) eqn:Ha.
  { unfold resolved_text, replaced_content. rewrite Hd1, Hd2, Ha. cbn [negb].
    destruct (regex kw); [|by split].
    destruct (re_sub old new content 0 true); by split. }
  assert (Hby : truthy (line_numbers kw) = true ∨ ∃ s0 e0, line_range kw = [s0; e0]).
  { unfold selector_active in Hsel. rewrite Hd1, Hd2, Ha in Hsel.
    rewrite !orb_false_r in Hsel. apply orb_true_iff in Hsel as [?|Hr]; [by left|].
    right. by apply shaped_truthy. }
  pose proof (by_line_outcome p content old new kw w Hd1 Hd2 Ha Hby Hv) as Hout.
  destruct (resolved_text p content old new kw w) as [[e|t] w']; [done|].
  destruct Hout as (-> & ls & -> & Hlen & Hls). split; [done|].
  intros _ _ _ Hrg Hcount. etrans; [|apply join_split_nl]. f_equal.
  apply list_eq. intros j.
  destruct (split content [NL] !! j) as [x|] eqn:Ex.
  - destruct (Hls j x Ex) as (y & Hy & Hit). rewrite Hy.
    rewrite iter_sub_fixed in Hit; [by injection Hit as <-|].
    rewrite Hrg. cbn [line_sub]. f_equal.
    eapply replace_in_line_noop; [done|]. by eapply list_elem_of_lookup_2.
  - apply lookup_ge_None. apply lookup_ge_None in Ex. lia.
Qed.

(** C10, as the code has it.  With a selector, [str_replace] never raises
    the error of the text not found nor the error of the ambiguous match.
    When moreover the line parameters are valid, the file is writable and
    the literal [old_str] occurs nowhere, the call returns, the file is
    rewritten and its former text pushed on the history; under
    [line_numbers] or [line_range] the text written is the former text
    (tabs expanded), whereas [delete_lines] and [delete_range] write the
    text without the lines they select. *)
Theorem selector_never_not_found w p raw old new lint kw :
  content_of w p = Some raw → selector_active kw = true →
  let content := expandtabs raw in
  let old' := expandtabs old in
  let new' := match new with Some s => expandtabs s | None => [] end in
  let n := Z.of_nat (length (split content [NL])) in
  (∀ e w', str_replace p old new lint kw w = (inl e, w') →
     e ≠ ToolError (msg_not_found old' p) ∧ ∀ l, e ≠ ToolError (msg_multiple old' l))
  ∧ (count content old' = 0 → regex kw = false → valid_lines n kw →
     range_shaped (line_range kw) → range_shaped (delete_range kw) →
     p ∉ readonly w →
     ∃ res t, str_replace p old new lint kw w = (inr res, committed p content t w)
       ∧ new_content res = Some t
       ∧ resolved_text p content old' new' kw (log_io (ReadText p) w)
         = (inr t, log_io (ReadText p) w)
       ∧ (truthy (delete_lines kw) = false → truthy (delete_range kw) = false →
          line_all kw = false → t = content)).
Proof.
  intros Hc Hsel content old' new' n.
  pose proof (str_replace_cases w p raw old new lint kw Hc) as Hcases.
  cbv zeta in Hcases. fold content old' new' n in Hcases.
  destruct (validate_line_parameters_run kw n (log_io (ReadText p) w))
    as (rv & Ev & Hrv).
  split.
  - intros e w' Hrun.
    destruct Hcases as [(e0 & Ee & Hr)|[Eok Hcases]].
    + rewrite Hr in Hrun. injection Hrun as <- <-.
      rewrite Ee in Ev. injection Ev as <-.
      destruct Hrv as [(m & -> & Hm)|[Hcl _]].
      * apply invalid_is_not_no_replacement. left.
        by eapply names_violation_invalid_message.
      * apply class_is_not_no_replacement. by rewrite Hcl.
    + rewrite Eok in Ev. injection Ev as <-. destruct Hrv as (Hv & Hs1 & Hs2).
      pose proof (resolved_text_with_selector p content old' new' kw
                    (log_io (ReadText p) w) Hsel Hv Hs1 Hs2) as Hres.
      destruct Hcases as [(e0 & Er & Hr)|(t & Er & Hcases)].
      * rewrite Hr in Hrun. injection Hrun as <- <-. rewrite Er in Hres.
        destruct Hres as (_ & _ & Hcl). apply class_is_not_no_replacement.
        by rewrite Hcl.
      * destruct Hcases as [(e0 & _ & (m & ->) & Hr)|(_ & [(_ & _ & Hr)|(_ & res & Hr & _)])].
        -- rewrite Hr in Hrun. injection Hrun as <- <-.
           apply invalid_is_not_no_replacement. eauto.
        -- rewrite Hr in Hrun. injection Hrun as <- <-.
           by apply class_is_not_no_replacement.
        -- congruence.
  - intros Hcount Hrg Hv Hs1 Hs2 Hro.
    rewrite validate_line_parameters_ok in Ev by done. injection Ev as <-.
    pose proof (resolved_text_with_selector p content old' new' kw
                  (log_io (ReadText p) w) Hsel Hv Hs1 Hs2) as Hres.
    destruct Hcases as [(e0 & Ee & _)|[_ Hcases]].
    { by rewrite validate_line_parameters_ok in Ee. }
    destruct Hcases as [(e0 & Er & _)|(t & Er & Hcases)].
    { rewrite Er in Hres. destruct Hres as (_ & Hrg' & _). congruence. }
    rewrite Er in Hres. destruct Hres as (_ & Hnoop).
    destruct Hcases as [(e0 & Hro' & _)|(_ & [(_ & Ho & _)|(_ & res & Hr & Hn & _)])].
    + done.
    + exfalso. unfold count in Hcount. rewrite Ho in Hcount. lia.
    + exists res, t. split; [done|]. split; [done|]. split; [done|].
      intros. by apply Hnoop.
Qed.

End Selectors.

(** C3.  The docstring of [str_replace] says of [line_numbers] that a
    line number out of range is ignored, and the loop over the lines
    tests [i < len(file_content_lines)] to skip it.  The validation that
    runs before the loop raises instead: with [line_numbers = [1, 5]] on a
    file of two lines the call is rejected with an error that names the
    line number 5, line 1 is not replaced and the file is not written. *)
Theorem out_of_range_line_number_is_an_error :
  raises run_line_numbers_1_5
    (ToolError (py "Invalid line number: 5. Line numbers must be between 1 and 2."))
  ∧ ¬ returns run_line_numbers_1_5
  ∧ content_of run_line_numbers_1_5.2 test_txt = content_of test_world test_txt.
Proof. vm_compute. split; [done|]. split; [by intros [? ?]|done]. Qed.

(** C10 as stated fails on the code: with [delete_lines] the call is not
    a no-op on the text, although [old_str] occurs nowhere. *)
Lemma matchless_delete_changes_the_text :
  count (py "a" ++ [NL] ++ py "b") (py "zzz") = 0
  ∧ returns run_matchless_delete
  ∧ content_of run_matchless_delete.2 a_txt = Some (py "b")
  ∧ content_of run_matchless_delete.2 a_txt ≠ Some (py "a" ++ [NL] ++ py "b").
Proof. vm_compute. split; [done|]. split; [by eexists|done]. Qed.

(** Bounds of a literal list of line numbers. *)
Ltac literal_in_bounds :=
  let i := fresh "i" in
  let Hi := fresh "Hi" in
  intros i Hi;
  repeat (apply elem_of_cons in Hi as [->|Hi]; [vm_compute; split; discriminate|]);
  by apply elem_of_nil in Hi.

Lemma line_numbers_substitution_witness :
  content_of four_lines_world test_txt = Some four_lines
  ∧ ∃ lines',
      (str_replace (env := plain_env) test_txt (py "This is a") (Some (py "Replaced"))
         false (line_numbers_only [1; 3]) four_lines_world).2
      = committed test_txt (expandtabs four_lines) (join [NL] lines') four_lines_world
      ∧ lines' !! 0%nat = Some (py "Replaced test file.")
      ∧ lines' !! 1%nat = Some (py "This is a test line.").
Proof.
  split; [reflexivity|].
  destruct (line_numbers_substitution (env := plain_env) four_lines_world test_txt
              four_lines (py "This is a") (Some (py "Replaced")) false
              (line_numbers_only [1; 3])
              eq_refl eq_refl eq_refl eq_refl eq_refl) as [_ Hok].
  destruct Hok as [(Hrg & _)|(lines' & Hw & _ & _ & Hun & Hlit & _)].
  - literal_in_bounds.
  - literal_in_bounds.
  - by intros ?? [=].
  - by left.
  - set_solver.
  - discriminate Hrg.
  - exists lines'. split; [exact Hw|]. split.
    + rewrite (Hlit eq_refl 0%nat). by vm_compute.
    + rewrite (Hun 1%nat); [by vm_compute|].
      apply (bool_decide_unpack _). by vm_compute.
Defined.

Lemma selector_never_not_found_witness :
  content_of four_lines_world test_txt = Some four_lines
  ∧ ∃ res,
      str_replace (env := plain_env) test_txt (py "zzz") (Some (py "y")) false
        (line_numbers_only [1]) four_lines_world
      = (inr res, committed test_txt (expandtabs four_lines) (expandtabs four_lines)
                    four_lines_world).
Proof.
  split; [reflexivity|].
  destruct (selector_never_not_found (env := plain_env) four_lines_world test_txt
              four_lines (py "zzz") (Some (py "y")) false (line_numbers_only [1])
              eq_refl eq_refl)
    as [_ Hok].
  destruct Hok as (res & t & Hrun & _ & _ & Hnoop).
  - by vm_compute.
  - reflexivity.
  - split; [literal_in_bounds|]. split; [split; [literal_in_bounds | by intros ?? [=]]|].
    split; [literal_in_bounds|]. split; [literal_in_bounds | by intros ?? [=]].
  - by left.
  - by left.
  - set_solver.
  - exists res. rewrite Hrun. by rewrite (Hnoop eq_refl eq_refl eq_refl).
Defined.

(** * More of the code *)

(** ** The walk over the syntax tree *)

Lemma Node_nested_ind (P : Node → Prop) :
  (∀ type is_missing start_point children,
     Forall P children → P (mk_Node type is_missing start_point children)) →
  ∀ n, P n.
Proof.
  intros Hnode. fix IH 1. intros [type is_missing start_point children].
  apply Hnode. induction children as [|c cs IHcs]; constructor; [apply IH | apply IHcs].
Qed.

Lemma foldl_app_concat {A B} (f : B → list A) acc (l : list B) :
  foldl (λ errors child, errors ++ f child) acc l = acc ++ concat (f <$> l).
Proof.
  revert acc. induction l as [|x l IH]; intros acc; simpl.
  - by rewrite app_nil_r.
  - by rewrite IH, <- app_assoc.
Qed.

Lemma foldr_app_concat {A B} (f : B → list A) (l : list B) :
  foldr (λ child rest, f child ++ rest) [] l = concat (f <$> l).
Proof. induction l as [|x l IH]; simpl; [done | by rewrite IH]. Qed.

Lemma traverse_tree_report (node : Node) :
  traverse_tree node = report <$> filter (λ n, reported n = true) (preorder node).
Proof.
  induction node as [type is_missing start_point children IH] using Node_nested_ind.
  cbn [traverse_tree preorder]. rewrite foldl_app_concat, foldr_app_concat.
  assert (Hrest : concat (traverse_tree <$> children)
                  = report <$> filter (λ n, reported n = true)
                                 (concat (preorder <$> children))).
  { induction IH as [|c cs Hc Hcs IHcs]; [done|].
    cbn. rewrite filter_app, fmap_app, <- Hc, IHcs. done. }
  rewrite Hrest.
  destruct (reported (mk_Node type is_missing start_point children)) eqn:Er.
  - rewrite filter_cons_True by done. unfold reported in Er; cbn in Er.
    by rewrite Er.
  - rewrite filter_cons_False by (by rewrite Er). unfold reported in Er; cbn in Er.
    by rewrite Er.
Qed.

(** X1. [traverse_tree] reports exactly the nodes whose type is [ERROR]
    or that are missing, once each and in document order, every one with
    its start point counted from 1 and with [Missing node] when the node
    is missing (also when its type is [ERROR]), [Syntax error]
    otherwise. *)
Theorem traverse_tree_preorder (node : Node) :
  traverse_tree node = report <$> filter (λ n, reported n = true) (preorder node)
  ∧ length (traverse_tree node)
    = length (filter (λ n, reported n = true) (preorder node)).
Proof.
  rewrite traverse_tree_report. split; [done|]. by rewrite length_fmap.
Qed.

(** X2. The findings [lint] builds from a parsed tree: one per reported
    node, in document order, at the node's start point counted from 1.
    The message of a missing node stays [Missing node], the one of any
    other reported node is [Syntax error]; there is no finding exactly
    when no node of the tree has type [ERROR] or is missing. *)
Theorem lint_tree_findings (file_path : str) (root_node : Node) :
  lint_tree file_path root_node
  = (λ n, (file_path,
           {| lint_line := (node_start_point n).1 + 1;
              lint_column := (node_start_point n).2 + 1;
              lint_message := if node_is_missing n then py "Missing node"
                              else py "Syntax error" |}))
      <$> filter (λ n, reported n = true) (preorder root_node)
  ∧ (lint_tree file_path root_node = []
     ↔ ∀ n, n ∈ preorder root_node → reported n = false).
Proof.
  assert (Hl : lint_tree file_path root_node
    = (λ n, (file_path,
             {| lint_line := (node_start_point n).1 + 1;
                lint_column := (node_start_point n).2 + 1;
                lint_message := if node_is_missing n then py "Missing node"
                                else py "Syntax error" |}))
        <$> filter (λ n, reported n = true) (preorder root_node)).
  { unfold lint_tree. rewrite traverse_tree_report.
    set (reportable := filter (λ n, reported n = true) (preorder root_node)).
    assert (Hmap : ∀ l : list Node,
      (λ e : Z * Z * str, (file_path,
         {| lint_line := e.1.1; lint_column := e.1.2;
            lint_message := if contains (lower e.2) (py "error")
                            then py "Syntax error" else e.2 |}))
        <$> (report <$> l)
      = (λ n, (file_path,
               {| lint_line := (node_start_point n).1 + 1;
                  lint_column := (node_start_point n).2 + 1;
                  lint_message := if node_is_missing n then py "Missing node"
                                  else py "Syntax error" |})) <$> l).
    { intros l. rewrite <- list_fmap_compose. apply list_fmap_ext. intros _ m _.
      unfold compose, report; cbn. by destruct (node_is_missing m). }
    destruct reportable as [|n l]; [done|].
    rewrite <- Hmap. done. }
  split; [exact Hl|]. rewrite Hl. split.
  - intros Hnil%fmap_nil_inv n Hn.
    destruct (reported n) eqn:Er; [|done].
    exfalso. eapply filter_nil_not_elem_of; [exact Hnil | exact Er | exact Hn].
  - intros Hall.
    destruct (filter (λ n, reported n = true) (preorder root_node)) as [|n l] eqn:Ef;
      [done|].
    assert (Hn : n ∈ filter (λ n, reported n = true) (preorder root_node))
      by (rewrite Ef; apply elem_of_cons; auto).
    apply list_elem_of_filter in Hn as [Hr Hin]. by rewrite (Hall n Hin) in Hr.
Qed.

(** ** The path and the command *)

Section PathRules.
Context {env : Env}.

(** The four checks of [validate_path], as one equivalence. *)
Lemma validate_path_decides cmd p w :
  ∃ r, validate_path cmd p w = (r, w)
    ∧ (r = inr ()
       ↔ is_absolute p = true
         ∧ (cmd = create_cmd → fs w !! p = None)
         ∧ (cmd ≠ create_cmd → is_Some (fs w !! p))
         ∧ (cmd ≠ view_cmd → fs w !! p ≠ Some Dir))
    ∧ ∀ e, r = inl e → exn_class e = EditorToolParameterInvalidError_class.
Proof.
  unfold validate_path.
  destruct (is_absolute p) eqn:Ea; cbn [negb].
  2:{ eexists. split; [reflexivity|]. split; [|by intros e [= <-]].
      split; [done|]. by intros [? _]. }
  unfold mbind, M_bind, bind, mret, M_ret, ret, raise, path_exists, path_is_dir.
  destruct (fs w !! p) as [nd|] eqn:Ef.
  - rewrite (bool_decide_eq_true_2 (is_Some (Some nd))) by eauto.
    destruct (decide (cmd = create_cmd)) as [->|Hc].
    + rewrite bool_decide_eq_true_2 by done. cbn [andb].
      eexists. split; [reflexivity|]. split; [|by intros e [= <-]].
      split; [done|]. intros (_ & Hfree & _). by specialize (Hfree eq_refl).
    + rewrite (bool_decide_eq_false_2 _ Hc). cbn [andb negb]. rewrite Ef.
      destruct (decide (cmd = view_cmd)) as [->|Hv].
      * rewrite bool_decide_eq_true_2 by done. cbn [andb negb].
        exists (inr ()). split; [done|]. split; [|done].
        split; [|done]. intros _. split; [done|]. split; [done|]. split; [eauto|done].
      * rewrite (bool_decide_eq_false_2 _ Hv). cbn [andb negb].
        destruct nd as [c|].
        -- exists (inr ()). split; [done|]. split; [|done].
           split; [|done]. intros _. split; [done|]. split; [done|].
           split; [eauto|done].
        -- eexists. split; [reflexivity|]. split; [|by intros e [= <-]].
           split; [done|]. intros (_ & _ & _ & Hd). by specialize (Hd Hv).
  - rewrite (bool_decide_eq_false_2 (is_Some None)) by (by intros [? ?]).
    destruct (decide (cmd = create_cmd)) as [->|Hc].
    + rewrite bool_decide_eq_true_2 by done. cbn [andb negb]. rewrite Ef.
      rewrite andb_false_r.
      exists (inr ()). split; [done|]. split; [|done].
      split; [|done]. intros _. done.
    + rewrite (bool_decide_eq_false_2 _ Hc). cbn [andb negb].
      eexists. split; [reflexivity|]. split; [|by intros e [= <-]].
      split; [done|]. intros (_ & _ & Hex & _). by destruct (Hex Hc).
Qed.

(** X3. [validate_path] accepts a path for a command exactly when the
    path is absolute, is free for [create] and taken for every other
    command, and is not a directory unless the command is [view]; it
    raises [EditorToolParameterInvalidError] otherwise, and in no case
    does it change the world or read a file. *)
Theorem validate_path_accepts_iff cmd p w :
  ∃ r, validate_path cmd p w = (r, w)
    ∧ (r = inr ()
       ↔ is_absolute p = true
         ∧ (cmd = create_cmd → fs w !! p = None)
         ∧ (cmd ≠ create_cmd → is_Some (fs w !! p))
         ∧ (cmd ≠ view_cmd → fs w !! p ≠ Some Dir))
    ∧ ∀ e, r = inl e → exn_class e = EditorToolParameterInvalidError_class.
Proof. apply validate_path_decides. Qed.


(** X5. [create] writes the text as it is given, tabs included, at a path
    that held nothing, and pushes that text on the history of the path;
    the other files are not touched.  At a path that holds a file or a
    directory it raises and leaves the world as it was: [create] never
    overwrites. *)
Theorem create_only_at_free_paths p text w :
  is_absolute p = true →
  (fs w !! p = None → p ∉ readonly w →
     ∃ res w', __call__ (create_request p text) w = (inr res, w')
       ∧ content_of w' p = Some text
       ∧ (∀ q, q ≠ p → fs w' !! q = fs w !! q)
       ∧ history_of w' p = history_of w p ++ [text]
       ∧ prev_exist res = false ∧ new_content res = Some text)
  ∧ (is_Some (fs w !! p) →
     ∃ e, __call__ (create_request p text) w = (inl e, w)
       ∧ exn_class e = EditorToolParameterInvalidError_class).
Proof.
  intros Ha.
  destruct (validate_path_decides create_cmd p w) as (rv & Ev & Hiff & Hcl).
  unfold __call__. cbn [create_request command req_path file_text].
  split.
  - intros Hfree Hro.
    assert (rv = inr ()) as ->.
    { apply Hiff. split; [done|]. split; [done|]. split; [done|].
      intros _. by rewrite Hfree. }
    rewrite (bind_inr _ _ _ _ _ Ev).
    erewrite bind_inr; [|apply write_file_ok; [done | by rewrite Hfree]].
    erewrite bind_inr by apply history_append_run.
    eexists _, _. split; [reflexivity|].
    unfold written, content_of, history_of; cbn [fs readonly _file_history io_log].
    rewrite !lookup_insert_eq. split; [done|]. split; [|done].
    intros q Hq. by rewrite lookup_insert_ne.
  - intros Hex. destruct rv as [e|[]].
    + exists e. split; [by apply bind_inl | by apply Hcl].
    + destruct (proj1 Hiff eq_refl) as (_ & Hfree & _).
      rewrite (Hfree eq_refl) in Hex. by destruct Hex.
Qed.

End PathRules.


Lemma create_only_at_free_paths_witness :
  ∃ res w', __call__ (env := plain_env)
              (create_request (py "/f.txt") ([TAB] ++ py "hello")) empty_disk
            = (inr res, w')
    ∧ content_of w' (py "/f.txt") = Some ([TAB] ++ py "hello").
Proof.
  destruct (create_only_at_free_paths (env := plain_env) (py "/f.txt")
              ([TAB] ++ py "hello") empty_disk eq_refl) as [Hok _].
  destruct Hok as (res & w' & Hrun & Hc & _); [reflexivity | set_solver|].
  by exists res, w'.
Defined.

(** ** view *)

Lemma slice_take_drop {A} (l : list A) (a b : Z) :
  0 ≤ a ≤ b → b ≤ Z.of_nat (length l) →
  slice l a b = take (Z.to_nat (b - a)) (drop (Z.to_nat a) l).
Proof.
  intros Ha Hb. unfold slice, clamp_index.
  rewrite (proj2 (Z.ltb_ge a 0)), (proj2 (Z.ltb_ge b 0)) by lia.
  by rewrite !Z.min_l by lia.
Qed.

Section View.
Context {env : Env}.



(** X7. A range [[s, e]] on a file of [n] lines is accepted exactly when
    [1 <= s <= n], [e <= n] and [e] is [-1] or at least [s]; the lines
    shown are then the lines [s..e] of the file, to its end when [e] is
    [-1], numbered from [s], and the file is read once.  Any other range
    of two integers raises [EditorToolParameterInvalidError]. *)
Theorem view_range_window p c s e w :
  content_of w p = Some c →
  let lines := split c [NL] in
  let n := Z.of_nat (length lines) in
  let accepted := 1 ≤ s ≤ n ∧ e ≤ n ∧ (e = -1 ∨ s ≤ e) in
  (accepted →
     ∃ res, view p [s; e] w = (inr res, log_io (ReadText p) w)
       ∧ output res
         = _make_output
             (join [NL] (if e =? -1 then drop (Z.to_nat (s - 1)) lines
                         else take (Z.to_nat (e - s + 1))
                                (drop (Z.to_nat (s - 1)) lines)))
             p s)
  ∧ (¬ accepted →
     ∃ err, view p [s; e] w = (inl err, log_io (ReadText p) w)
       ∧ exn_class err = EditorToolParameterInvalidError_class).
Proof.
  intros Hc lines n accepted.
  assert (Hdir : path_is_dir p w = (inr false, w)).
  { unfold path_is_dir, content_of in *.
    by destruct (fs w !! p) as [[?|]|]. }
  unfold view. rewrite (bind_inr _ _ _ _ _ Hdir).
  rewrite (bind_inr _ _ _ _ _ (read_file_ok _ _ _ Hc)).
  cbn [truthy negb]. fold lines. fold n.
  split.
  - intros (Hs & He & Hse).
    rewrite (proj2 (Z.ltb_ge s 1)), (proj2 (Z.ltb_ge n s)) by lia.
    rewrite (proj2 (Z.ltb_ge n e)) by lia. cbn [orb].
    destruct (e =? -1) eqn:E1; cbn [negb andb].
    + eexists. split; [reflexivity|]. cbn [output].
      rewrite slice_from_drop by (fold n; lia). done.
    + apply Z.eqb_neq in E1.
      rewrite (proj2 (Z.ltb_ge e s)) by lia.
      eexists. split; [reflexivity|]. cbn [output].
      rewrite slice_take_drop by (fold n; lia).
      do 3 f_equal. lia.
  - intros Hno.
    destruct (s <? 1) eqn:E1; cbn [orb]; [by eexists|].
    destruct (n <? s) eqn:E2; [by eexists|].
    destruct (n <? e) eqn:E3; [by eexists|].
    destruct (e =? -1) eqn:E4; cbn [negb andb].
    { exfalso. apply Hno. unfold accepted. lia. }
    destruct (e <? s) eqn:E5; [by eexists|].
    exfalso. apply Hno. unfold accepted. lia.
Qed.

End View.


Lemma view_range_window_witness :
  ∃ res, view (env := plain_env) test_txt [2; -1] test_world
         = (inr res, log_io (ReadText test_txt) test_world).
Proof.
  destruct (view_range_window (env := plain_env) test_txt
              (text [py "This is a test file.";
                     py "This file is for testing purposes."])
              2 (-1) test_world eq_refl) as [Hok _].
  destruct Hok as (res & Hr & _); [vm_compute; intuition congruence|].
  by exists res.
Defined.

(** ** Deleting lines *)


Lemma elem_of_enumerate {A} (l : list A) i x :
  (i, x) ∈ enumerate l ↔ ∃ j : nat, i = Z.of_nat j ∧ l !! j = Some x.
Proof.
  unfold enumerate. rewrite elem_of_lookup_imap. split.
  - intros (j & y & [= -> ->] & Hj). eauto.
  - intros (j & -> & Hj). eauto.
Qed.






Section Deleting.
Context {env : Env}.

(** A call whose line parameters are valid, whose new text is computed
    and whose file is writable writes that text and pushes the former
    one; it returns, unless it replaces the empty [old_str]. *)
Lemma str_replace_commits w p raw old new lint kw t :
  content_of w p = Some raw →
  let content := expandtabs raw in
  let old' := expandtabs old in
  let new' := match new with Some s => expandtabs s | None => [] end in
  let n := Z.of_nat (length (split content [NL])) in
  let w1 := log_io (ReadText p) w in
  valid_lines n kw → range_shaped (line_range kw) → range_shaped (delete_range kw) →
  resolved_text p content old' new' kw w1 = (inr t, w1) →
  p ∉ readonly w →
  (truthy (delete_lines kw) || truthy (delete_range kw) = true ∨ old' ≠ [] →
     ∃ res, str_replace p old new lint kw w = (inr res, committed p content t w)
       ∧ new_content res = Some t ∧ old_content res = Some content)
  ∧ (truthy (delete_lines kw) || truthy (delete_range kw) = false → old' = [] →
     str_replace p old new lint kw w = (inl empty_separator, committed p content t w)).
Proof.
  intros Hc content old' new' n w1 Hv Hs1 Hs2 Ht Hro.
  pose proof (str_replace_cases w p raw old new lint kw Hc) as Hcases.
  cbv zeta in Hcases. fold content old' new' n w1 in Hcases.
  destruct Hcases as [(e0 & Ee & _)|[_ Hcases]].
  { by rewrite validate_line_parameters_ok in Ee. }
  destruct Hcases as [(e0 & Er & _)|(t' & Er & Hcases)]; [congruence|].
  assert (t' = t) as -> by congruence.
  destruct Hcases as [(e0 & Hro' & _)|(_ & Hcases)]; [done|].
  split.
  - intros Hok. destruct Hcases as [(Hd & Ho & _)|(_ & res & Hr)]; [|by exists res].
    destruct Hok as [Hd'|Ho']; [congruence | done].
  - intros Hd Ho. destruct Hcases as [(_ & _ & Hr)|([Hd'|Ho'] & _)];
      [done | congruence | done].
Qed.



End Deleting.

Ltac literal_ordered := first [ by intros ?? [=] | intros ?? [= <- <-]; lia ].
Ltac literal_valid_lines :=
  split; [literal_in_bounds|];
  split; [split; [literal_in_bounds | literal_ordered]|];
  split; [literal_in_bounds|];
  split; [literal_in_bounds | literal_ordered].



(** ** Lines in, lines out *)

Lemma split_clean s : Forall (λ x, NL ∉ x) (split s [NL]).
Proof.
  induction s as [|c t IH]; [repeat constructor; by intros ?%elem_of_nil|].
  rewrite split_nl_cons. destruct (c =? NL)%N eqn:Ec.
  - constructor; [by intros ?%elem_of_nil | done].
  - destruct (split t [NL]) as [|h r]; [repeat constructor|].
    + intros Hc%list_elem_of_singleton. apply N.eqb_neq in Ec. done.
    + apply Forall_cons in IH as [Hh Hr]. constructor; [|done].
      intros [Hc|Hc]%elem_of_cons; [|done]. apply N.eqb_neq in Ec. done.
Qed.

Lemma split_one_line x : NL ∉ x → split x [NL] = [x].
Proof.
  induction x as [|c x IH]; [done|]. intros Hx.
  rewrite split_nl_cons.
  rewrite (proj2 (N.eqb_neq c NL)) by (intros ->; apply Hx; by left).
  rewrite IH; [done|]. intros ?. apply Hx. by right.
Qed.

Lemma split_first_line x s : NL ∉ x → split (x ++ NL :: s) [NL] = x :: split s [NL].
Proof.
  induction x as [|c x IH]; intros Hx.
  - cbn [app]. rewrite split_nl_cons. by rewrite N.eqb_refl.
  - cbn [app]. rewrite split_nl_cons.
    rewrite (proj2 (N.eqb_neq c NL)) by (intros ->; apply Hx; by left).
    rewrite IH; [done|]. intros ?. apply Hx. by right.
Qed.

(** Joining lines that hold no line feed, then splitting, gives the lines
    back. *)
Lemma split_join_nl l :
  l ≠ [] → Forall (λ x, NL ∉ x) l → split (join [NL] l) [NL] = l.
Proof.
  intros Hne Hl. induction Hl as [|x r Hx Hr IH]; [done|].
  destruct r as [|y r]; [by apply split_one_line|].
  change (join [NL] (x :: y :: r)) with (x ++ NL :: join [NL] (y :: r)).
  rewrite split_first_line by done. f_equal. by apply IH.
Qed.

(** ** Undoing a session *)

Section Sessions.
Context {env : Env}.

(** A session of edits on one file stacks one snapshot for each edit, the
    first of which is the text the session started from. *)
Lemma edits_stack p rs : ∀ w w1 raw,
  (∀ r, r ∈ rs → req_path r = p
                ∧ (command r = str_replace_cmd ∨ command r = insert_cmd)) →
  content_of w p = Some raw →
  call_all rs w = (inr (), w1) →
  ∃ l, length l = length rs
    ∧ history_of w1 p = history_of w p ++ l
    ∧ (rs ≠ [] → head l = Some (expandtabs raw) ∧ p ∉ readonly w1)
    ∧ is_Some (content_of w1 p).
Proof.
  induction rs as [|r rs IH]; intros w w1 raw Hrs Hc Hrun.
  - injection Hrun as <-. exists []. rewrite app_nil_r.
    split; [done|]. split; [done|]. split; [done | eauto].
  - cbn [call_all] in Hrun. unfold mbind, M_bind, bind in Hrun.
    pose proof (call_outcome r w) as Hout. cbv zeta in Hout.
    destruct (__call__ r w) as [[e|res] w'] eqn:Ecall; [done|].
    destruct (Hrs r) as [Hp Hcmd]; [by left|].
    assert (mutating (command r) = true) as Hm by (by destruct Hcmd as [->| ->]).
    rewrite Hm, Hp in Hout.
    destruct Hout as (_ & Hro & entry & t & (Hfs & Hro' & Hh & _) & Hentry).
    assert (entry = expandtabs raw) as ->.
    { destruct Hcmd as [Ec|Ec]; rewrite Ec in Hentry;
        destruct Hentry as (raw0 & Hc0 & ->); congruence. }
    assert (Hc' : content_of w' p = Some t).
    { unfold content_of. rewrite Hfs. by rewrite lookup_insert_eq. }
    destruct (IH w' w1 t) as (l & Hlen & Hl & Hhead & Hsome); [|done|done|].
    { intros r' Hr'. apply Hrs. by right. }
    exists (expandtabs raw :: l). split; [cbn; by rewrite Hlen|].
    split; [rewrite Hl, Hh; by rewrite <- app_assoc|]. split; [|done].
    intros _. split; [done|].
    destruct rs as [|r' rs'].
    + injection Hrun as <-. by rewrite Hro'.
    + by destruct Hhead.
Qed.

(** As many calls of [undo_edit] as there are snapshots above [h] bring
    the stack back to [h] and the file to the lowest of them. *)
Lemma undo_stack p h l : ∀ w,
  history_of w p = h ++ l → is_Some (content_of w p) → p ∉ readonly w →
  ∃ w', undo_times (length l) p w = (inr (), w')
    ∧ history_of w' p = h
    ∧ (l = [] → w' = w)
    ∧ ∀ x, head l = Some x → content_of w' p = Some x.
Proof.
  induction l as [|x l IH] using rev_ind; intros w Hh [raw Hc] Hro.
  - exists w. rewrite app_nil_r in Hh. done.
  - rewrite length_app, Nat.add_1_r. cbn [length undo_times].
    rewrite app_assoc in Hh.
    destruct (undo_edit_pop w p (h ++ l) x raw Hh Hc Hro) as (res & Hrun & _).
    rewrite (bind_inr _ _ _ _ _ Hrun).
    set (w0 := World _ _ _ _) in *.
    assert (Hc0 : content_of w0 p = Some x).
    { unfold content_of, w0; cbn [fs]. by rewrite lookup_insert_eq. }
    destruct (IH w0) as (w' & Hu & Hh' & Hnil & Hhead).
    { unfold w0. rewrite history_of_insert. by rewrite decide_True. }
    { eauto. }
    { done. }
    exists w'. split; [done|]. split; [done|].
    split; [by intros [_ [=]]%app_eq_nil|].
    intros y Hy. destruct l as [|z l].
    + cbn in Hy. injection Hy as <-. by rewrite (Hnil eq_refl).
    + apply Hhead. by cbn in *.
Qed.

(** X13. Undo is multi-level: after a session of [str_replace] and
    [insert] calls on one file that all returned, as many calls of
    [undo_edit] all return, and leave the file with the text the session
    started from (tabs expanded) and the history of the file as it was
    before the session. *)
Theorem undo_all_edits p rs w w1 raw :
  rs ≠ [] →
  (∀ r, r ∈ rs → req_path r = p
                ∧ (command r = str_replace_cmd ∨ command r = insert_cmd)) →
  content_of w p = Some raw →
  call_all rs w = (inr (), w1) →
  ∃ w2, undo_times (length rs) p w1 = (inr (), w2)
    ∧ content_of w2 p = Some (expandtabs raw)
    ∧ history_of w2 p = history_of w p.
Proof.
  intros Hne Hrs Hc Hrun.
  destruct (edits_stack p rs w w1 raw Hrs Hc Hrun) as (l & Hlen & Hl & Hhead & Hsome).
  destruct (Hhead Hne) as [Hh Hro].
  destruct (undo_stack p (history_of w p) l w1 Hl Hsome Hro)
    as (w2 & Hu & Hh2 & _ & Hfirst).
  exists w2. rewrite <- Hlen. split; [done|]. split; [by apply Hfirst | done].
Qed.

End Sessions.

Lemma undo_all_edits_witness :
  ∃ w2, undo_times (env := plain_env) 2 test_txt
          (call_all (env := plain_env) two_edits four_lines_world).2
        = (inr (), w2)
    ∧ content_of w2 test_txt = Some (expandtabs four_lines).
Proof.
  destruct (undo_all_edits (env := plain_env) test_txt two_edits four_lines_world
              (call_all (env := plain_env) two_edits four_lines_world).2 four_lines)
    as (w2 & Hu & Hc & _).
  - done.
  - intros r Hr.
    repeat (apply elem_of_cons in Hr as [->|Hr]; [split; [reflexivity | auto]|]).
    by apply elem_of_nil in Hr.
  - reflexivity.
  - by vm_compute.
  - by exists w2.
Defined.

(** ** A call stays on its path *)












Section Locality.
Context {env : Env}.















End Locality.


(** ** Tabs *)

Section Characters.
Variable P : char → Prop.

Lemma replace_scan_chars old new k s :
  Forall P s → Forall P new → Forall P (replace_scan old new k s).
Proof.
  intros Hs Hnew. revert k. induction Hs as [|c t Hc Ht IH]; intros k; [done|].
  cbn [replace_scan]. destruct k as [|k]; [|apply IH].
  destruct (startswith (c :: t) old).
  - apply Forall_app. split; [done | apply IH].
  - constructor; [done | apply IH].
Qed.

Lemma replace_chars s old new : Forall P s → Forall P new → Forall P (replace s old new).
Proof.
  intros Hs Hnew. unfold replace. destruct old as [|o old].
  - apply Forall_app. split; [done|]. apply Forall_concat, Forall_fmap.
    eapply Forall_impl; [exact Hs|]. intros c Hc. by constructor.
  - by apply replace_scan_chars.
Qed.

Lemma iter_replace_chars n x old new :
  Forall P x → Forall P new → Forall P (Nat.iter n (λ l, replace l old new) x).
Proof. intros Hx Hnew. induction n; [done|]. cbn. by apply replace_chars. Qed.

Lemma join_chars sep l :
  Forall P sep → Forall (Forall P) l → Forall P (join sep l).
Proof.
  intros Hsep Hl. induction Hl as [|x r Hx Hr IH]; [done|].
  destruct r as [|y r]; [done|].
  change (join sep (x :: y :: r)) with (x ++ sep ++ join sep (y :: r)).
  rewrite !Forall_app. done.
Qed.

Lemma split_chars s : Forall P s → Forall (Forall P) (split s [NL]).
Proof.
  induction 1 as [|c t Hc Ht IH]; [by repeat constructor|].
  rewrite split_nl_cons. destruct (c =? NL)%N; [by constructor|].
  destruct (split t [NL]) as [|h r]; [by repeat constructor|].
  apply Forall_cons in IH as [Hh Hr]. by repeat constructor.
Qed.

Lemma linebreak_pieces_chars after_cr s :
  Forall P s → Forall (Forall P) (linebreak_pieces after_cr s).
Proof.
  intros Hs. revert after_cr.
  induction Hs as [|c t Hc Ht IH]; intros after_cr; cbn [linebreak_pieces];
    [by repeat constructor|].
  destruct (after_cr && (c =? NL)%N); [apply IH|].
  destruct (is_linebreak c); [constructor; [done | apply IH]|].
  specialize (IH false).
  destruct (linebreak_pieces false t) as [|h r]; [by repeat constructor|].
  apply Forall_cons in IH as [Hh Hr]. by repeat constructor.
Qed.

Lemma splitlines_chars s : Forall P s → Forall (Forall P) (splitlines s).
Proof.
  intros Hs. unfold splitlines.
  pose proof (linebreak_pieces_chars false s Hs) as Hp.
  destruct (last (linebreak_pieces false s)) as [[|c x]|]; try done.
  rewrite removelast_firstn_len. by apply Forall_take.
Qed.

Lemma kept_lines_chars (Q : Z * str → Prop) `{∀ x, Decision (Q x)} (l : list str) :
  Forall (Forall P) l → Forall (Forall P) (filter Q (enumerate l)).*2.
Proof.
  rewrite !Forall_forall. intros Hl x Hx.
  apply list_elem_of_fmap in Hx as ([i y] & -> & Hin).
  apply list_elem_of_filter in Hin as [_ Hin].
  apply elem_of_enumerate in Hin as (j & _ & Hj).
  apply Hl. by eapply list_elem_of_lookup_2.
Qed.

End Characters.

Lemma expandtabs_from_clean col s : Forall (λ c, c ≠ TAB) (expandtabs_from col s).
Proof.
  revert col. induction s as [|c t IH]; intros col; cbn [expandtabs_from]; [done|].
  destruct (N.eqb_spec c TAB) as [->|Hc].
  - apply Forall_app. split; [|apply IH]. by apply Forall_replicate.
  - constructor; [done | apply IH].
Qed.

Section Tabs.
Context {env : Env}.

(** The text a literal [str_replace] computes draws its characters from
    the text of the file, from [new_str] and from the line feed. *)
Lemma resolved_text_chars (P : char → Prop) p content old new kw w t w' :
  regex kw = false →
  valid_lines (Z.of_nat (length (split content [NL]))) kw →
  range_shaped (line_range kw) → range_shaped (delete_range kw) →
  resolved_text p content old new kw w = (inr t, w') →
  Forall P content → Forall P new → P NL → Forall P t.
Proof.
  intros Hx Hv Hs1 Hs2 Ht Hc Hnew Hnl.
  assert (Hsep : Forall P [NL]) by by repeat constructor.
  pose proof (split_chars P content Hc) as Hlines.
  destruct (truthy (delete_lines kw)) eqn:Hd1.
  { unfold resolved_text in Ht. rewrite Hd1 in Ht. injection Ht as <- _.
    by apply join_chars, kept_lines_chars. }
  destruct (truthy (delete_range kw)) eqn:Hd2.
  { unfold resolved_text in Ht. rewrite Hd1, Hd2 in Ht.
    destruct (shaped_truthy _ Hs2 Hd2) as (s0 & e0 & Hr). rewrite Hr in Ht.
    injection Ht as <- _. by apply join_chars, kept_lines_chars. }
  destruct (line_all kw) eqn:Ha.
  { unfold resolved_text, replaced_content in Ht. rewrite Hd1, Hd2, Ha, Hx in Ht.
    cbn [negb] in Ht. injection Ht as <- _.
    apply join_chars; [done|]. apply Forall_fmap.
    eapply Forall_impl; [by apply splitlines_chars|].
    intros x Hxs. by apply replace_chars. }
  assert (Hcase : (truthy (line_numbers kw) = true ∨ ∃ s0 e0, line_range kw = [s0; e0])
                  ∨ (line_numbers kw = [] ∧ line_range kw = [])).
  { destruct (line_numbers kw); [|left; by left].
    destruct Hs1 as [->|?]; [by right | left; by right]. }
  destruct Hcase as [Hsel|[Hn Hr]].
  - pose proof (by_line_outcome p content old new kw w Hd1 Hd2 Ha Hsel Hv) as Hout.
    rewrite Ht in Hout. destruct Hout as (_ & ls & -> & Hlen & Hls).
    apply join_chars; [done|]. apply Forall_lookup. intros j y Hj.
    destruct (lookup_lt_is_Some_2 (split content [NL]) j) as [x Hxj].
    { rewrite <- Hlen. by eapply lookup_lt_Some. }
    destruct (Hls j x Hxj) as (y' & Hy' & Hit).
    assert (Some y' = Some y) as [= ->] by (etrans; [symmetry; exact Hy' | exact Hj]).
    rewrite Hx, iter_sub_literal in Hit. injection Hit as <-.
    apply iter_replace_chars; [|done].
    rewrite Forall_lookup in Hlines. by eapply Hlines.
  - unfold resolved_text in Ht. rewrite Hd1, Hd2 in Ht.
    rewrite first_occurrence_literal in Ht by done.
    destruct (count content old =? 0); [done|].
    destruct (1 <? count content old).
    { by destruct (occurrence_lines content old). }
    injection Ht as <- _. by apply replace_chars.
Qed.

(** X15. A literal [str_replace] or an [insert] that returns leaves no
    tab in the file, wherever the tabs were: the text read, [old_str] and
    [new_str] all go through [expandtabs], so that every tab of the file
    is turned into spaces, also on the lines the edit does not touch. *)
Theorem edits_leave_no_tab w p raw :
  content_of w p = Some raw →
  (∀ old new lint kw res w',
     regex kw = false →
     str_replace p old new lint kw w = (inr res, w') →
     ∃ t, content_of w' p = Some t ∧ TAB ∉ t)
  ∧ (∀ line new_str lint res w',
     insert p line new_str lint w = (inr res, w') →
     ∃ t, content_of w' p = Some t ∧ TAB ∉ t).
Proof.
  intros Hc.
  assert (Hin : ∀ t, Forall (λ c, c ≠ TAB) t → TAB ∉ t).
  { intros t Ht Hin. rewrite Forall_forall in Ht. by apply (Ht TAB). }
  assert (Hcommitted : ∀ s t, content_of (committed p s t w) p = Some t).
  { intros. unfold content_of, committed; cbn [fs]. by rewrite lookup_insert_eq. }
  split.
  - intros old new lint kw res w' Hx Hrun.
    pose proof (str_replace_cases w p raw old new lint kw Hc) as Hcases.
    cbv zeta in Hcases.
    destruct (validate_line_parameters_run kw
                (Z.of_nat (length (split (expandtabs raw) [NL])))
                (log_io (ReadText p) w)) as (rv & Ev & Hrv).
    destruct Hcases as [(e & _ & Hr)|[Eok Hcases]]; [congruence|].
    rewrite Eok in Ev. injection Ev as <-. destruct Hrv as (Hv & Hs1 & Hs2).
    destruct Hcases as [(e & _ & Hr)|(t & Ht & Hcases)]; [congruence|].
    destruct Hcases as [(e & _ & _ & Hr)|(_ & [(_ & _ & Hr)|(_ & res' & Hr & _)])];
      [congruence..|].
    rewrite Hr in Hrun. injection Hrun as _ <-.
    exists t. split; [apply Hcommitted|]. apply Hin.
    eapply (resolved_text_chars (λ c, c ≠ TAB)); try done.
    + apply expandtabs_from_clean.
    + destruct new; [apply expandtabs_from_clean | done].
  - intros line new_str lint res w' Hrun.
    pose proof (insert_run w p raw new_str line lint Hc) as Hcase. cbv zeta in Hcase.
    destruct ((line <? 0) || _) eqn:Eb.
    { destruct Hcase as (e & Hr & _). congruence. }
    destruct (decide (p ∈ readonly w)) as [Hro|Hro].
    { destruct (insert_cases w p raw new_str line lint Hc)
        as [(e & w0 & Hr & _)|(Hro' & _)]; [congruence | done]. }
    destruct (Hcase Hro) as (r & Hr). rewrite Hr in Hrun. injection Hrun as _ <-.
    eexists. split; [unfold content_of; cbn [fs]; by rewrite lookup_insert_eq|].
    apply Hin. apply join_chars; [by repeat constructor|].
    pose proof (split_chars _ _ (expandtabs_from_clean 0 raw)) as Hl.
    pose proof (split_chars _ _ (expandtabs_from_clean 0 new_str)) as Hn.
    rewrite !Forall_app. split; [by apply Forall_take|].
    split; [done | by apply Forall_drop].
Qed.

End Tabs.

Lemma edits_leave_no_tab_witness :
  ∃ t, content_of
         (str_replace (env := plain_env) a_txt (py "x") (Some (py "y")) false no_kwargs
            tab_world).2 a_txt = Some t
    ∧ TAB ∉ t.
Proof.
  destruct (edits_leave_no_tab (env := plain_env) tab_world a_txt ([TAB] ++ py "x")
              eq_refl) as [Hrep _].
  specialize (Hrep (py "x") (Some (py "y")) false no_kwargs).
  destruct (str_replace (env := plain_env) a_txt (py "x") (Some (py "y")) false
              no_kwargs tab_world) as [[e|res] w'] eqn:E.
  - by vm_compute in E.
  - by apply (Hrep res w').
Defined.

(** ** The lines of the text [insert] writes *)

Lemma expandtabs_from_chars (P : char → Prop) col s :
  P SP → Forall P s → Forall P (expandtabs_from col s).
Proof.
  intros Hsp Hs. revert col.
  induction Hs as [|c t Hc Ht IH]; intros col; cbn [expandtabs_from]; [done|].
  destruct (c =? TAB)%N.
  - apply Forall_app. split; [|apply IH]. by apply Forall_replicate.
  - constructor; [done | apply IH].
Qed.

Section LinesOfInsert.
Context {env : Env}.

(** X12. After [insert] at [line], the text written, cut at line feeds,
    is the first [line] lines of the text read, the lines of [new_str],
    then the other lines: it has as many lines as the file and [new_str]
    together.  When neither the file nor [new_str] holds a carriage
    return, the text written holds none. *)
Theorem insert_lines_round_trip w p raw new_str line lint :
  content_of w p = Some raw →
  let lines := split (expandtabs raw) [NL] in
  let new_lines := split (expandtabs new_str) [NL] in
  0 ≤ line ≤ Z.of_nat (length lines) → p ∉ readonly w →
  ∃ r w' t, insert p line new_str lint w = (inr r, w')
    ∧ content_of w' p = Some t
    ∧ split t [NL]
      = take (Z.to_nat line) lines ++ new_lines ++ drop (Z.to_nat line) lines
    ∧ length (split t [NL]) = (length lines + length new_lines)%nat
    ∧ (CR ∉ raw → CR ∉ new_str → CR ∉ t).
Proof.
  intros Hc lines new_lines Hin Hro.
  pose proof (insert_run w p raw new_str line lint Hc) as Hrun. cbv zeta in Hrun.
  fold lines new_lines in Hrun.
  rewrite (proj2 (orb_false_iff _ _)) in Hrun by (split; apply Z.ltb_ge; lia).
  destruct (Hrun Hro) as [r Hr].
  eexists r, _, _. split; [exact Hr|].
  split; [unfold content_of; cbn [fs]; by rewrite lookup_insert_eq|].
  assert (Hsplit : split (join [NL] (take (Z.to_nat line) lines ++ new_lines
                                       ++ drop (Z.to_nat line) lines)) [NL]
                   = take (Z.to_nat line) lines ++ new_lines
                       ++ drop (Z.to_nat line) lines).
  { apply split_join_nl.
    - pose proof (split_scan_nonempty [NL] 0 (expandtabs new_str)) as Hne.
      fold (split (expandtabs new_str) [NL]) in Hne. fold new_lines in Hne.
      destruct new_lines; [done|]. by destruct (take _ _).
    - rewrite !Forall_app. split; [|split].
      + apply Forall_take, split_clean.
      + apply split_clean.
      + apply Forall_drop, split_clean. }
  split; [done|]. split.
  { rewrite Hsplit. rewrite !length_app, length_take, length_drop. lia. }
  intros Hraw Hnew.
  assert (Hno : ∀ s, CR ∉ s → Forall (λ c, c ≠ CR) (expandtabs s)).
  { intros s Hs. apply expandtabs_from_chars; [done|].
    apply Forall_forall. by intros c Hcs ->. }
  pose proof (split_chars _ _ (Hno raw Hraw)) as Hl.
  pose proof (split_chars _ _ (Hno new_str Hnew)) as Hn.
  assert (Hall : Forall (λ c, c ≠ CR)
                   (join [NL] (take (Z.to_nat line) lines ++ new_lines
                                 ++ drop (Z.to_nat line) lines))).
  { apply join_chars; [by repeat constructor|].
    rewrite !Forall_app. split; [by apply Forall_take|].
    split; [done | by apply Forall_drop]. }
  intros Hin'. rewrite Forall_forall in Hall. by apply (Hall CR).
Qed.

End LinesOfInsert.

Lemma insert_lines_round_trip_witness :
  ∃ r w' t,
    insert (env := plain_env) test_txt 1 (py "Inserted" ++ [NL] ++ py "twice") false
      four_lines_world = (inr r, w')
    ∧ content_of w' test_txt = Some t
    ∧ length (split t [NL]) = 6%nat.
Proof.
  destruct (insert_lines_round_trip (env := plain_env) four_lines_world test_txt
              four_lines (py "Inserted" ++ [NL] ++ py "twice") 1 false eq_refl)
    as (r & w' & t & Hr & Hc & _ & Hlen & _).
  - by vm_compute.
  - set_solver.
  - exists r, w', t. split; [done|]. split; [done|]. rewrite Hlen. by vm_compute.
Defined.

(** ** Substitution on a range of lines, and on the one occurrence *)

Lemma mentions_once l k : NoDup l → k ∈ l → mentions l k = 1%nat.
Proof.
  induction 1 as [|x l Hx Hnd IH]; [by intros ?%elem_of_nil|].
  rewrite mentions_cons. intros [->|Hin]%elem_of_cons.
  - rewrite decide_True by done. by rewrite mentions_zero.
  - rewrite decide_False by (intros ->; done). by rewrite IH.
Qed.

Lemma mentions_range a b k :
  mentions (range a b) k = if decide (a ≤ k < b) then 1%nat else 0%nat.
Proof.
  unfold range. case_decide as Hk.
  - apply mentions_once; [apply NoDup_seqZ|]. apply elem_of_seqZ. lia.
  - apply mentions_zero. rewrite elem_of_seqZ. lia.
Qed.

Lemma startswith_prefix s sub :
  startswith s sub = true → s = sub ++ drop (length sub) s.
Proof.
  revert s. induction sub as [|p sub IH]; intros s; [done|].
  destruct s as [|c s]; [done|]. cbn [startswith].
  intros [Hc Hs]%andb_true_iff. apply N.eqb_eq in Hc as ->.
  cbn. f_equal. by apply IH.
Qed.

Lemma replace_scan_skip old new k s :
  replace_scan old new k s = replace_scan old new 0 (drop k s).
Proof.
  revert k. induction s as [|c t IH]; intros k; [by destruct k|].
  destruct k as [|k]; [done|]. cbn [replace_scan drop]. apply IH.
Qed.

Lemma count_scan_skip sub k s : count_scan sub k s = count_scan sub 0 (drop k s).
Proof.
  revert k. induction s as [|c t IH]; intros k; [by destruct k|].
  destruct k as [|k]; [done|]. cbn [count_scan drop]. apply IH.
Qed.

(** When the scan counts one occurrence, the text is cut in three: what
    precedes the occurrence, in which the needle begins nowhere, the
    needle, and what follows, in which it occurs no more. *)
Lemma count_scan_once old new s :
  old ≠ [] → count_scan old 0 s = 1%nat →
  ∃ pre post, s = pre ++ old ++ post
    ∧ replace_scan old new 0 s = pre ++ new ++ post
    ∧ (∀ k, (k < length pre)%nat → startswith (drop k s) old = false)
    ∧ ∀ k, startswith (drop k post) old = false.
Proof.
  intros Hne. induction s as [|c t IH]; [done|].
  cbn [count_scan replace_scan].
  destruct (startswith (c :: t) old) eqn:Es.
  - intros [= Hrest]. exists [], (drop (length old) (c :: t)).
    pose proof (startswith_prefix _ _ Es) as Hs.
    destruct old as [|o old']; [done|].
    cbn [length drop] in *.
    replace (S (length old') - 1)%nat with (length old') in * by lia.
    rewrite count_scan_skip in Hrest.
    pose proof (count_scan_zero (o :: old') _ Hne Hrest) as Hno.
    split; [done|]. split; [|split; [cbn; lia | done]].
    rewrite replace_scan_skip, replace_scan_none by done. done.
  - intros Hc. destruct (IH Hc) as (pre & post & -> & Hr & Hpre & Hpost).
    exists (c :: pre), post. split; [done|]. split; [by rewrite Hr|].
    split; [|done]. intros [|k] Hk; [done|]. cbn [drop]. apply Hpre.
    cbn in Hk. lia.
Qed.

Section Substitution.
Context {env : Env}.

(** X10. [line_range = [s, e]] with a literal [old_str], [line_all] off,
    no [line_numbers] and nothing to delete, on a file of [n] lines with
    [1 <= s <= e <= n]: the call returns and the text written is the join
    of [n] pieces, one for each line of the file: for the lines [s..e]
    the line with every occurrence of [old_str] replaced, once, for every
    other line the line as it was.  When [new_str] holds no line feed
    these pieces are the lines of the text written, which then has as
    many lines as the file had. *)
Theorem line_range_substitution w p raw old new lint kw s e :
  content_of w p = Some raw →
  line_numbers kw = [] → line_range kw = [s; e] →
  delete_lines kw = [] → delete_range kw = [] →
  line_all kw = false → regex kw = false →
  let content := expandtabs raw in
  let old' := expandtabs old in
  let new' := match new with Some t => expandtabs t | None => [] end in
  let lines := split content [NL] in
  valid_lines (Z.of_nat (length lines)) kw → old' ≠ [] → p ∉ readonly w →
  ∃ res lines',
    str_replace p old new lint kw w
    = (inr res, committed p content (join [NL] lines') w)
    ∧ length lines' = length lines
    ∧ (∀ (j : nat) x, lines !! j = Some x →
        lines' !! j
        = Some (if decide (s ≤ Z.of_nat j + 1 ≤ e) then replace x old' new' else x))
    ∧ (NL ∉ new' →
       split (join [NL] lines') [NL] = lines'
       ∧ length (split (join [NL] lines') [NL]) = length lines).
Proof.
  intros Hc Hn Hr Hd1 Hd2 Ha Hx content old' new' lines Hv Ho Hro.
  set (w1 := log_io (ReadText p) w).
  pose proof (by_line_outcome p content old' new' kw w1) as Hout.
  rewrite Hd1, Hd2, Hr in Hout.
  specialize (Hout eq_refl eq_refl Ha (or_intror (ex_intro _ s (ex_intro _ e eq_refl))) Hv).
  destruct (resolved_text p content old' new' kw w1) as [[err|t] w'] eqn:Et.
  { destruct Hout as (_ & Hx' & _). congruence. }
  destruct Hout as (-> & lines' & -> & Hlen & Hls).
  edestruct (str_replace_commits w p raw old new lint kw) as [Hok _]; try done.
  { rewrite Hr. right. eauto. }
  { rewrite Hd2. by left. }
  destruct Hok as (res & Hrun & _); [by right|].
  assert (Hpieces : ∀ (j : nat) x, lines !! j = Some x →
            lines' !! j
            = Some (if decide (s ≤ Z.of_nat j + 1 ≤ e) then replace x old' new' else x)).
  { intros j x Hj. destruct (Hls j x Hj) as (y & Hy & Hit).
    rewrite Hy. f_equal.
    unfold selected_lines in Hit. rewrite Hn, Hr, Hx in Hit. cbn [truthy] in Hit.
    rewrite mentions_range, iter_sub_literal in Hit.
    injection Hit as <-.
    destruct (decide (s - 1 ≤ Z.of_nat j < e)), (decide (s ≤ Z.of_nat j + 1 ≤ e));
      try lia; done. }
  exists res, lines'. split; [done|]. split; [done|]. split; [done|].
  intros Hnl.
  assert (Hsplit : split (join [NL] lines') [NL] = lines').
  { apply split_join_nl.
    - intros ->. cbn [length] in Hlen. symmetry in Hlen.
      apply nil_length_inv in Hlen.
      by apply (split_scan_nonempty [NL] 0 content).
    - apply Forall_lookup. intros j y Hy.
      destruct (lookup_lt_is_Some_2 lines j) as [x Hxj].
      { unfold lines. rewrite <- Hlen. by eapply lookup_lt_Some. }
      assert (Some y = Some (if decide (s ≤ Z.of_nat j + 1 ≤ e)
                             then replace x old' new' else x)) as [= ->]
        by (etrans; [symmetry; exact Hy | by apply Hpieces]).
      assert (Hclean : Forall (λ c, c ≠ NL) x).
      { pose proof (split_clean content) as Hcl. rewrite Forall_lookup in Hcl.
        apply Forall_forall. intros c Hcx ->. by apply (Hcl j x Hxj). }
      assert (Hres : Forall (λ c, c ≠ NL)
                       (if decide (s ≤ Z.of_nat j + 1 ≤ e)
                        then replace x old' new' else x)).
      { case_decide; [|done]. apply replace_chars; [done|].
        apply Forall_forall. by intros c Hcn ->. }
      intros Hin. rewrite Forall_forall in Hres. by apply (Hres NL). }
  split; [done|]. by rewrite Hsplit.
Qed.

(** X11. Without selector and with a literal, non-empty [old_str] that
    [count] finds once, the call returns and replaces that occurrence in
    place: the text is cut into what precedes the occurrence, [old_str]
    and what follows, and the file holds the same text with [new_str] in
    the middle.  The occurrence replaced is the leftmost place where
    [old_str] begins. *)
Theorem unique_occurrence_in_place w p raw old new lint kw :
  content_of w p = Some raw →
  line_numbers kw = [] → line_range kw = [] →
  delete_lines kw = [] → delete_range kw = [] →
  line_all kw = false → regex kw = false →
  let content := expandtabs raw in
  let old' := expandtabs old in
  let new' := match new with Some t => expandtabs t | None => [] end in
  old' ≠ [] → count content old' = 1 → p ∉ readonly w →
  ∃ res pre post,
    content = pre ++ old' ++ post
    ∧ str_replace p old new lint kw w
      = (inr res, committed p content (pre ++ new' ++ post) w)
    ∧ new_content res = Some (pre ++ new' ++ post)
    ∧ ∀ k, (k < length pre)%nat → startswith (drop k content) old' = false.
Proof.
  intros Hc Hn Hr Hd1 Hd2 Ha Hx content old' new' Ho Hcount Hro.
  assert (Hscan : count_scan old' 0 content = 1%nat).
  { unfold count in Hcount. destruct old'; [done | lia]. }
  destruct (count_scan_once old' new' content Ho Hscan)
    as (pre & post & Hcut & Hrep & Hpre & _).
  assert (Hv : valid_lines (Z.of_nat (length (split content [NL]))) kw).
  { unfold valid_lines, in_bounds, ordered. rewrite Hn, Hr, Hd1, Hd2.
    split_and!; first [ by intros ? ?%elem_of_nil | by intros ?? [=] ]. }
  assert (Hs1 : range_shaped (line_range kw)) by (rewrite Hr; by left).
  assert (Hs2 : range_shaped (delete_range kw)) by (rewrite Hd2; by left).
  assert (Ht : resolved_text p content old' new' kw (log_io (ReadText p) w)
               = (inr (replace content old' new'), log_io (ReadText p) w)).
  { unfold resolved_text. rewrite Hd1, Hd2. cbn [truthy].
    by apply first_occurrence_once. }
  destruct (str_replace_commits w p raw old new lint kw _ Hc Hv Hs1 Hs2 Ht Hro)
    as [Hok _].
  destruct Hok as (res & Hrun & Hnew & _); [by right|].
  assert (replace content old' new' = pre ++ new' ++ post) as Et.
  { unfold replace. destruct old'; [done | exact Hrep]. }
  fold content in Hrun. rewrite Et in Hrun, Hnew.
  by exists res, pre, post.
Qed.

End Substitution.

Lemma line_range_substitution_witness :
  ∃ res lines',
    str_replace (env := plain_env) test_txt (py "test") (Some (py "sample")) false
      (line_range_only [2; 3]) four_lines_world
    = (inr res,
       committed test_txt (expandtabs four_lines) (join [NL] lines') four_lines_world)
    ∧ lines' !! 0%nat = Some (py "This is a test file.")
    ∧ lines' !! 1%nat = Some (py "This is a sample line.").
Proof.
  destruct (line_range_substitution (env := plain_env) four_lines_world test_txt
              four_lines (py "test") (Some (py "sample")) false
              (line_range_only [2; 3]) 2 3
              eq_refl eq_refl eq_refl eq_refl eq_refl eq_refl eq_refl)
    as (res & lines' & Hr & _ & Hls & _).
  - literal_valid_lines.
  - by vm_compute.
  - set_solver.
  - exists res, lines'. split; [exact Hr|]. split.
    + rewrite (Hls 0%nat (py "This is a test file.")); by vm_compute.
    + rewrite (Hls 1%nat (py "This is a test line.")); by vm_compute.
Defined.

Lemma unique_occurrence_in_place_witness :
  ∃ res pre post,
    expandtabs four_lines = pre ++ py "another" ++ post
    ∧ str_replace (env := plain_env) test_txt (py "another") (Some (py "one more"))
        false no_kwargs four_lines_world
      = (inr res,
         committed test_txt (expandtabs four_lines) (pre ++ py "one more" ++ post)
           four_lines_world).
Proof.
  destruct (unique_occurrence_in_place (env := plain_env) four_lines_world test_txt
              four_lines (py "another") (Some (py "one more")) false no_kwargs
              eq_refl eq_refl eq_refl eq_refl eq_refl eq_refl eq_refl)
    as (res & pre & post & Hcut & Hr & _).
  - by vm_compute.
  - by vm_compute.
  - set_solver.
  - by exists res, pre, post.
Defined.

(** ** [line_all], and the empty [old_str] *)

Section Precedence.
Context {env : Env}.

(** X16. [line_all=True] takes precedence over [line_numbers] and
    [line_range]: with nothing to delete and a literal, non-empty
    [old_str], the call replaces every occurrence in every line of the
    text cut by [splitlines], whatever lines the two other selectors
    name, provided they name lines of the file. *)
Theorem line_all_overrides_line_selectors w p raw old new lint kw :
  content_of w p = Some raw →
  line_all kw = true → delete_lines kw = [] → delete_range kw = [] →
  regex kw = false →
  let content := expandtabs raw in
  let old' := expandtabs old in
  let new' := match new with Some t => expandtabs t | None => [] end in
  valid_lines (Z.of_nat (length (split content [NL]))) kw →
  range_shaped (line_range kw) → old' ≠ [] → p ∉ readonly w →
  ∃ res,
    str_replace p old new lint kw w
    = (inr res,
       committed p content
         (join [NL] ((λ line, replace line old' new') <$> splitlines content)) w).
Proof.
  intros Hc Ha Hd1 Hd2 Hx content old' new' Hv Hs1 Ho Hro.
  assert (Hs2 : range_shaped (delete_range kw)) by (rewrite Hd2; by left).
  assert (Ht : resolved_text p content old' new' kw (log_io (ReadText p) w)
               = (inr (join [NL] ((λ line, replace line old' new')
                                    <$> splitlines content)),
                  log_io (ReadText p) w)).
  { unfold resolved_text, replaced_content. rewrite Hd1, Hd2, Ha, Hx. done. }
  destruct (str_replace_commits w p raw old new lint kw _ Hc Hv Hs1 Hs2 Ht Hro)
    as [Hok _].
  destruct Hok as (res & Hrun & _); [by right|]. by exists res.
Qed.

(** X17. The empty [old_str] with [line_numbers], [line_range] or
    [line_all]: the call raises [ValueError] from [split], but only after
    the new text was written and the former text pushed on the history;
    the file is changed although the call failed, and [undo_edit] brings
    the former text back. *)
Theorem empty_old_str_fails_after_the_write w p raw new lint kw :
  content_of w p = Some raw →
  delete_lines kw = [] → delete_range kw = [] →
  truthy (line_numbers kw) || truthy (line_range kw) || line_all kw = true →
  regex kw = false →
  let content := expandtabs raw in
  valid_lines (Z.of_nat (length (split content [NL]))) kw →
  range_shaped (line_range kw) → p ∉ readonly w →
  ∃ t,
    str_replace p [] new lint kw w = (inl empty_separator, committed p content t w)
    ∧ content_of (committed p content t w) p = Some t
    ∧ history_of (committed p content t w) p = history_of w p ++ [content]
    ∧ ∃ res w2, undo_edit p (committed p content t w) = (inr res, w2)
        ∧ content_of w2 p = Some content
        ∧ history_of w2 p = history_of w p.
Proof.
  intros Hc Hd1 Hd2 Hsel Hx content Hv Hs1 Hro.
  assert (Hs2 : range_shaped (delete_range kw)) by (rewrite Hd2; by left).
  set (new' := match new with Some t => expandtabs t | None => [] end).
  set (w1 := log_io (ReadText p) w).
  assert (Hact : selector_active kw = true).
  { unfold selector_active. by rewrite Hsel. }
  pose proof (resolved_text_with_selector p content [] new' kw w1 Hact Hv Hs1 Hs2)
    as Hres.
  destruct (resolved_text p content [] new' kw w1) as [[e|t] w'] eqn:Et.
  { destruct Hres as (_ & Hx' & _). congruence. }
  destruct Hres as [-> _].
  destruct (str_replace_commits w p raw [] new lint kw t Hc Hv Hs1 Hs2 Et Hro)
    as [_ Hfail].
  exists t. split; [apply Hfail; [by rewrite Hd1, Hd2 | done]|].
  assert (Hcont : content_of (committed p content t w) p = Some t).
  { unfold content_of, committed; cbn [fs]. by rewrite lookup_insert_eq. }
  assert (Hhist : history_of (committed p content t w) p = history_of w p ++ [content]).
  { unfold committed. rewrite history_of_insert. by rewrite decide_True. }
  split; [done|]. split; [done|].
  destruct (undo_edit_pop (committed p content t w) p (history_of w p) content t
              Hhist Hcont Hro) as (res & Hu & _).
  eexists res, _. split; [exact Hu|].
  split; [unfold content_of; cbn [fs]; by rewrite lookup_insert_eq|].
  rewrite history_of_insert. by rewrite decide_True.
Qed.

End Precedence.

Lemma line_all_overrides_line_selectors_witness :
  content_of
    (str_replace (env := plain_env) test_txt (py "test") (Some (py "sample")) false
       {| line_numbers := [1]; line_range := [2; 2]; line_all := true;
          delete_lines := []; delete_range := []; regex := false |}
       four_lines_world).2 test_txt
  = Some (text [py "This is a sample file."; py "This is a sample line.";
                py "This is another sample line."; py "This is a sample file."]).
Proof.
  destruct (line_all_overrides_line_selectors (env := plain_env) four_lines_world
              test_txt four_lines (py "test") (Some (py "sample")) false
              {| line_numbers := [1]; line_range := [2; 2]; line_all := true;
                 delete_lines := []; delete_range := []; regex := false |}
              eq_refl eq_refl eq_refl eq_refl eq_refl) as (res & Hr).
  - literal_valid_lines.
  - right. by exists 2, 2.
  - by vm_compute.
  - set_solver.
  - rewrite Hr. by vm_compute.
Defined.

Lemma empty_old_str_fails_after_the_write_witness :
  ∃ t, str_replace (env := plain_env) test_txt [] (Some (py "X")) false
         (line_numbers_only [1]) four_lines_world
       = (inl empty_separator,
          committed test_txt (expandtabs four_lines) t four_lines_world)
    ∧ content_of (committed test_txt (expandtabs four_lines) t four_lines_world)
        test_txt = Some t.
Proof.
  destruct (empty_old_str_fails_after_the_write (env := plain_env) four_lines_world
              test_txt four_lines (Some (py "X")) false (line_numbers_only [1])
              eq_refl eq_refl eq_refl eq_refl eq_refl) as (t & Hr & Hc & _).
  - literal_valid_lines.
  - by left.
  - set_solver.
  - by exists t.
Defined.

(** ** The guard on equal strings *)

Section EqualStrings.
Context {env : Env}.

(** X18. [__call__] compares [new_str] with [old_str] as they are given,
    before [str_replace] expands their tabs.  Equal strings are rejected
    and nothing is read.  Two strings that differ only in how a tab is
    spelled pass the guard; when the text occurs once the call returns,
    the text written is the text read (tabs expanded), and one more entry
    is pushed on the history. *)
Theorem equal_strings_guard r w raw o :
  command r = str_replace_cmd → old_str r = Some o →
  is_absolute (req_path r) = true → content_of w (req_path r) = Some raw →
  (new_str r = Some o →
     ∃ e, __call__ r w = (inl e, w)
       ∧ exn_class e = EditorToolParameterInvalidError_class)
  ∧ (∀ n, new_str r = Some n → n ≠ o → expandtabs n = expandtabs o →
       more r = no_kwargs → expandtabs o ≠ [] →
       count (expandtabs raw) (expandtabs o) = 1 → req_path r ∉ readonly w →
       ∃ res, __call__ r w
              = (inr res, committed (req_path r) (expandtabs raw) (expandtabs raw) w)).
Proof.
  intros Hcmd Ho Ha Hc.
  assert (Hv : validate_path str_replace_cmd (req_path r) w = (inr (), w))
    by (by eapply validate_path_file).
  unfold __call__. cbv zeta. rewrite Hcmd, (bind_inr _ _ _ _ _ Hv), Ho.
  split.
  - intros Hn. rewrite bool_decide_eq_true_2 by done. by eexists.
  - intros n Hn Hne Hexp Hkw Hold Hcount Hro.
    rewrite bool_decide_eq_false_2 by (rewrite Hn; by intros [= ->]).
    rewrite Hn, Hkw.
    assert (Hscan : count_scan (expandtabs o) 0 (expandtabs raw) = 1%nat).
    { unfold count in Hcount. destruct (expandtabs o); [done | lia]. }
    destruct (count_scan_once (expandtabs o) (expandtabs n) (expandtabs raw) Hold Hscan)
      as (pre & post & Hcut & Hrep & _).
    assert (Ht : resolved_text (req_path r) (expandtabs raw) (expandtabs o)
                   (expandtabs n) no_kwargs (log_io (ReadText (req_path r)) w)
                 = (inr (expandtabs raw), log_io (ReadText (req_path r)) w)).
    { unfold resolved_text. cbn [no_kwargs delete_lines delete_range truthy].
      rewrite first_occurrence_once by done. do 2 f_equal.
      unfold replace. rewrite Hexp in Hrep |- *.
      destruct (expandtabs o); [done|]. by rewrite Hrep. }
    destruct (str_replace_commits w (req_path r) raw o (Some n) (enable_linting r)
                no_kwargs (expandtabs raw) Hc) as [Hok _]; try done.
    + split_and!; first [ by intros ? ?%elem_of_nil | by intros ?? [=] ].
    + by left.
    + by left.
    + destruct Hok as (res & Hrun & _); [by right|]. by exists res.
Qed.

End EqualStrings.

Lemma equal_strings_guard_witness :
  ∃ res, __call__ (env := plain_env)
           (str_replace_request a_txt ([TAB] ++ py "x")
              (Some (replicate 8 SP ++ py "x")) no_kwargs) tab_world
         = (inr res,
            committed a_txt (replicate 8 SP ++ py "x") (replicate 8 SP ++ py "x")
              tab_world).
Proof.
  destruct (equal_strings_guard (env := plain_env)
              (str_replace_request a_txt ([TAB] ++ py "x")
                 (Some (replicate 8 SP ++ py "x")) no_kwargs)
              tab_world ([TAB] ++ py "x") ([TAB] ++ py "x")
              eq_refl eq_refl eq_refl eq_refl) as [_ Hpass].
  destruct (Hpass (replicate 8 SP ++ py "x") eq_refl) as (res & Hr);
    [by vm_compute | by vm_compute | reflexivity | by vm_compute | by vm_compute
    | set_solver |].
  by exists res.
Defined.
